(** * Repair-shop data-access layer: validators, repositories and hooks

    A shallow embedding of the data-access module [lib/firebase]
    (validation utilities and the four entity repositories) and of the
    data-fetch hooks built on it, together with the properties stated for
    them.

    Conventions of the embedding:
    - a JavaScript string is its sequence of UTF-16 code units;
    - a JavaScript number is an IEEE-754 binary64 value ([spec_float]);
    - a JavaScript object / Firestore document is a finite map from field
      names to values;
    - an [async] function is a state-passing computation over the backing
      service, ending in a returned value or a thrown error;
    - what the program does not decide (rejections by the service, the
      server clock, minted ids, [Math.random()], [new Date()]) is read
      from an environment. *)

From Stdlib Require Import ZArith NArith Ascii String List Bool Lia.
From Stdlib Require Import Floats.SpecFloat DecimalString.
From stdpp Require Import base option list gmap strings fin_maps.

Local Open Scope string_scope.
Local Open Scope list_scope.

(* ===================================================================== *)
(** * 1. JavaScript values                                                 *)
(* ===================================================================== *)

Module Js.

(** A string is a list of UTF-16 code units. *)
Definition jsstring := list N.

(** Code units of an ASCII literal of the source text. *)
Definition lit (s : string) : jsstring :=
  map N_of_ascii (list_ascii_of_string s).

(** ECMAScript [WhiteSpace] and [LineTerminator] code points: the set that
    [String.prototype.trim] strips and that [\s] matches. *)
Definition is_white_space (c : N) : bool :=
  (  (c =? 0x0009) || (c =? 0x000A) || (c =? 0x000B) || (c =? 0x000C)
  || (c =? 0x000D) || (c =? 0x0020) || (c =? 0x00A0) || (c =? 0x1680)
  || ((0x2000 <=? c) && (c <=? 0x200A))
  || (c =? 0x2028) || (c =? 0x2029) || (c =? 0x202F) || (c =? 0x205F)
  || (c =? 0x3000) || (c =? 0xFEFF))%N.

Fixpoint trimStart (s : jsstring) : jsstring :=
  match s with
  | c :: s' => if is_white_space c then trimStart s' else s
  | [] => []
  end.

Definition trimEnd (s : jsstring) : jsstring := rev (trimStart (rev s)).

(** [String.prototype.trim] *)
Definition trim (s : jsstring) : jsstring := trimEnd (trimStart s).

(** Firestore [Timestamp]: an instant of the server clock. *)
Definition Timestamp := N.

(** The values a field of a record can hold at run time. *)
#[warnings="-register-all"]
Inductive JsValue : Type :=
  | JUndefined
  | JNull
  | JBool (b : bool)
  | JNumber (x : spec_float)
  | JString (s : jsstring)
  | JArray (items : list JsValue)
  | JTimestamp (t : Timestamp)
  | JServerTimestamp.   (* the sentinel returned by [serverTimestamp()] *)

(** [typeof v] *)
Inductive JsType := TUndefined | TObject | TBoolean | TNumber | TString.

Definition typeof (v : JsValue) : JsType :=
  match v with
  | JUndefined => TUndefined
  | JNull => TObject
  | JBool _ => TBoolean
  | JNumber _ => TNumber
  | JString _ => TString
  | JArray _ => TObject
  | JTimestamp _ => TObject
  | JServerTimestamp => TObject
  end.

Definition JsType_eqb (a b : JsType) : bool :=
  match a, b with
  | TUndefined, TUndefined | TObject, TObject | TBoolean, TBoolean
  | TNumber, TNumber | TString, TString => true
  | _, _ => false
  end.

(** [Array.isArray v] *)
Definition isArray (v : JsValue) : bool :=
  match v with JArray _ => true | _ => false end.

(** [v.length] of an array ([0] stands for a value that has none; the
    callers test [isArray] first). *)
Definition array_length (v : JsValue) : nat :=
  match v with JArray l => length l | _ => 0 end.

Definition zero : spec_float := S754_zero false.

(** [x >= 0] on numbers: false on NaN, true on both zeros. *)
Definition ge_zero (x : spec_float) : bool := SFleb zero x.

(** [x < 0] on numbers. *)
Definition lt_zero (x : spec_float) : bool := SFltb x zero.

(** ECMAScript [ToBoolean]. *)
Definition truthy (v : JsValue) : bool :=
  match v with
  | JUndefined | JNull => false
  | JBool b => b
  | JNumber x =>
      match x with
      | S754_zero _ | S754_nan => false
      | _ => true
      end
  | JString s => match s with [] => false | _ => true end
  | JArray _ | JTimestamp _ | JServerTimestamp => true
  end.

End Js.
Import Js.

(* ===================================================================== *)
(** * 2. Validation utilities                                              *)
(* ===================================================================== *)

(** [validateRequired]:
    if (value === undefined || value === null) return false;
    if (typeof value === 'string') return value.trim().length > 0;
    return true; *)
Definition validateRequired (value : JsValue) : bool :=
  match value with
  | JUndefined | JNull => false
  | JString s => Nat.ltb 0 (length (trim s))
  | _ => true
  end.

(** [validatePositiveNumber]:
    return typeof value === 'number' && value >= 0; *)
Definition validatePositiveNumber (value : JsValue) : bool :=
  match value with
  | JNumber x => ge_zero x
  | _ => false
  end.

(* ===================================================================== *)
(** * 3. Regular expressions                                               *)
(* ===================================================================== *)

Module RegExp.

(** The fragment of regular-expression syntax the source uses: character
    classes, concatenation and the [+] quantifier (with [*] and
    alternation, which derivatives need). *)
Inductive RegExp : Type :=
  | Never
  | Empty
  | Class (p : N -> bool)
  | Seq (r1 r2 : RegExp)
  | Alt (r1 r2 : RegExp)
  | Star (r : RegExp).

(** [r+] *)
Definition Plus (r : RegExp) : RegExp := Seq r (Star r).

(** The strings a regular expression denotes. *)
Inductive lang : RegExp -> jsstring -> Prop :=
  | lang_empty : lang Empty []
  | lang_class p c : p c = true -> lang (Class p) [c]
  | lang_seq r1 r2 s1 s2 :
      lang r1 s1 -> lang r2 s2 -> lang (Seq r1 r2) (s1 ++ s2)
  | lang_alt_l r1 r2 s : lang r1 s -> lang (Alt r1 r2) s
  | lang_alt_r r1 r2 s : lang r2 s -> lang (Alt r1 r2) s
  | lang_star_nil r : lang (Star r) []
  | lang_star_cons r s1 s2 :
      lang r s1 -> lang (Star r) s2 -> lang (Star r) (s1 ++ s2).

Fixpoint nullable (r : RegExp) : bool :=
  match r with
  | Never => false
  | Empty => true
  | Class _ => false
  | Seq r1 r2 => nullable r1 && nullable r2
  | Alt r1 r2 => nullable r1 || nullable r2
  | Star _ => true
  end.

(** Brzozowski derivative of [r] by the code unit [c]. *)
Fixpoint deriv (c : N) (r : RegExp) : RegExp :=
  match r with
  | Never => Never
  | Empty => Never
  | Class p => if p c then Empty else Never
  | Seq r1 r2 =>
      if nullable r1
      then Alt (Seq (deriv c r1) r2) (deriv c r2)
      else Seq (deriv c r1) r2
  | Alt r1 r2 => Alt (deriv c r1) (deriv c r2)
  | Star r1 => Seq (deriv c r1) (Star r1)
  end.

(** Whether the whole of [s] matches [r]. *)
Fixpoint full_match (r : RegExp) (s : jsstring) : bool :=
  match s with
  | [] => nullable r
  | c :: s' => full_match (deriv c r) s'
  end.

(** [/^r$/.test(s)]: with both anchors (and no [m] flag) the search for a
    match anywhere in [s] is a match of all of [s]. *)
Definition test_anchored (r : RegExp) (s : jsstring) : bool := full_match r s.

End RegExp.
Import RegExp.

(** The class [[^\s@]]: any code unit that is neither white space nor
    [@] (U+0040). *)
Definition not_space_or_at (c : N) : bool :=
  negb (is_white_space c || (c =? 0x40)%N).

Definition is_char (k : N) (c : N) : bool := (c =? k)%N.

(** [const emailRegex = /^[^\s@]+@[^\s@]+\.[^\s@]+$/;] *)
Definition emailRegex : RegExp :=
  Seq (Plus (Class not_space_or_at))
      (Seq (Class (is_char 0x40))
           (Seq (Plus (Class not_space_or_at))
                (Seq (Class (is_char 0x2E))
                     (Plus (Class not_space_or_at))))).

(** [validateEmail]: [return emailRegex.test(email);] *)
Definition validateEmail (email : jsstring) : bool :=
  test_anchored emailRegex email.

(** The shape [user@domain.tld] in words: three non-empty parts free of
    white space and of [@], joined by one [@] and one dot. *)
Definition part_ok (s : jsstring) : Prop :=
  s <> [] /\ forallb not_space_or_at s = true.

Definition user_at_domain_tld (s : jsstring) : Prop :=
  exists user domain tld,
    s = user ++ [0x40%N] ++ domain ++ [0x2E%N] ++ tld
    /\ part_ok user /\ part_ok domain /\ part_ok tld.

(* ===================================================================== *)
(** * 4. Records and composite validators                                  *)
(* ===================================================================== *)

(** A JavaScript object (and a Firestore document): field name to value. *)
Abbreviation JsObject := (gmap string JsValue).

(** Property read [o.k]: [undefined] when the object has no such field. *)
Definition get (o : JsObject) (k : string) : JsValue :=
  default JUndefined (o !! k).

(** Object spread [{...a, ...b}]: the fields of [b] win. *)
Definition spread (a b : JsObject) : JsObject := b ∪ a.

(** The result of a composite validator: [{ valid, errors }]. *)
Record Validation : Type := mkValidation {
  valid : bool;
  errors : list string
}.

(** [if (!ok) errors.push(msg)] *)
Definition push_unless (ok : bool) (msg : string) (errors : list string)
  : list string :=
  if ok then errors else errors ++ [msg].

(** [{ valid: errors.length === 0, errors }] *)
Definition finish (errors : list string) : Validation :=
  {| valid := Nat.eqb (length errors) 0; errors := errors |}.

Section Validators.

(** ECMAScript [ToString] on a value that is not a string (number
    formatting, array joining, object printing): supplied by the runtime.
    [RegExp.prototype.test] applies [ToString] to its argument. *)
Variable ToString_other : JsValue -> jsstring.

Definition ToString (v : JsValue) : jsstring :=
  match v with
  | JString s => s
  | _ => ToString_other v
  end.

(** [validateCustomer] *)
Definition validateCustomer (customer : JsObject) : Validation :=
  let errors := [] in
  let errors :=
    push_unless (validateRequired (get customer "name"))
                "Name is required" errors in
  let errors :=
    push_unless (validateRequired (get customer "phone"))
                "Phone is required" errors in
  let errors :=
    push_unless
      (negb (truthy (get customer "email")
             && negb (validateEmail (ToString (get customer "email")))))
      "Email format is invalid" errors in
  finish errors.

(** [validateRepair] *)
Definition validateRepair (repair : JsObject) : Validation :=
  let errors := [] in
  let errors :=
    push_unless (validateRequired (get repair "customer_id"))
                "Customer ID is required" errors in
  let errors :=
    push_unless (validateRequired (get repair "device_type"))
                "Device type is required" errors in
  let errors :=
    push_unless (validateRequired (get repair "brand"))
                "Brand is required" errors in
  let errors :=
    push_unless (validateRequired (get repair "model"))
                "Model is required" errors in
  let errors :=
    push_unless (validateRequired (get repair "status"))
                "Status is required" errors in
  let errors :=
    push_unless (validatePositiveNumber (get repair "cost"))
                "Cost must be a positive number" errors in
  let errors :=
    push_unless
      (negb (negb (isArray (get repair "tasks"))
             || Nat.eqb (array_length (get repair "tasks")) 0))
      "At least one task is required" errors in
  finish errors.

(** [validateProduct] *)
Definition validateProduct (product : JsObject) : Validation :=
  let errors := [] in
  let errors :=
    push_unless (validateRequired (get product "name"))
                "Name is required" errors in
  let errors :=
    push_unless (validateRequired (get product "category"))
                "Category is required" errors in
  let errors :=
    push_unless (validateRequired (get product "supplier"))
                "Supplier is required" errors in
  let errors :=
    push_unless (validatePositiveNumber (get product "quantity"))
                "Quantity must be a positive number" errors in
  let errors :=
    push_unless (validatePositiveNumber (get product "price"))
                "Price must be a positive number" errors in
  finish errors.

(** [validateTechnician] *)
Definition validateTechnician (technician : JsObject) : Validation :=
  let errors := [] in
  let errors :=
    push_unless (validateRequired (get technician "name"))
                "Name is required" errors in
  let errors :=
    push_unless (validateRequired (get technician "phone"))
                "Phone is required" errors in
  let errors :=
    push_unless
      (negb (negb (isArray (get technician "specialization"))
             || Nat.eqb (array_length (get technician "specialization")) 0))
      "At least one specialization is required" errors in
  let errors :=
    push_unless
      (negb (truthy (get technician "email")
             && negb (validateEmail (ToString (get technician "email")))))
      "Email format is invalid" errors in
  let errors :=
    push_unless
      (negb (negb (JsType_eqb (typeof (get technician "availability"))
                              TBoolean)))
      "Availability must be a boolean value" errors in
  finish errors.

End Validators.

(* ===================================================================== *)
(** * 5. Secondary identifiers                                             *)
(* ===================================================================== *)

Module Ids.

(** [String.prototype.toLowerCase] / [toUpperCase] on the code units that
    reach them here (month names and radix-36 digits, all ASCII): a letter
    of the other case is shifted by 32, anything else is kept. *)
Definition lower_unit (c : N) : N :=
  if ((0x41 <=? c) && (c <=? 0x5A))%N then (c + 32)%N else c.

Definition upper_unit (c : N) : N :=
  if ((0x61 <=? c) && (c <=? 0x7A))%N then (c - 32)%N else c.

Definition toLowerCase (s : jsstring) : jsstring := map lower_unit s.
Definition toUpperCase (s : jsstring) : jsstring := map upper_unit s.

(** [s.substring(start, end)] for [start <= end]. *)
Definition substring (start finish : nat) (s : jsstring) : jsstring :=
  take (finish - start) (drop start s).

(** The month of [new Date()]. *)
Inductive Month : Type :=
  | January | February | March | April | May | June
  | July | August | September | October | November | December.

(** [date.toLocaleString('en-US', { month: 'short' })] *)
Definition month_short (m : Month) : jsstring :=
  lit match m with
      | January => "Jan" | February => "Feb" | March => "Mar"
      | April => "Apr" | May => "May" | June => "Jun"
      | July => "Jul" | August => "Aug" | September => "Sep"
      | October => "Oct" | November => "Nov" | December => "Dec"
      end.

(** [Math.random()]: a number in [0, 1), held as the numerator [n] of
    [n / 2^53]; numerators are taken modulo [2^53]. *)
Definition two53 : N := 2 ^ 53.
Definition numerator (draw : N) : N := (draw mod two53)%N.

(** Numbers are IEEE 754 doubles ([spec_float] at 53 bits of precision):
    [binary64 m e] is the double nearest to [m * 2^e]. *)
Definition binary64 (m e : Z) : spec_float :=
  binary_normalize 53 1024 m e false.

(** The value [Math.random()] returned, [n / 2^53], as a double. *)
Definition Math_random_value (draw : N) : spec_float :=
  binary64 (Z.of_N (numerator draw)) (-53)%Z.

(** [Math.floor] of a finite double, as an integer (it is not applied to
    an infinity or to NaN here). *)
Definition Math_floor (x : spec_float) : Z :=
  match x with
  | S754_finite s m e => Z.shiftl (cond_Zopp s (Zpos m)) e
  | _ => 0%Z
  end.

(** [Math.floor(1000 + Math.random() * 9000)]: the product and then the
    sum are each rounded to the nearest double, ties to even. *)
Definition randomNum (draw : N) : N :=
  Z.to_N
    (Math_floor
       (SFadd 53 1024 (binary64 1000 0)
          (SFmul 53 1024 (Math_random_value draw) (binary64 9000 0)))).

(** Decimal digits of an integer, as template-literal interpolation
    prints it. *)
Definition decimal (n : N) : jsstring :=
  lit (NilZero.string_of_uint (N.to_uint n)).

(** [const repair_id = `${month}${randomNum}`;] with
    [month = date.toLocaleString(...).toLowerCase()]. *)
Definition make_repair_id (m : Month) (draw : N) : jsstring :=
  toLowerCase (month_short m) ++ decimal (randomNum draw).

(** Radix-36 digit [0-9a-z]. *)
Definition digit36 (d : N) : N :=
  if (d <? 10)%N then (0x30 + d)%N else (0x61 + (d - 10))%N.

(** Digits of the radix-36 expansion of [f / 2^53], until the remainder
    vanishes. *)
Fixpoint fraction36 (fuel : nat) (f : N) : list N :=
  match fuel with
  | O => []
  | S fuel' =>
      if (f =? 0)%N then []
      else ((36 * f) / two53)%N :: fraction36 fuel' ((36 * f) mod two53)%N
  end.

(** A number in [0, 1) printed in radix 36 with the fraction digits [ds]:
    ["0"] when there is none, otherwise ["0."] and the digits. *)
Definition printed36 (ds : list N) : jsstring :=
  match ds with
  | [] => lit "0"
  | _ => lit "0." ++ map digit36 ds
  end.

(** [x.toString(36)] for [x = n / 2^53] in [0, 1), printed with every
    digit of its radix-36 expansion (a multiple of [2^-53] has at most
    27).  How many digits are printed is left to the engine: it may stop
    at the first digits that identify the double, rounding the last one.
    The two agree when the expansion is short, as for [0] and [0.5]. *)
Definition toString36 (draw : N) : jsstring :=
  printed36 (fraction36 27 (numerator draw)).

(** [Math.random().toString(36).substring(2, 10).toUpperCase()] applied to
    the printed number. *)
Definition product_suffix (printed : jsstring) : jsstring :=
  toUpperCase (substring 2 10 printed).

(** [Math.random().toString(36).substring(2, 8).toUpperCase()] *)
Definition technician_suffix (printed : jsstring) : jsstring :=
  toUpperCase (substring 2 8 printed).

(** [const product_id = `PROD-${randomId}`;] *)
Definition make_product_id (draw : N) : jsstring :=
  lit "PROD-" ++ product_suffix (toString36 draw).

(** [const tech_id = `TECH-${randomId}`;] *)
Definition make_tech_id (draw : N) : jsstring :=
  lit "TECH-" ++ technician_suffix (toString36 draw).

(** Upper-case radix-36 alphabet [0-9A-Z]. *)
Definition is_base36_upper (c : N) : bool :=
  (((0x30 <=? c) && (c <=? 0x39)) || ((0x41 <=? c) && (c <=? 0x5A)))%N.

Definition is_decimal_digit (c : N) : bool :=
  ((0x30 <=? c) && (c <=? 0x39))%N.

End Ids.
Import Ids.

(* ===================================================================== *)
(** * 6. The backing document store                                        *)
(* ===================================================================== *)

Module Firestore.

(** What an [async] function ends in. *)
Inductive Exn : Type :=
  | Error (message : string)          (* [new Error(message)] *)
  | FirestoreError (code : string).   (* a rejection by the service *)

Inductive Outcome (A : Type) : Type :=
  | Returned (a : A)
  | Threw (e : Exn).
Arguments Returned {A} a.
Arguments Threw {A} e.

(** The right-hand sides the program compares a field with in [where]. *)
Inductive QueryValue : Type :=
  | QString (s : jsstring)
  | QBool (b : bool).

(** [where(field, '==', q)] on a stored value: equal type and content. *)
Definition field_equals (q : QueryValue) (v : JsValue) : bool :=
  match q, v with
  | QString s, JString t => bool_decide (t = s)
  | QBool b, JBool c => Bool.eqb b c
  | _, _ => false
  end.

(** Requests sent to the service, as the program issues them. *)
Inductive Request : Type :=
  | ReqAddDoc (coll : string) (data : JsObject)
  | ReqGetDoc (coll id : string)
  | ReqUpdateDoc (coll id : string) (data : JsObject)
  | ReqGetDocs (coll : string) (filter : option (string * QueryValue)).

Definition is_write (r : Request) : bool :=
  match r with
  | ReqAddDoc _ _ | ReqUpdateDoc _ _ _ => true
  | ReqGetDoc _ _ | ReqGetDocs _ _ => false
  end.

(** What the program does not decide: whether the service rejects a
    request (network failure, security rules), the server clock, the
    document ids [addDoc] mints, [Math.random()] and [new Date()].  Each
    is indexed by the number of draws made so far. *)
Record Env : Type := mkEnv {
  rejects : nat -> bool;
  serverTime : nat -> Timestamp;
  idEntropy : nat -> nat -> nat;
  randomDraw : nat -> N;
  currentMonth : nat -> Month
}.

Record World : Type := mkWorld {
  db : gmap string (gmap string JsObject);  (* collection, id, document *)
  tick : nat;                               (* draws made so far *)
  requests : list Request;                  (* newest first *)
  console : list string                     (* [console.error], newest first *)
}.

Definition collection (w : World) (coll : string) : gmap string JsObject :=
  default ∅ (db w !! coll).

(** A computation over the world that returns or throws. *)
Definition M (A : Type) : Type := World -> Outcome A * World.

Definition ret {A} (a : A) : M A := fun w => (Returned a, w).

Definition bind {A B} (m : M A) (f : A -> M B) : M B :=
  fun w =>
    match m w with
    | (Returned a, w') => f a w'
    | (Threw e, w') => (Threw e, w')
    end.

Definition throw {A} (e : Exn) : M A := fun w => (Threw e, w).

(** [try { body } catch (error) { handler }] *)
Definition try_catch {A} (body : M A) (handler : Exn -> M A) : M A :=
  fun w =>
    match body w with
    | (Returned a, w') => (Returned a, w')
    | (Threw e, w') => handler e w'
    end.

(** [try { body } finally { final }] *)
Definition try_finally {A} (body : M A) (final : M unit) : M A :=
  fun w =>
    match body w with
    | (r, w') =>
        match final w' with
        | (Returned _, w'') => (r, w'')
        | (Threw e, w'') => (Threw e, w'')
        end
    end.

(** World updates: a line on the console, a request on the wire (one
    draw), a document written, a draw made. *)
Definition logged (line : string) (w : World) : World :=
  {| db := db w; tick := tick w; requests := requests w;
     console := line :: console w |}.

Definition sent (r : Request) (w : World) : World :=
  {| db := db w; tick := S (tick w); requests := r :: requests w;
     console := console w |}.

Definition stored (coll id : string) (doc : JsObject) (w : World) : World :=
  {| db := <[coll := <[id := doc]> (collection w coll)]> (db w);
     tick := tick w; requests := requests w; console := console w |}.

Definition drew (w : World) : World :=
  {| db := db w; tick := S (tick w); requests := requests w;
     console := console w |}.

Definition console_error (line : string) : M unit :=
  fun w => (Returned tt, logged line w).

Notation "'let!' x ':=' m 'in' k" := (bind m (fun x => k))
  (at level 10, x name, m at level 100, k at level 200).
Notation "'do!' m 'in' k" := (bind m (fun _ => k))
  (at level 10, m at level 100, k at level 200).

(** The 62-letter alphabet of automatic document ids. *)
Definition idAlphabet : list ascii :=
  list_ascii_of_string
    "ABCDEFGHIJKLMNOPQRSTUVWXYZabcdefghijklmnopqrstuvwxyz0123456789".

(** A fresh document id: 20 letters of the alphabet. *)
Definition autoId (entropy : nat -> nat) : string :=
  string_of_list_ascii
    (map (fun i => nth (entropy i mod 62) idAlphabet "A"%char) (seq 0 20)).

(** Server-side resolution of the [serverTimestamp()] sentinel. *)
Definition resolve_value (t : Timestamp) (v : JsValue) : JsValue :=
  match v with
  | JServerTimestamp => JTimestamp t
  | _ => v
  end.

Definition resolve (t : Timestamp) (data : JsObject) : JsObject :=
  resolve_value t <$> data.

Section Service.

Variable env : Env.

(** Send a request: it is logged, counts as one draw, and the service
    may reject it. *)
Definition send (r : Request) : M unit :=
  fun w =>
    if rejects env (tick w)
    then (Threw (FirestoreError "unavailable"), sent r w)
    else (Returned tt, sent r w).

Definition put (coll id : string) (doc : JsObject) : M unit :=
  fun w => (Returned tt, stored coll id doc w).

(** [addDoc(collection, data)]: create a document under a fresh id (the
    write fails if the id is taken) and return the id. *)
Definition addDoc (coll : string) (data : JsObject) : M string :=
  fun w =>
    let id := autoId (idEntropy env (tick w)) in
    let t := serverTime env (tick w) in
    (do! send (ReqAddDoc coll data) in
     fun w' =>
       match collection w' coll !! id with
       | Some _ => throw (FirestoreError "already-exists") w'
       | None => (do! put coll id (resolve t data) in ret id) w'
       end) w.

(** [getDoc(doc(db, coll, id))]: the snapshot, [None] when the document
    does not exist ([snapshot.exists()] is false).  The reference is taken
    to be well formed: for an [id] that is empty or does not name a
    document, [doc] throws before anything is sent. *)
Definition getDoc (coll id : string) : M (option JsObject) :=
  do! send (ReqGetDoc coll id) in
  fun w => (Returned (collection w coll !! id), w).

(** [updateDoc(ref, data)]: set the given fields of an existing document
    and keep the others; fails if the document does not exist. *)
Definition updateDoc (coll id : string) (data : JsObject) : M unit :=
  fun w =>
    let t := serverTime env (tick w) in
    (do! send (ReqUpdateDoc coll id data) in
     fun w' =>
       match collection w' coll !! id with
       | None => throw (FirestoreError "not-found") w'
       | Some old => put coll id (resolve t data ∪ old) w'
       end) w.

(** [getDocs(collection)] and [getDocs(query(collection, where(f, '==',
    q)))]: the documents (with their ids) that satisfy the filter. *)
Definition passes (flt : option (string * QueryValue)) (doc : JsObject)
  : bool :=
  match flt with
  | None => true
  | Some (field, q) =>
      match doc !! field with
      | Some v => field_equals q v
      | None => false
      end
  end.

Definition getDocs (coll : string) (flt : option (string * QueryValue))
  : M (list (string * JsObject)) :=
  do! send (ReqGetDocs coll flt) in
  fun w =>
    (Returned (filter (fun d => passes flt d.2 = true)
                      (map_to_list (collection w coll))), w).

(** [Math.random()] and [new Date()]: one draw each. *)
Definition Math_random : M N :=
  fun w => (Returned (randomDraw env (tick w)), drew w).

Definition new_Date_month : M Month :=
  fun w => (Returned (currentMonth env (tick w)), drew w).

End Service.

End Firestore.
Import Firestore.

(* ===================================================================== *)
(** * 7. Entity repositories                                               *)
(* ===================================================================== *)

(** [`Validation failed: ${validation.errors.join(', ')}`] *)
Definition validation_message (v : Validation) : string :=
  String.append "Validation failed: " (String.concat ", " (errors v)).

(** [{ id: doc.id, ...doc.data() }] *)
Definition with_id (d : string * JsObject) : JsObject :=
  spread {[ "id" := JString (lit d.1) ]} d.2.

(** [{ ...payload, createdAt: serverTimestamp(), updatedAt:
    serverTimestamp() }] and its variants: later fields win. *)
Definition stamp (field : string) (o : JsObject) : JsObject :=
  <[field := JServerTimestamp]> o.

Section Repositories.

Variable ToString_other : JsValue -> jsstring.
Variable env : Env.

(** ** Customers *)

Definition addCustomer (customer : JsObject) : M (option string) :=
  let validation := validateCustomer ToString_other customer in
  if negb (valid validation) then
    do! console_error "Customer validation failed:" in
    throw (Error (validation_message validation))
  else
    try_catch
      (let customerData := stamp "updatedAt" (stamp "createdAt" customer) in
       let! docRef := addDoc env "customers" customerData in
       ret (Some docRef))
      (fun error =>
         do! console_error "Error adding customer:" in ret None).

Definition updateCustomer (customerId : string) (customer : JsObject)
  : M bool :=
  try_catch
    (let! customerDoc := getDoc env "customers" customerId in
     match customerDoc with
     | None => throw (Error "Customer not found")
     | Some currentData =>
         let updatedData :=
           stamp "updatedAt" (spread currentData customer) in
         let validation := validateCustomer ToString_other updatedData in
         if negb (valid validation) then
           throw (Error (validation_message validation))
         else
           do! updateDoc env "customers" customerId updatedData in
           ret true
     end)
    (fun error =>
       do! console_error "Error updating customer:" in ret false).

Definition getCustomers : M (list JsObject) :=
  try_catch
    (let! querySnapshot := getDocs env "customers" None in
     ret (with_id <$> querySnapshot))
    (fun error => do! console_error "Error getting customers:" in ret []).

(** ** Repairs *)

Definition addRepair (repair : JsObject) : M (option string) :=
  try_catch
    (let! date := new_Date_month env in
     let! random := Math_random env in
     let repair_id := make_repair_id date random in
     let repairData :=
       stamp "updatedAt"
         (stamp "created_date"
            (<["repair_id" := JString repair_id]> repair)) in
     let validation := validateRepair repairData in
     if negb (valid validation) then
       throw (Error (validation_message validation))
     else
       let! docRef := addDoc env "repairs" repairData in
       ret (Some docRef))
    (fun error => do! console_error "Error adding repair:" in ret None).

Definition updateRepair (repairId : string) (repair : JsObject) : M bool :=
  try_catch
    (let! repairDoc := getDoc env "repairs" repairId in
     match repairDoc with
     | None => throw (Error "Repair not found")
     | Some _ =>
         let updatedData := stamp "updatedAt" repair in
         do! updateDoc env "repairs" repairId updatedData in
         ret true
     end)
    (fun error => do! console_error "Error updating repair:" in ret false).

Definition getRepairs : M (list JsObject) :=
  try_catch
    (let! querySnapshot := getDocs env "repairs" None in
     ret (with_id <$> querySnapshot))
    (fun error => do! console_error "Error getting repairs:" in ret []).

Definition getRepairsByStatus (status : jsstring) : M (list JsObject) :=
  try_catch
    (let q := Some ("status", QString status) in
     let! querySnapshot := getDocs env "repairs" q in
     ret (with_id <$> querySnapshot))
    (fun error =>
       do! console_error "Error getting repairs by status:" in ret []).

Definition getRepairsByCustomerId (customerId : jsstring)
  : M (list JsObject) :=
  try_catch
    (let q := Some ("customer_id", QString customerId) in
     let! querySnapshot := getDocs env "repairs" q in
     ret (with_id <$> querySnapshot))
    (fun error =>
       do! console_error "Error getting repairs by customer ID:" in ret []).

(** ** Products *)

Definition addProduct (product : JsObject) : M (option string) :=
  try_catch
    (let! random := Math_random env in
     let product_id := make_product_id random in
     let productData :=
       stamp "updatedAt"
         (stamp "createdAt"
            (<["product_id" := JString product_id]> product)) in
     let validation := validateProduct productData in
     if negb (valid validation) then
       throw (Error (validation_message validation))
     else
       let! docRef := addDoc env "products" productData in
       ret (Some docRef))
    (fun error => do! console_error "Error adding product:" in ret None).

Definition updateProduct (productId : string) (product : JsObject)
  : M bool :=
  try_catch
    (let! productDoc := getDoc env "products" productId in
     match productDoc with
     | None => throw (Error "Product not found")
     | Some _ =>
         let updatedData := stamp "updatedAt" product in
         do! updateDoc env "products" productId updatedData in
         ret true
     end)
    (fun error => do! console_error "Error updating product:" in ret false).

Definition getProducts : M (list JsObject) :=
  try_catch
    (let! querySnapshot := getDocs env "products" None in
     ret (with_id <$> querySnapshot))
    (fun error => do! console_error "Error getting products:" in ret []).

Definition getProductsByCategory (category : jsstring)
  : M (list JsObject) :=
  try_catch
    (let q := Some ("category", QString category) in
     let! querySnapshot := getDocs env "products" q in
     ret (with_id <$> querySnapshot))
    (fun error =>
       do! console_error "Error getting products by category:" in ret []).

(** ** Technicians *)

Definition addTechnician (technician : JsObject) : M (option string) :=
  try_catch
    (let! random := Math_random env in
     let tech_id := make_tech_id random in
     let technicianData :=
       stamp "updatedAt"
         (stamp "createdAt"
            (<["tech_id" := JString tech_id]> technician)) in
     let validation := validateTechnician ToString_other technicianData in
     if negb (valid validation) then
       throw (Error (validation_message validation))
     else
       let! docRef := addDoc env "technicians" technicianData in
       ret (Some docRef))
    (fun error => do! console_error "Error adding technician:" in ret None).

Definition updateTechnician (technicianId : string) (technician : JsObject)
  : M bool :=
  try_catch
    (let! technicianDoc := getDoc env "technicians" technicianId in
     match technicianDoc with
     | None => throw (Error "Technician not found")
     | Some _ =>
         let updatedData := stamp "updatedAt" technician in
         do! updateDoc env "technicians" technicianId updatedData in
         ret true
     end)
    (fun error =>
       do! console_error "Error updating technician:" in ret false).

Definition getTechnicians : M (list JsObject) :=
  try_catch
    (let! querySnapshot := getDocs env "technicians" None in
     ret (with_id <$> querySnapshot))
    (fun error => do! console_error "Error getting technicians:" in ret []).

Definition getAvailableTechnicians : M (list JsObject) :=
  try_catch
    (let q := Some ("availability", QBool true) in
     let! querySnapshot := getDocs env "technicians" q in
     ret (with_id <$> querySnapshot))
    (fun error =>
       do! console_error "Error getting available technicians:" in ret []).

End Repositories.

(* ===================================================================== *)
(** * 8. Data-fetch hooks                                                  *)
(* ===================================================================== *)

Module Hooks.

(** The three pieces of component state a hook returns. *)
Record HookState : Type := mkHook {
  data : list JsObject;
  loading : bool;
  error : option Exn
}.

(** [useState([])], [useState(true)], [useState(null)] *)
Definition initial : HookState :=
  {| data := []; loading := true; error := None |}.

Definition setData (d : list JsObject) (st : HookState) : HookState :=
  {| data := d; loading := loading st; error := error st |}.
Definition setLoading (b : bool) (st : HookState) : HookState :=
  {| data := data st; loading := b; error := error st |}.
Definition setError (e : option Exn) (st : HookState) : HookState :=
  {| data := data st; loading := loading st; error := e |}.

(** The body shared by every [fetch...] function of the hooks:
    [try { setLoading(true); const data = await repo(); setData(data);
    setError(null); } catch (err) { setError(err); } finally {
    setLoading(false); }].  Every thrown value of the model is an
    [Error] instance, so the [instanceof] test keeps it. *)
Definition fetch (repo : M (list JsObject)) (st : HookState) (w : World)
  : HookState * World :=
  let st := setLoading true st in
  match repo w with
  | (Returned d, w') => (setLoading false (setError None (setData d st)), w')
  | (Threw err, w') => (setLoading false (setError (Some err) st), w')
  end.

(** [useEffect(effect, [dep])]: the effect runs after the first render
    and after every render in which the dependency differs from the one
    of the previous render. *)
Definition deps_changed (previous : option jsstring) (dep : jsstring)
  : bool :=
  match previous with
  | None => true
  | Some p => negb (bool_decide (p = dep))
  end.

Definition useEffect
    (effect : jsstring -> HookState -> World -> HookState * World)
    (previous : option jsstring) (dep : jsstring)
    (st : HookState) (w : World) : HookState * World :=
  if deps_changed previous dep then effect dep st w else (st, w).

Section Effects.

Variable env : Env.

(** Effect of [useRepairsByStatus(status)]: [fetchRepairsByStatus();] *)
Definition useRepairsByStatus_effect (status : jsstring)
  : HookState -> World -> HookState * World :=
  fetch (getRepairsByStatus env status).

(** Effect of [useRepairsByCustomerId(customerId)]:
    [if (customerId) fetch...(); else { setRepairs([]);
    setLoading(false); }] *)
Definition useRepairsByCustomerId_effect (customerId : jsstring)
  : HookState -> World -> HookState * World :=
  fun st w =>
    if truthy (JString customerId)
    then fetch (getRepairsByCustomerId env customerId) st w
    else (setLoading false (setData [] st), w).

(** Effect of [useProductsByCategory(category)] *)
Definition useProductsByCategory_effect (category : jsstring)
  : HookState -> World -> HookState * World :=
  fun st w =>
    if truthy (JString category)
    then fetch (getProductsByCategory env category) st w
    else (setLoading false (setData [] st), w).

Definition useRepairsByStatus := useEffect useRepairsByStatus_effect.
Definition useRepairsByCustomerId := useEffect useRepairsByCustomerId_effect.
Definition useProductsByCategory := useEffect useProductsByCategory_effect.

End Effects.

End Hooks.

(* ===================================================================== *)
(** * 9. Facts about strings and regular expressions                       *)
(* ===================================================================== *)

(* --------------------------------------------------------------------- *)
(** ** Facts about trimming                                               *)
(* --------------------------------------------------------------------- *)

(** A string is blank when every code unit is white space (the empty
    string included). *)
Definition blank (s : jsstring) : bool := forallb is_white_space s.

Lemma trimStart_nil_iff s : trimStart s = [] <-> blank s = true.
Proof.
  induction s as [|c s IH]; simpl; [tauto|].
  destruct (is_white_space c); simpl; [exact IH|].
  split; discriminate.
Qed.

Lemma blank_trimStart s : blank (trimStart s) = true -> blank s = true.
Proof.
  induction s as [|c s IH]; simpl; [auto|].
  destruct (is_white_space c) eqn:E; simpl; [exact IH|].
  rewrite E. discriminate.
Qed.

Lemma blank_rev s : blank (rev s) = blank s.
Proof.
  unfold blank. induction s as [|c s IH]; simpl; [reflexivity|].
  rewrite forallb_app, IH. simpl. rewrite andb_true_r. apply andb_comm.
Qed.

Lemma trimStart_blank s : blank s = true -> trimStart s = [].
Proof. apply trimStart_nil_iff. Qed.

Lemma trim_nil_iff s : trim s = [] <-> blank s = true.
Proof.
  unfold trim, trimEnd. split.
  - intros H. apply (f_equal (@rev N)) in H. rewrite rev_involutive in H.
    simpl in H. apply trimStart_nil_iff in H. rewrite blank_rev in H.
    now apply blank_trimStart.
  - intros H. destruct (trimStart s) eqn:E; [reflexivity|].
    apply trimStart_blank in H. congruence.
Qed.

Lemma validateRequired_string s :
  validateRequired (JString s) = negb (blank s).
Proof.
  simpl. destruct (blank s) eqn:E.
  - apply trim_nil_iff in E. now rewrite E.
  - destruct (trim s) eqn:T; [|reflexivity].
    apply trim_nil_iff in T. congruence.
Qed.

Lemma nullable_spec r : nullable r = true <-> lang r [].
Proof.
  induction r; simpl.
  - split; [discriminate | inversion 1].
  - split; [constructor | reflexivity].
  - split; [discriminate | inversion 1].
  - rewrite andb_true_iff, IHr1, IHr2. split.
    + intros [H1 H2]. exact (lang_seq _ _ [] [] H1 H2).
    + inversion 1 as [| |? ? s1 s2 H1 H2 Hr Hs| | | |]; subst.
      apply app_eq_nil in Hs as [-> ->]. auto.
  - rewrite orb_true_iff, IHr1, IHr2. split.
    + intros [H|H]; [now apply lang_alt_l | now apply lang_alt_r].
    + inversion 1; subst; auto.
  - split; [constructor | reflexivity].
Qed.

(** A non-empty word of [Star r] starts with a non-empty word of [r]. *)
Lemma lang_star_uncons r0 s0 :
  lang r0 s0 ->
  forall r c s, r0 = Star r -> s0 = c :: s ->
  exists s1 s2, s = s1 ++ s2 /\ lang r (c :: s1) /\ lang (Star r) s2.
Proof.
  induction 1 as [| | | | | |r' s1 s2 H1 _ H2 IH2]; intros q a t Er Es;
    try discriminate.
  injection Er as ->.
  destruct s1 as [|c1 s1]; simpl in Es.
  - eapply IH2; eauto.
  - injection Es as -> <-. exists s1, s2. auto.
Qed.

Lemma deriv_spec c r : forall s, lang (deriv c r) s <-> lang r (c :: s).
Proof.
  induction r as [| |p|r1 IH1 r2 IH2|r1 IH1 r2 IH2|r IH]; intros s; simpl.
  - split; inversion 1.
  - split; inversion 1.
  - destruct (p c) eqn:E; split; intros H; inversion H; subst.
    + now constructor.
    + constructor.
    + congruence.
  - assert (Hseq : lang (Seq (deriv c r1) r2) s ->
                   lang (Seq r1 r2) (c :: s)).
    { inversion 1 as [| |? ? s1 s2 H1 H2| | | |]; subst.
      apply IH1 in H1. exact (lang_seq _ _ (c :: s1) s2 H1 H2). }
    assert (Hinv : lang (Seq r1 r2) (c :: s) ->
                   lang (Seq (deriv c r1) r2) s \/
                   (lang r1 [] /\ lang r2 (c :: s))).
    { inversion 1 as [| |? ? s1 s2 H1 H2 Hr Hs| | | |]; subst.
      destruct s1 as [|c1 s1]; simpl in Hs.
      - subst s2. right. auto.
      - injection Hs as -> <-. left. constructor; [now apply IH1 | auto]. }
    destruct (nullable r1) eqn:N.
    + split.
      * inversion 1; subst; [auto|].
        apply nullable_spec in N.
        match goal with H : lang (deriv c r2) s |- _ => apply IH2 in H;
          exact (lang_seq _ _ [] (c :: s) N H) end.
      * intros H. destruct (Hinv H) as [H'|[_ H']].
        -- now apply lang_alt_l.
        -- apply lang_alt_r. now apply IH2.
    + split; [exact Hseq|].
      intros H. destruct (Hinv H) as [H'|[H' _]]; [exact H'|].
      apply nullable_spec in H'. congruence.
  - split; inversion 1; subst.
    + apply lang_alt_l. now apply IH1.
    + apply lang_alt_r. now apply IH2.
    + apply lang_alt_l. now apply IH1.
    + apply lang_alt_r. now apply IH2.
  - split.
    + inversion 1 as [| |? ? s1 s2 H1 H2| | | |]; subst.
      apply IH in H1. exact (lang_star_cons _ (c :: s1) s2 H1 H2).
    + intros H.
      destruct (lang_star_uncons _ _ H r c s eq_refl eq_refl)
        as (s1 & s2 & -> & H1 & H2).
      constructor; [now apply IH | exact H2].
Qed.

Theorem full_match_spec s : forall r, full_match r s = true <-> lang r s.
Proof.
  induction s as [|c s IH]; intros r; simpl.
  - apply nullable_spec.
  - rewrite IH. apply deriv_spec.
Qed.

(** Words of [p*] and [p+] for a character class [p]. *)
Lemma lang_star_class p s : lang (Star (Class p)) s <-> forallb p s = true.
Proof.
  split.
  - remember (Star (Class p)) as r eqn:Er. intros H. revert Er.
    induction H as [| | | | | |r' s1 s2 H1 _ H2 IH2]; intros Er;
      try discriminate; [reflexivity|].
    injection Er as ->. inversion H1; subst. simpl.
    rewrite IH2 by reflexivity. now rewrite andb_true_r.
  - induction s as [|c s IH]; simpl; [constructor|].
    rewrite andb_true_iff. intros [Hc Hs].
    apply (lang_star_cons _ [c] s); [now constructor | auto].
Qed.

Lemma lang_plus_class p s :
  lang (Plus (Class p)) s <-> s <> [] /\ forallb p s = true.
Proof.
  unfold Plus. split.
  - inversion 1 as [| |? ? s1 s2 H1 H2| | | |]; subst.
    inversion H1; subst. apply lang_star_class in H2. simpl.
    split; [discriminate|]. rewrite H2. now rewrite andb_true_r.
  - intros [Hne H]. destruct s as [|c s]; [congruence|].
    simpl in H. apply andb_true_iff in H as [Hc Hs].
    apply (lang_seq _ _ [c] s); [now constructor|].
    now apply lang_star_class.
Qed.


Lemma lang_is_char k s : lang (Class (is_char k)) s <-> s = [k].
Proof.
  split.
  - inversion 1; subst. unfold is_char in *.
    match goal with H : (_ =? _)%N = true |- _ => apply N.eqb_eq in H end.
    now subst.
  - intros ->. constructor. apply N.eqb_refl.
Qed.

Theorem validateEmail_spec s :
  validateEmail s = true <-> user_at_domain_tld s.
Proof.
  unfold validateEmail, test_anchored. rewrite full_match_spec.
  unfold emailRegex, user_at_domain_tld, part_ok. split.
  - inversion 1 as [| |? ? u r1 Hu H1| | | |]; subst.
    inversion H1 as [| |? ? a r2 Ha H2| | | |]; subst.
    inversion H2 as [| |? ? d r3 Hd H3| | | |]; subst.
    inversion H3 as [| |? ? o t Ho Ht| | | |]; subst.
    apply lang_is_char in Ha, Ho. subst.
    apply lang_plus_class in Hu, Hd, Ht.
    exists u, d, t. auto.
  - intros (u & d & t & -> & Hu & Hd & Ht).
    apply lang_plus_class in Hu, Hd, Ht.
    repeat (apply lang_seq; auto); now apply lang_is_char.
Qed.

(* ===================================================================== *)
(** * 10. Typed view of a customer record                                   *)
(* ===================================================================== *)

Module Customer.

(** [interface Customer]: the declared fields with their declared types.
    [email] is the optional one (the forms leave it empty, a stored
    document may lack it); a field that is missing reads as
    [undefined]. *)
Record Customer : Type := mkCustomer {
  name : jsstring;
  phone : jsstring;
  email : option jsstring;
  address : jsstring;
  createdAt : option Timestamp;
  updatedAt : option Timestamp
}.

Definition set_optional (k : string) (v : option JsValue) (o : JsObject)
  : JsObject :=
  match v with
  | Some x => <[k := x]> o
  | None => o
  end.

(** The object that holds the record. *)
Definition to_object (c : Customer) : JsObject :=
  set_optional "updatedAt" (JTimestamp <$> updatedAt c)
    (set_optional "createdAt" (JTimestamp <$> createdAt c)
       (set_optional "email" (JString <$> email c)
          (<["address" := JString (address c)]>
             (<["phone" := JString (phone c)]>
                (<["name" := JString (name c)]> ∅))))).

(** The email is present when the field holds a non-empty string. *)
Definition email_present (c : Customer) : bool :=
  match email c with
  | Some (_ :: _) => true
  | _ => false
  end.

Definition email_text (c : Customer) : jsstring := default [] (email c).

End Customer.

(* ===================================================================== *)
(** * 11. Properties of the validation utilities                           *)
(* ===================================================================== *)

Lemma validateRequired_false_inv v :
  validateRequired v = false ->
  v = JUndefined \/ v = JNull \/ exists s, v = JString s /\ trim s = [].
Proof.
  destruct v; simpl; try discriminate; auto.
  intros H. right; right. exists s. split; [reflexivity|].
  destruct (trim s); [reflexivity | discriminate].
Qed.

(** C10: the required-field predicate rejects exactly [undefined], [null]
    and the strings that are empty once trimmed; in particular the number
    [0], [false] and the empty array are accepted. *)
Theorem validateRequired_rejects_exactly (v : JsValue) :
  (validateRequired v = false <->
     v = JUndefined \/ v = JNull \/
     exists s, v = JString s /\ trim s = [])
  /\ validateRequired (JNumber zero) = true
  /\ validateRequired (JBool false) = true
  /\ validateRequired (JArray []) = true.
Proof.
  split; [|repeat split].
  split; [apply validateRequired_false_inv|].
  intros [->|[->|(s & -> & H)]]; simpl; try reflexivity.
  now rewrite H.
Qed.

(** Values of any other type are accepted whatever they hold. *)
Lemma validateRequired_non_string v :
  v <> JUndefined -> v <> JNull -> typeof v <> TString ->
  validateRequired v = true.
Proof. destruct v; simpl; congruence. Qed.

(** Field reads on the object of a customer record. *)
Lemma get_customer_name c :
  get (Customer.to_object c) "name" = JString (Customer.name c).
Proof.
  unfold get, Customer.to_object, Customer.set_optional.
  destruct c as [n p [e|] a [t1|] [t2|]]; simpl; by simplify_map_eq.
Qed.

Lemma get_customer_phone c :
  get (Customer.to_object c) "phone" = JString (Customer.phone c).
Proof.
  unfold get, Customer.to_object, Customer.set_optional.
  destruct c as [n p [e|] a [t1|] [t2|]]; simpl; by simplify_map_eq.
Qed.

Lemma get_customer_email c :
  get (Customer.to_object c) "email"
  = from_option JString JUndefined (Customer.email c).
Proof.
  unfold get, Customer.to_object, Customer.set_optional.
  destruct c as [n p [e|] a [t1|] [t2|]]; simpl; by simplify_map_eq.
Qed.

(** The error list of [validateCustomer], rule by rule. *)
Lemma validateCustomer_errors ts o :
  errors (validateCustomer ts o)
  = (if validateRequired (get o "name") then [] else ["Name is required"])
    ++ (if validateRequired (get o "phone") then []
        else ["Phone is required"])
    ++ (if truthy (get o "email")
           && negb (validateEmail (ToString ts (get o "email")))
        then ["Email format is invalid"] else []).
Proof.
  unfold validateCustomer, finish, push_unless; simpl.
  destruct (validateRequired (get o "name")),
           (validateRequired (get o "phone")),
           (truthy (get o "email")
            && negb (validateEmail (ToString ts (get o "email"))));
    reflexivity.
Qed.

Lemma validateCustomer_valid ts o :
  valid (validateCustomer ts o)
  = validateRequired (get o "name")
    && validateRequired (get o "phone")
    && negb (truthy (get o "email")
             && negb (validateEmail (ToString ts (get o "email")))).
Proof.
  unfold validateCustomer, finish, push_unless; simpl.
  destruct (validateRequired (get o "name")),
           (validateRequired (get o "phone")),
           (truthy (get o "email")
            && negb (validateEmail (ToString ts (get o "email"))));
    reflexivity.
Qed.

(** C5: a customer record is rejected exactly when its name is blank, or
    its phone is blank, or its email is present and is not of the shape
    [user@domain.tld]; and the error list holds one entry per failed
    rule, every rule being evaluated whatever the others gave. *)
Theorem validateCustomer_rejects_exactly
    (ts : JsValue -> jsstring) (c : Customer.Customer) :
  let v := validateCustomer ts (Customer.to_object c) in
  let bad_email :=
    Customer.email_present c
    && negb (validateEmail (Customer.email_text c)) in
  (valid v = false <->
     blank (Customer.name c) = true
     \/ blank (Customer.phone c) = true
     \/ (Customer.email_present c = true
         /\ ~ user_at_domain_tld (Customer.email_text c)))
  /\ errors v
     = (if blank (Customer.name c) then ["Name is required"] else [])
       ++ (if blank (Customer.phone c) then ["Phone is required"] else [])
       ++ (if bad_email then ["Email format is invalid"] else []).
Proof.
  intros v bad_email.
  assert (Hmail :
    truthy (get (Customer.to_object c) "email")
    && negb (validateEmail (ToString ts (get (Customer.to_object c) "email")))
    = bad_email).
  { rewrite get_customer_email. unfold bad_email, Customer.email_present,
      Customer.email_text.
    destruct (Customer.email c) as [[|a e]|]; reflexivity. }
  split.
  - unfold v. rewrite validateCustomer_valid, Hmail, get_customer_name,
      get_customer_phone, !validateRequired_string.
    unfold bad_email. rewrite <- validateEmail_spec.
    destruct (blank (Customer.name c)), (blank (Customer.phone c)),
      (Customer.email_present c),
      (validateEmail (Customer.email_text c)); simpl;
      intuition congruence.
  - unfold v. rewrite validateCustomer_errors, Hmail, get_customer_name,
      get_customer_phone, !validateRequired_string.
    destruct (blank (Customer.name c)), (blank (Customer.phone c));
      reflexivity.
Qed.

Lemma validateTechnician_errors ts o :
  errors (validateTechnician ts o)
  = (if validateRequired (get o "name") then [] else ["Name is required"])
    ++ (if validateRequired (get o "phone") then []
        else ["Phone is required"])
    ++ (if negb (isArray (get o "specialization"))
           || Nat.eqb (array_length (get o "specialization")) 0
        then ["At least one specialization is required"] else [])
    ++ (if truthy (get o "email")
           && negb (validateEmail (ToString ts (get o "email")))
        then ["Email format is invalid"] else [])
    ++ (if JsType_eqb (typeof (get o "availability")) TBoolean then []
        else ["Availability must be a boolean value"]).
Proof.
  unfold validateTechnician, finish, push_unless; simpl.
  destruct (validateRequired (get o "name")),
           (validateRequired (get o "phone")),
           (negb (isArray (get o "specialization"))
            || Nat.eqb (array_length (get o "specialization")) 0),
           (truthy (get o "email")
            && negb (validateEmail (ToString ts (get o "email")))),
           (JsType_eqb (typeof (get o "availability")) TBoolean);
    reflexivity.
Qed.

Lemma valid_errors_nil (errs : list string) :
  valid (finish errs) = true <-> errs = [].
Proof.
  unfold finish; simpl. destruct errs; simpl; split; congruence.
Qed.

(** C8: when the email field of a customer or of a technician is the
    empty string, the error list has no ["Email format is invalid"]
    entry, and the record is valid exactly when its other rules pass. *)
Theorem empty_email_never_fails
    (ts : JsValue -> jsstring) (o : JsObject)
    (Hemail : o !! "email" = Some (JString [])) :
  (("Email format is invalid" ∉ errors (validateCustomer ts o))
   /\ valid (validateCustomer ts o)
      = validateRequired (get o "name") && validateRequired (get o "phone"))
  /\ (("Email format is invalid" ∉ errors (validateTechnician ts o))
      /\ valid (validateTechnician ts o)
         = validateRequired (get o "name")
           && validateRequired (get o "phone")
           && negb (negb (isArray (get o "specialization"))
                    || Nat.eqb (array_length (get o "specialization")) 0)
           && JsType_eqb (typeof (get o "availability")) TBoolean).
Proof.
  assert (He : get o "email" = JString []) by (unfold get; now rewrite Hemail).
  split; split.
  - rewrite validateCustomer_errors, He. simpl.
    destruct (validateRequired (get o "name")),
             (validateRequired (get o "phone")); simpl;
      rewrite ?elem_of_cons, ?elem_of_nil; intuition discriminate.
  - rewrite validateCustomer_valid, He. simpl. now rewrite andb_true_r.
  - rewrite validateTechnician_errors, He. simpl.
    destruct (validateRequired (get o "name")),
             (validateRequired (get o "phone")),
             (negb (isArray (get o "specialization"))
              || Nat.eqb (array_length (get o "specialization")) 0),
             (JsType_eqb (typeof (get o "availability")) TBoolean); simpl;
      rewrite ?elem_of_cons, ?elem_of_nil; intuition discriminate.
  - unfold validateTechnician, finish, push_unless. rewrite He. simpl.
    destruct (validateRequired (get o "name")),
             (validateRequired (get o "phone")),
             (negb (isArray (get o "specialization"))
              || Nat.eqb (array_length (get o "specialization")) 0),
             (JsType_eqb (typeof (get o "availability")) TBoolean);
      reflexivity.
Qed.

(** A contact as the client form submits it with the email left empty. *)
Definition contact_without_email : JsObject :=
  <["email" := JString []]>
    (<["address" := JString []]>
       (<["phone" := JString (lit "555-789-1234")]>
          (<["name" := JString (lit "Mike Wilson")]> ∅))).

Lemma empty_email_never_fails_witness :
  contact_without_email !! "email" = Some (JString [])
  /\ "Email format is invalid"
     ∉ errors (validateCustomer (fun _ => []) contact_without_email).
Proof.
  assert (H : contact_without_email !! "email" = Some (JString []))
    by (vm_compute; reflexivity).
  split; [exact H|].
  exact (proj1 (proj1 (empty_email_never_fails (fun _ => [])
                         contact_without_email H))).
Defined.

(* ===================================================================== *)
(** * 12. Properties of the queries                                        *)
(* ===================================================================== *)

(** The sub-sequence of a listing whose [field] equals [q]. *)
Definition select (field : string) (q : QueryValue) (l : list JsObject)
  : list JsObject :=
  filter (fun d => field_equals q (get d field) = true) l.

Lemma get_with_id d field :
  field <> "id" -> get (with_id d) field = get d.2 field.
Proof.
  intros Hne. unfold get, with_id, spread.
  rewrite lookup_union.
  rewrite (lookup_singleton_ne "id" field) by congruence.
  now destruct (d.2 !! field).
Qed.

Lemma passes_get field q doc :
  passes (Some (field, q)) doc = field_equals q (get doc field).
Proof.
  unfold passes, get. destruct (doc !! field); simpl; [reflexivity|].
  now destruct q.
Qed.

Lemma select_with_id field q (docs : list (string * JsObject)) :
  field <> "id" ->
  with_id <$> filter (fun d => passes (Some (field, q)) d.2 = true) docs
  = select field q (with_id <$> docs).
Proof.
  intros Hne. unfold select.
  induction docs as [|d docs IH]; [reflexivity|].
  rewrite fmap_cons, !filter_cons.
  rewrite get_with_id by exact Hne. rewrite <- passes_get.
  destruct (decide (passes (Some (field, q)) d.2 = true));
    rewrite ?fmap_cons, IH; reflexivity.
Qed.

Lemma filter_all (docs : list (string * JsObject)) :
  filter (fun d => passes None d.2 = true) docs = docs.
Proof.
  induction docs as [|d docs IH]; [reflexivity|].
  rewrite filter_cons, IH. destruct (decide _) as [_|Hn]; [reflexivity|].
  now destruct Hn.
Qed.

(** What the primitive requests do, by whether the service rejects. *)
Lemma getDocs_run env coll flt w :
  getDocs env coll flt w
  = (if rejects env (tick w) then Threw (FirestoreError "unavailable")
     else Returned (filter (fun d => passes flt d.2 = true)
                           (map_to_list (collection w coll))),
     sent (ReqGetDocs coll flt) w).
Proof.
  unfold getDocs, bind, send. now destruct (rejects env (tick w)).
Qed.

(** What a listing and a query return. *)
Lemma listing_result env coll msg w :
  (try_catch
     (let! querySnapshot := getDocs env coll None in
      ret (with_id <$> querySnapshot))
     (fun _ => do! console_error msg in ret []) w).1
  = if rejects env (tick w) then Returned []
    else Returned (with_id <$> map_to_list (collection w coll)).
Proof.
  unfold try_catch, bind. rewrite getDocs_run.
  destruct (rejects env (tick w)); [reflexivity|].
  now rewrite filter_all.
Qed.

Lemma query_result env coll field q msg w :
  field <> "id" ->
  (try_catch
     (let! querySnapshot := getDocs env coll (Some (field, q)) in
      ret (with_id <$> querySnapshot))
     (fun _ => do! console_error msg in ret []) w).1
  = if rejects env (tick w) then Returned []
    else Returned
           (select field q (with_id <$> map_to_list (collection w coll))).
Proof.
  intros Hne. unfold try_catch, bind. rewrite getDocs_run.
  destruct (rejects env (tick w)); [reflexivity|].
  now rewrite select_with_id.
Qed.

(** The selection is empty exactly when no document of the listing has
    the value. *)
Lemma select_nil_iff field q l :
  select field q l = [] <->
  Forall (fun d => field_equals q (get d field) = false) l.
Proof.
  unfold select. induction l as [|d l IH]; [split; auto|].
  rewrite filter_cons, Forall_cons.
  destruct (decide (field_equals q (get d field) = true)) as [Hd|Hd].
  - split; [discriminate|]. intros [Hf _]. congruence.
  - rewrite IH. apply not_true_is_false in Hd. tauto.
Qed.

(** The store's comparison holds exactly when the stored value is the
    value asked for. *)
Lemma field_equals_string s v :
  field_equals (QString s) v = true <-> v = JString s.
Proof.
  destruct v; simpl; try (split; [discriminate|discriminate]).
  rewrite bool_decide_eq_true. split; congruence.
Qed.

Lemma field_equals_bool b v :
  field_equals (QBool b) v = true <-> v = JBool b.
Proof.
  destruct v as [| |c| | | | |]; simpl; try (split; [discriminate|discriminate]).
  destruct b, c; simpl; split; congruence.
Qed.

(** Whether a value is a given string, or a given boolean. *)
#[global] Instance is_JString_dec (v : JsValue) (s : jsstring) :
  Decision (v = JString s).
Proof.
  destruct v as [| | | |t| | |]; try (right; discriminate).
  destruct (decide (t = s)) as [->|Hne]; [left; reflexivity|].
  right; congruence.
Defined.

#[global] Instance is_JBool_dec (v : JsValue) (b : bool) :
  Decision (v = JBool b).
Proof.
  destruct v as [| |c| | | | |]; try (right; discriminate).
  destruct (decide (c = b)) as [->|Hne]; [left; reflexivity|].
  right; congruence.
Defined.

Lemma select_string field s l :
  select field (QString s) l = filter (fun d => get d field = JString s) l.
Proof.
  unfold select. apply list_filter_iff. intros d. apply field_equals_string.
Qed.

Lemma select_bool field b l :
  select field (QBool b) l = filter (fun d => get d field = JBool b) l.
Proof.
  unfold select. apply list_filter_iff. intros d. apply field_equals_bool.
Qed.

Lemma filter_none {A} (P : A -> Prop) `{!forall x, Decision (P x)}
    (l : list A) :
  Forall (fun x => ~ P x) l -> filter P l = [].
Proof.
  induction 1 as [|x l Hx _ IH]; [reflexivity|].
  now rewrite filter_cons_False.
Qed.

(** C6: run against the same store, every query-by-field returns exactly
    the documents of the corresponding listing whose field is the value
    asked for (the string, or [true] for availability), in the order of
    the listing; hence the empty sequence when no document of the listing
    has the value.  It returns the empty sequence when the service rejects
    the request. *)
Theorem queryByField_is_filtered_list
    (env : Env) (w : World) (status customerId category : jsstring) :
  if rejects env (tick w) then
    (getRepairsByStatus env status w).1 = Returned []
    /\ (getRepairsByCustomerId env customerId w).1 = Returned []
    /\ (getProductsByCategory env category w).1 = Returned []
    /\ (getAvailableTechnicians env w).1 = Returned []
  else
    exists repairs products technicians,
      (getRepairs env w).1 = Returned repairs
      /\ (getProducts env w).1 = Returned products
      /\ (getTechnicians env w).1 = Returned technicians
      /\ (getRepairsByStatus env status w).1
         = Returned
             (filter (fun d => get d "status" = JString status) repairs)
      /\ (getRepairsByCustomerId env customerId w).1
         = Returned
             (filter (fun d => get d "customer_id" = JString customerId)
                     repairs)
      /\ (getProductsByCategory env category w).1
         = Returned
             (filter (fun d => get d "category" = JString category)
                     products)
      /\ (getAvailableTechnicians env w).1
         = Returned
             (filter (fun d => get d "availability" = JBool true)
                     technicians)
      /\ (Forall (fun d => get d "status" <> JString status) repairs ->
            (getRepairsByStatus env status w).1 = Returned [])
      /\ (Forall (fun d => get d "customer_id" <> JString customerId)
                 repairs ->
            (getRepairsByCustomerId env customerId w).1 = Returned [])
      /\ (Forall (fun d => get d "category" <> JString category) products ->
            (getProductsByCategory env category w).1 = Returned [])
      /\ (Forall (fun d => get d "availability" <> JBool true)
                 technicians ->
            (getAvailableTechnicians env w).1 = Returned []).
Proof.
  unfold getRepairsByStatus, getRepairsByCustomerId, getProductsByCategory,
    getAvailableTechnicians, getRepairs, getProducts, getTechnicians.
  rewrite !listing_result, !query_result by discriminate.
  destruct (rejects env (tick w)); [auto|].
  rewrite !select_string, select_bool.
  do 3 eexists.
  repeat (split; [reflexivity|]).
  repeat split; intros Hnone; f_equal; now apply filter_none.
Qed.

(** Every selected document has the value, and every document of the
    listing that has it is selected. *)
Lemma elem_of_select field q l d :
  d ∈ select field q l <-> d ∈ l /\ field_equals q (get d field) = true.
Proof. unfold select. rewrite list_elem_of_filter. tauto. Qed.

(* ===================================================================== *)
(** * 13. Running the requests                                             *)
(* ===================================================================== *)

Lemma collection_sent r w coll : collection (sent r w) coll = collection w coll.
Proof. reflexivity. Qed.

Lemma collection_logged l w coll :
  collection (logged l w) coll = collection w coll.
Proof. reflexivity. Qed.

Lemma collection_drew w coll : collection (drew w) coll = collection w coll.
Proof. reflexivity. Qed.

Lemma collection_stored coll id doc w coll' :
  collection (stored coll id doc w) coll'
  = if decide (coll = coll') then <[id := doc]> (collection w coll)
    else collection w coll'.
Proof.
  unfold collection at 1, stored; simpl.
  destruct (decide (coll = coll')) as [->|Hne].
  - now rewrite lookup_insert_eq.
  - now rewrite lookup_insert_ne.
Qed.

Lemma getDoc_run env coll id w :
  getDoc env coll id w
  = (if rejects env (tick w) then Threw (FirestoreError "unavailable")
     else Returned (collection w coll !! id),
     sent (ReqGetDoc coll id) w).
Proof.
  unfold getDoc, bind, send. now destruct (rejects env (tick w)).
Qed.

Lemma updateDoc_run env coll id data w :
  updateDoc env coll id data w
  = let w' := sent (ReqUpdateDoc coll id data) w in
    if rejects env (tick w)
    then (Threw (FirestoreError "unavailable"), w')
    else match collection w coll !! id with
         | None => (Threw (FirestoreError "not-found"), w')
         | Some old =>
             (Returned tt,
              stored coll id (resolve (serverTime env (tick w)) data ∪ old)
                     w')
         end.
Proof.
  unfold updateDoc, bind, send, throw, put.
  destruct (rejects env (tick w)); [reflexivity|].
  rewrite collection_sent. now destruct (collection w coll !! id).
Qed.

Lemma addDoc_run env coll data w :
  addDoc env coll data w
  = let w' := sent (ReqAddDoc coll data) w in
    let id := autoId (idEntropy env (tick w)) in
    if rejects env (tick w)
    then (Threw (FirestoreError "unavailable"), w')
    else match collection w coll !! id with
         | Some _ => (Threw (FirestoreError "already-exists"), w')
         | None =>
             (Returned id,
              stored coll id (resolve (serverTime env (tick w)) data) w')
         end.
Proof.
  unfold addDoc, bind, send, throw, put, ret.
  destruct (rejects env (tick w)); [reflexivity|].
  rewrite collection_sent.
  now destruct (collection w coll !! autoId (idEntropy env (tick w))).
Qed.

(** The update that [updateRepair], [updateProduct] and
    [updateTechnician] share: read, then write the stamped payload. *)
Definition plain_update (env : Env) (coll notFound line : string)
    (id : string) (payload : JsObject) : M bool :=
  try_catch
    (let! snapshot := getDoc env coll id in
     match snapshot with
     | None => throw (Error notFound)
     | Some _ =>
         let updatedData := stamp "updatedAt" payload in
         do! updateDoc env coll id updatedData in
         ret true
     end)
    (fun error => do! console_error line in ret false).

Lemma updateRepair_plain env :
  updateRepair env
  = plain_update env "repairs" "Repair not found" "Error updating repair:".
Proof. reflexivity. Qed.

Lemma updateProduct_plain env :
  updateProduct env
  = plain_update env "products" "Product not found"
                 "Error updating product:".
Proof. reflexivity. Qed.

Lemma updateTechnician_plain env :
  updateTechnician env
  = plain_update env "technicians" "Technician not found"
                 "Error updating technician:".
Proof. reflexivity. Qed.

Lemma plain_update_run env coll notFound line id payload w :
  plain_update env coll notFound line id payload w
  = let w1 := sent (ReqGetDoc coll id) w in
    let data := stamp "updatedAt" payload in
    let w2 := sent (ReqUpdateDoc coll id data) w1 in
    if rejects env (tick w) then (Returned false, logged line w1)
    else match collection w coll !! id with
         | None => (Returned false, logged line w1)
         | Some old =>
             if rejects env (S (tick w)) then (Returned false, logged line w2)
             else (Returned true,
                   stored coll id
                     (resolve (serverTime env (S (tick w))) data ∪ old) w2)
         end.
Proof.
  unfold plain_update, try_catch, bind. rewrite getDoc_run.
  destruct (rejects env (tick w)); [reflexivity|].
  destruct (collection w coll !! id) as [old|] eqn:E; [|reflexivity].
  rewrite updateDoc_run. cbn zeta. rewrite collection_sent, E.
  change (tick (sent (ReqGetDoc coll id) w)) with (S (tick w)).
  now destruct (rejects env (S (tick w))).
Qed.

Lemma updateCustomer_run ts env id payload w :
  updateCustomer ts env id payload w
  = let line := "Error updating customer:" in
    let w1 := sent (ReqGetDoc "customers" id) w in
    if rejects env (tick w) then (Returned false, logged line w1)
    else match collection w "customers" !! id with
         | None => (Returned false, logged line w1)
         | Some old =>
             let data := stamp "updatedAt" (spread old payload) in
             let w2 := sent (ReqUpdateDoc "customers" id data) w1 in
             if negb (valid (validateCustomer ts data))
             then (Returned false, logged line w1)
             else if rejects env (S (tick w))
             then (Returned false, logged line w2)
             else (Returned true,
                   stored "customers" id
                     (resolve (serverTime env (S (tick w))) data ∪ old) w2)
         end.
Proof.
  unfold updateCustomer, try_catch, bind. rewrite getDoc_run.
  destruct (rejects env (tick w)); [reflexivity|].
  destruct (collection w "customers" !! id) as [old|] eqn:E; [|reflexivity].
  cbn zeta.
  destruct (valid (validateCustomer ts (stamp "updatedAt" (spread old payload))));
    [|reflexivity].
  cbn [negb]. rewrite updateDoc_run. cbn zeta. rewrite collection_sent, E.
  change (tick (sent (ReqGetDoc "customers" id) w)) with (S (tick w)).
  now destruct (rejects env (S (tick w))).
Qed.

(* ===================================================================== *)
(** * 14. What an update leaves alone                                      *)
(* ===================================================================== *)

(** The four entities, their collections, their creation-timestamp field
    and their update function. *)
Inductive Entity : Type := Customers | Repairs | Products | Technicians.

Definition collection_of (e : Entity) : string :=
  match e with
  | Customers => "customers"
  | Repairs => "repairs"
  | Products => "products"
  | Technicians => "technicians"
  end.

Definition creation_field (e : Entity) : string :=
  match e with
  | Repairs => "created_date"
  | Customers | Products | Technicians => "createdAt"
  end.

Definition update_of (ts : JsValue -> jsstring) (env : Env) (e : Entity)
  : string -> JsObject -> M bool :=
  match e with
  | Customers => updateCustomer ts env
  | Repairs => updateRepair env
  | Products => updateProduct env
  | Technicians => updateTechnician env
  end.

(** A stored document holds resolved timestamps, never the
    [serverTimestamp()] sentinel. *)
Definition is_sentinel (v : JsValue) : bool :=
  match v with JServerTimestamp => true | _ => false end.

Definition no_sentinel (doc : JsObject) : Prop :=
  map_Forall (fun _ v => is_sentinel v = false) doc.

Definition store_ok (w : World) : Prop :=
  forall coll id doc, collection w coll !! id = Some doc -> no_sentinel doc.


Lemma resolve_value_id t v : is_sentinel v = false -> resolve_value t v = v.
Proof. destruct v; simpl; congruence. Qed.



(** Writing a resolved document keeps the store free of sentinels. *)
Lemma store_ok_stored coll id doc w :
  store_ok w -> no_sentinel doc -> store_ok (stored coll id doc w).
Proof.
  intros Hw Hd coll' id' doc'. rewrite collection_stored.
  destruct (decide (coll = coll')) as [->|Hne]; [|apply Hw].
  rewrite lookup_insert. destruct (decide (id = id')).
  - intros [= <-]. exact Hd.
  - apply Hw.
Qed.

(** Fields of the document that a merge of [data] leaves as they were. *)
Lemma merge_frame t (payload old : JsObject) k :
  payload !! k = None -> k <> "updatedAt" ->
  (resolve t (stamp "updatedAt" payload) ∪ old) !! k = old !! k.
Proof.
  intros Hk Hne. apply lookup_union_r. unfold resolve, stamp.
  assert (Hne' : "updatedAt" <> k) by congruence.
  rewrite lookup_fmap, lookup_insert_ne by exact Hne'. now rewrite Hk.
Qed.

Lemma merge_frame_full t (payload old : JsObject) k :
  no_sentinel old ->
  payload !! k = None -> k <> "updatedAt" ->
  (resolve t (stamp "updatedAt" (spread old payload)) ∪ old) !! k = old !! k.
Proof.
  intros Hold Hk Hne.
  assert (Hne' : "updatedAt" <> k) by congruence.
  assert (Hw : resolve t (stamp "updatedAt" (spread old payload)) !! k
               = resolve_value t <$> old !! k).
  { unfold resolve, stamp, spread.
    rewrite lookup_fmap, lookup_insert_ne by exact Hne'.
    now rewrite (lookup_union_r payload old k Hk). }
  destruct (old !! k) as [v|] eqn:E.
  - rewrite lookup_union_l' by (rewrite Hw; simpl; eauto).
    rewrite Hw. simpl. f_equal. apply resolve_value_id. exact (Hold k v E).
  - rewrite lookup_union_r by (now rewrite Hw). exact E.
Qed.

(** The document under [id] after an update, given the one before. *)
Lemma plain_update_document env coll notFound line id payload w old :
  collection w coll !! id = Some old ->
  collection (plain_update env coll notFound line id payload w).2 coll !! id
  = Some old
  \/ exists t,
       collection (plain_update env coll notFound line id payload w).2 coll
         !! id
       = Some (resolve t (stamp "updatedAt" payload) ∪ old).
Proof.
  intros Hold. rewrite plain_update_run. cbn zeta. rewrite Hold.
  destruct (rejects env (tick w)); [left; exact Hold|].
  destruct (rejects env (S (tick w))); [left; exact Hold|].
  right. exists (serverTime env (S (tick w))). cbn [snd].
  rewrite collection_stored, decide_True by reflexivity.
  apply lookup_insert_eq.
Qed.

Lemma updateCustomer_document ts env id payload w old :
  collection w "customers" !! id = Some old ->
  collection (updateCustomer ts env id payload w).2 "customers" !! id
  = Some old
  \/ exists t,
       collection (updateCustomer ts env id payload w).2 "customers" !! id
       = Some (resolve t (stamp "updatedAt" (spread old payload)) ∪ old).
Proof.
  intros Hold. rewrite updateCustomer_run. cbn zeta. rewrite Hold.
  destruct (rejects env (tick w)); [left; exact Hold|].
  destruct (valid (validateCustomer ts _)); [|left; exact Hold].
  cbn [negb].
  destruct (rejects env (S (tick w))); [left; exact Hold|].
  right. exists (serverTime env (S (tick w))). cbn [snd].
  rewrite collection_stored, decide_True by reflexivity.
  apply lookup_insert_eq.
Qed.

(** C9: an update whose payload has no creation-timestamp field leaves
    the stored creation timestamp as it was; every field that the payload
    does not name, other than [updatedAt], keeps its value. *)
Theorem update_keeps_creation_timestamp
    (ts : JsValue -> jsstring) (env : Env) (e : Entity)
    (id : string) (payload : JsObject) (w : World) (old : JsObject)
    (Hexists : collection w (collection_of e) !! id = Some old)
    (Hstored : no_sentinel old)
    (Hpayload : payload !! creation_field e = None) :
  exists new,
    collection (update_of ts env e id payload w).2 (collection_of e) !! id
    = Some new
    /\ new !! creation_field e = old !! creation_field e
    /\ forall k, payload !! k = None -> k <> "updatedAt" ->
                 new !! k = old !! k.
Proof.
  assert (Hc : creation_field e <> "updatedAt") by (destruct e; discriminate).
  assert (Hplain : forall new,
    (new = old \/ exists t, new = resolve t (stamp "updatedAt" payload) ∪ old)
    -> new !! creation_field e = old !! creation_field e
       /\ forall k, payload !! k = None -> k <> "updatedAt" ->
                    new !! k = old !! k).
  { intros new [->|[t ->]]; [auto|].
    split; [now apply merge_frame|]. intros k. apply merge_frame. }
  destruct e; simpl update_of; simpl collection_of in *.
  - destruct (updateCustomer_document ts env id payload w old Hexists)
      as [H|[t H]]; rewrite H; eexists; (split; [reflexivity|]); [auto|].
    split; [now apply merge_frame_full|].
    intros k. now apply merge_frame_full.
  - rewrite updateRepair_plain.
    destruct (plain_update_document env _ "Repair not found"
                "Error updating repair:" id payload w old Hexists)
      as [H|[t H]]; rewrite H; eexists; (split; [reflexivity|]);
      apply Hplain; eauto.
  - rewrite updateProduct_plain.
    destruct (plain_update_document env _ "Product not found"
                "Error updating product:" id payload w old Hexists)
      as [H|[t H]]; rewrite H; eexists; (split; [reflexivity|]);
      apply Hplain; eauto.
  - rewrite updateTechnician_plain.
    destruct (plain_update_document env _ "Technician not found"
                "Error updating technician:" id payload w old Hexists)
      as [H|[t H]]; rewrite H; eexists; (split; [reflexivity|]);
      apply Hplain; eauto.
Qed.




(* --------------------------------------------------------------------- *)
(** ** A sample store                                                     *)
(* --------------------------------------------------------------------- *)

(** A service that accepts every request. *)
Definition quiet_env : Env :=
  {| rejects := fun _ => false;
     serverTime := fun n => (1700000000 + N.of_nat n)%N;
     idEntropy := fun t i => t + i;
     randomDraw := fun _ => (2 ^ 52)%N;
     currentMonth := fun _ => November |}.

(** [149.99] is not needed to the last bit: the cost is the double [150]. *)
Definition cost_150 : spec_float := S754_finite false 5277655813324800%positive (-45)%Z.
Definition cost_minus_5 : spec_float :=
  S754_finite true 5629499534213120%positive (-50)%Z.

Definition john_doe : JsObject :=
  <["updatedAt" := JTimestamp 1699999000%N]>
    (<["createdAt" := JTimestamp 1699999000%N]>
       (<["address" := JString (lit "123 Main St, Anytown, USA")]>
          (<["email" := JString (lit "john.doe@example.com")]>
             (<["phone" := JString (lit "123-456-7890")]>
                (<["name" := JString (lit "John Doe")]> ∅))))).

Definition iphone_repair : JsObject :=
  <["tasks" := JArray [JString (lit "Screen Replacement");
                       JString (lit "Battery Replacement")]]>
    (<["cost" := JNumber cost_150]>
       (<["status" := JString (lit "in-progress")]>
          (<["issue_description" := JString (lit "Cracked screen")]>
             (<["model" := JString (lit "iPhone 13")]>
                (<["brand" := JString (lit "Apple")]>
                   (<["device_type" := JString (lit "Mobile Phone")]>
                      (<["customer_id" := JString (lit "c1")]> ∅))))))).

Definition stored_repair : JsObject :=
  <["updatedAt" := JTimestamp 1699999500%N]>
    (<["created_date" := JTimestamp 1699999500%N]>
       (<["repair_id" := JString (lit "nov4821")]> iphone_repair)).

Definition seeded_world : World :=
  {| db := <["repairs" := {[ "r1" := stored_repair ]}]>
             {[ "customers" := {[ "c1" := john_doe ]} ]};
     tick := 0; requests := []; console := [] |}.

Lemma update_keeps_creation_timestamp_witness :
  exists new,
    collection
      (updateCustomer (fun _ => []) quiet_env "c1"
         {[ "phone" := JString (lit "555-000-1111") ]} seeded_world).2
      "customers" !! "c1" = Some new
    /\ new !! "createdAt" = Some (JTimestamp 1699999000%N).
Proof.
  assert (Hexists : collection seeded_world (collection_of Customers) !! "c1"
                    = Some john_doe) by (vm_compute; reflexivity).
  assert (Hstored : no_sentinel john_doe).
  { unfold no_sentinel, john_doe.
    repeat (apply map_Forall_insert_2; [reflexivity|]).
    apply map_Forall_empty. }
  assert (Hpayload :
    ({[ "phone" := JString (lit "555-000-1111") ]} : JsObject)
      !! creation_field Customers = None) by (vm_compute; reflexivity).
  destruct (update_keeps_creation_timestamp (fun _ => []) quiet_env Customers
              "c1" _ seeded_world john_doe Hexists Hstored Hpayload)
    as (new & Hnew & Hcreated & _).
  exists new. split; [exact Hnew|].
  etrans; [exact Hcreated | vm_compute; reflexivity].
Defined.

(* ===================================================================== *)
(** * 15. Secondary identifiers: format                                    *)
(* ===================================================================== *)

Lemma two53_value : two53 = 9007199254740992%N.
Proof. reflexivity. Qed.

Lemma numerator_lt draw : (numerator draw < two53)%N.
Proof. unfold numerator. apply N.mod_lt. discriminate. Qed.

(** ** Rounding to the nearest double

    [SFmul] and [SFadd] round their exact result to 53 bits.  Values are
    compared as integers, scaled by [2^200]. *)

Section Rounding.

Local Open Scope Z_scope.

(** [digits2_pos] is the number of binary digits. *)
Lemma digits2_pos_bounds p :
  2 ^ (Zpos (digits2_pos p) - 1) <= Zpos p < 2 ^ Zpos (digits2_pos p).
Proof.
  induction p as [p IH|p IH|]; cbn [digits2_pos].
  - rewrite Pos2Z.inj_succ.
    replace (Z.succ (Zpos (digits2_pos p)) - 1)
      with (Z.succ (Zpos (digits2_pos p) - 1)) by lia.
    rewrite !Z.pow_succ_r by lia. lia.
  - rewrite Pos2Z.inj_succ.
    replace (Z.succ (Zpos (digits2_pos p)) - 1)
      with (Z.succ (Zpos (digits2_pos p) - 1)) by lia.
    rewrite !Z.pow_succ_r by lia. lia.
  - cbn. lia.
Qed.

(** The shift of [SpecFloat] is an iteration of [shr_1]. *)
Lemma iter_pos_nat {A} (f : A -> A) p :
  forall x, SpecFloat.iter_pos f p x = Nat.iter (Pos.to_nat p) f x.
Proof.
  induction p as [p IH|p IH|]; intros x; cbn [SpecFloat.iter_pos].
  - rewrite !IH, Pos2Nat.inj_xI.
    replace (S (2 * Pos.to_nat p))
      with (Pos.to_nat p + (Pos.to_nat p + 1))%nat by lia.
    now rewrite !Nat.iter_add.
  - rewrite !IH, Pos2Nat.inj_xO.
    replace (2 * Pos.to_nat p)%nat
      with (Pos.to_nat p + Pos.to_nat p)%nat by lia.
    now rewrite Nat.iter_add.
  - reflexivity.
Qed.

(** One step of the shift halves the mantissa and moves its last bit into
    the round bit. *)
Lemma shr_1_spec mrs :
  0 <= shr_m mrs ->
  shr_m (shr_1 mrs) = shr_m mrs / 2 /\ shr_r (shr_1 mrs) = Z.odd (shr_m mrs).
Proof.
  destruct mrs as [m r s]. cbn [shr_m]. intros Hm.
  destruct m as [|[p|p|]|p]; try lia; cbn [shr_1 shr_m shr_r];
    rewrite <- Z.div2_div; split; reflexivity.
Qed.

(** After [k] steps the mantissa is divided by [2^k] and the round bit is
    the last bit shifted out. *)
Lemma shr_nat_spec (k : nat) mrs :
  0 <= shr_m mrs ->
  shr_m (Nat.iter k shr_1 mrs) = shr_m mrs / 2 ^ Z.of_nat k
  /\ (forall j, k = S j ->
        shr_r (Nat.iter k shr_1 mrs) = Z.odd (shr_m mrs / 2 ^ Z.of_nat j)).
Proof.
  intros Hm. induction k as [|k [IHm IHr]].
  - cbn. split; [now rewrite Z.div_1_r | discriminate].
  - rewrite !Nat.iter_succ.
    assert (Hk : 0 <= shr_m (Nat.iter k shr_1 mrs)).
    { rewrite IHm. apply Z.div_pos; [assumption|]. apply Z.pow_pos_nonneg; lia. }
    destruct (shr_1_spec _ Hk) as [H1 H2]. split.
    + rewrite H1, IHm, Nat2Z.inj_succ, Z.pow_succ_r by lia.
      rewrite Z.div_div by (try apply Z.pow_pos_nonneg; lia).
      f_equal. lia.
    + intros j [= <-]. now rewrite H2, IHm.
Qed.

(** The value [m * 2^e], scaled by [2^200]: an integer for [e >= -200]. *)
Definition scaled (m e : Z) : Z := m * 2 ^ (e + 200).

(** [x] is a positive double of exponent at least [lo] that lies on the
    same side as the scaled value [v] of every multiple of [2^g]: a
    rounding of [v] that crosses no such multiple. *)
Definition rounds (v g lo : Z) (x : spec_float) : Prop :=
  exists m e, x = S754_finite false m e /\ lo <= e
    /\ forall T, (2 ^ (g + 200) | T) ->
         (T <= v -> T <= scaled (Zpos m) e)
         /\ (v <= T -> scaled (Zpos m) e <= T).

(** Away from the subnormal range a double keeps 53 digits. *)
Lemma fexp_normal e : -1021 <= e -> fexp 53 1024 e = e - 53.
Proof. unfold fexp, emin. lia. Qed.

Lemma pow2_pos n : 0 <= n -> 0 < 2 ^ n.
Proof. intros. apply Z.pow_pos_nonneg; lia. Qed.

(** A mantissa of at most 53 digits is kept as it is. *)
Lemma shr_fexp_small mant E :
  -200 <= E -> Zpos mant < 2 ^ 53 ->
  shr_fexp 53 1024 (Zpos mant) E loc_Exact
  = (Build_shr_record (Zpos mant) false false, E).
Proof.
  intros HE HM. unfold shr_fexp, Zdigits2.
  pose proof (digits2_pos_bounds mant) as [Blo _].
  assert (Hd : Zpos (digits2_pos mant) <= 53).
  { destruct (Z_le_gt_dec (Zpos (digits2_pos mant)) 53) as [|Hgt]; [assumption|].
    assert (2 ^ 53 <= 2 ^ (Zpos (digits2_pos mant) - 1))
      by (apply Z.pow_le_mono_r; lia). lia. }
  rewrite fexp_normal by lia.
  cbn [shr_record_of_loc]. unfold shr.
  destruct (Zpos (digits2_pos mant) + E - 53 - E) eqn:Hs; try reflexivity. lia.
Qed.

(** A longer mantissa is shifted down to 53 digits. *)
Lemma shr_fexp_large mant E :
  -200 <= E -> 2 ^ 53 <= Zpos mant ->
  exists mrs,
    shr_fexp 53 1024 (Zpos mant) E loc_Exact
    = (mrs, E + (Zpos (digits2_pos mant) - 53))
    /\ shr_m mrs = Zpos mant / 2 ^ (Zpos (digits2_pos mant) - 53)
    /\ shr_r mrs = Z.odd (Zpos mant / 2 ^ (Zpos (digits2_pos mant) - 53 - 1)).
Proof.
  intros HE HM. unfold shr_fexp, Zdigits2.
  pose proof (digits2_pos_bounds mant) as [_ Bhi].
  assert (Hd : 53 < Zpos (digits2_pos mant)).
  { destruct (Z_lt_le_dec 53 (Zpos (digits2_pos mant))) as [|Hle]; [assumption|].
    assert (2 ^ Zpos (digits2_pos mant) <= 2 ^ 53)
      by (apply Z.pow_le_mono_r; lia). lia. }
  rewrite fexp_normal by lia.
  cbn [shr_record_of_loc]. unfold shr.
  replace (Zpos (digits2_pos mant) + E - 53 - E)
    with (Zpos (digits2_pos mant) - 53) by lia.
  destruct (Zpos (digits2_pos mant) - 53) as [|k|k] eqn:Hk; try lia.
  rewrite iter_pos_nat.
  destruct (shr_nat_spec (Pos.to_nat k)
              (Build_shr_record (Zpos mant) false false)) as [H1 H2];
    [cbn; lia|].
  eexists. split; [reflexivity|]. split.
  - rewrite H1. cbn [shr_m]. now rewrite positive_nat_Z.
  - destruct (Pos2Nat.is_succ k) as [j Hj]. rewrite (H2 j Hj). cbn [shr_m].
    do 2 f_equal. f_equal. lia.
Qed.

(** Rounding to nearest, ties to even, keeps the mantissa or adds one to
    it, and keeps it when the round bit is clear. *)
Lemma round_nearest_even_spec mrs :
  let m' := round_nearest_even (shr_m mrs) (loc_of_shr_record mrs) in
  shr_m mrs <= m' <= shr_m mrs + 1
  /\ (shr_r mrs = false -> m' = shr_m mrs).
Proof.
  destruct mrs as [m [|] [|]]; cbn; try destruct (Z.even m); lia.
Qed.

(** A value that fits in 53 digits is not rounded. *)
Lemma binary_round_aux_small mant E :
  -200 <= E <= 900 -> Zpos mant < 2 ^ 53 ->
  binary_round_aux 53 1024 false (Zpos mant) E loc_Exact = S754_finite false mant E.
Proof.
  intros HE HM. unfold binary_round_aux. rewrite shr_fexp_small by lia.
  cbn [shr_m loc_of_shr_record round_nearest_even].
  rewrite shr_fexp_small by lia. cbn [shr_m].
  destruct (Z.leb_spec E (1024 - 53)); [reflexivity|lia].
Qed.

(** The mantissa kept after the shift, rounded, and renormalised when the
    rounding carries into a 54th bit. *)
Lemma binary_round_aux_large mant E :
  -200 <= E -> 2 ^ 53 <= Zpos mant ->
  let k := Zpos (digits2_pos mant) - 53 in
  E + k <= 900 ->
  exists m e m1,
    binary_round_aux 53 1024 false (Zpos mant) E loc_Exact = S754_finite false m e
    /\ E + k <= e
    /\ Zpos m * 2 ^ (e - (E + k)) = m1
    /\ Zpos mant / 2 ^ k <= m1 <= Zpos mant / 2 ^ k + 1
    /\ (Z.odd (Zpos mant / 2 ^ (k - 1)) = false -> m1 = Zpos mant / 2 ^ k).
Proof.
  intros HE HM k Hk.
  destruct (shr_fexp_large mant E HE HM) as (mrs & Hs & Hm & Hr).
  fold k in Hs, Hm, Hr.
  pose proof (digits2_pos_bounds mant) as [Blo Bhi].
  assert (Hk0 : 0 < k).
  { unfold k. destruct (Z_lt_le_dec 53 (Zpos (digits2_pos mant))) as [|Hle]; [lia|].
    assert (2 ^ Zpos (digits2_pos mant) <= 2 ^ 53)
      by (apply Z.pow_le_mono_r; lia). lia. }
  assert (Hq : 2 ^ 52 <= Zpos mant / 2 ^ k < 2 ^ 53).
  { split.
    - apply Z.div_le_lower_bound; [apply pow2_pos; lia|].
      rewrite <- Z.pow_add_r by lia.
      replace (k + 52) with (Zpos (digits2_pos mant) - 1) by (unfold k; lia).
      assumption.
    - apply Z.div_lt_upper_bound; [apply pow2_pos; lia|].
      rewrite <- Z.pow_add_r by lia.
      replace (k + 53) with (Zpos (digits2_pos mant)) by (unfold k; lia).
      assumption. }
  pose proof (round_nearest_even_spec mrs) as [Hb Hdown]. cbn zeta in Hb, Hdown.
  rewrite Hm in Hb, Hdown. rewrite Hr in Hdown.
  unfold binary_round_aux. rewrite Hs, Hm.
  set (m1 := round_nearest_even (Zpos mant / 2 ^ k) (loc_of_shr_record mrs)) in *.
  destruct m1 as [|p1|p1] eqn:Hm1; try lia.
  destruct (Z_lt_le_dec (Zpos p1) (2 ^ 53)) as [Hlt|Hge].
  - rewrite shr_fexp_small by lia. cbn [shr_m].
    destruct (Z.leb_spec (E + k) (1024 - 53)); [|lia].
    exists p1, (E + k), (Zpos p1).
    split; [reflexivity|]. split; [lia|].
    split; [rewrite Z.sub_diag, Z.pow_0_r; lia|]. split; [lia|exact Hdown].
  - assert (Hp1 : p1 = 9007199254740992%positive).
    { assert (Zpos p1 = 2 ^ 53) by lia. apply Pos2Z.inj. now rewrite H. }
    subst p1.
    destruct (shr_fexp_large 9007199254740992 (E + k)) as (mrs2 & Hs2 & Hm2 & _);
      [lia|cbn; lia|].
    rewrite Hs2, Hm2.
    change (Zpos 9007199254740992 / 2 ^ (Zpos (digits2_pos 9007199254740992) - 53))
      with (Zpos 4503599627370496).
    change (Zpos (digits2_pos 9007199254740992) - 53) with 1.
    destruct (Z.leb_spec (E + k + 1) (1024 - 53)); [|lia].
    exists 4503599627370496%positive, (E + k + 1), (Zpos 9007199254740992).
    split; [reflexivity|]. split; [lia|].
    split; [replace (E + k + 1 - (E + k)) with 1 by lia; reflexivity|].
    split; [lia|exact Hdown].
Qed.

(** A bound on the value bounds the number of digits shifted out. *)
Lemma digits_le_of_scaled mant E G :
  -200 <= E -> E <= G -> scaled (Zpos mant) E < 2 ^ (G + 253) ->
  Zpos (digits2_pos mant) - 53 <= G - E.
Proof.
  intros HE HG Hv. unfold scaled in Hv.
  pose proof (digits2_pos_bounds mant) as [Blo _].
  assert (H : 2 ^ (Zpos (digits2_pos mant) - 1 + (E + 200)) < 2 ^ (G + 253)).
  { rewrite (Z.pow_add_r 2 (Zpos (digits2_pos mant) - 1) (E + 200)) by lia.
    eapply Z.le_lt_trans; [|exact Hv].
    apply Z.mul_le_mono_nonneg_r; [apply Z.pow_nonneg; lia|assumption]. }
  apply Z.pow_lt_mono_r_iff in H; lia.
Qed.

(** The rounding of [binary_round_aux] crosses no multiple of [2^G], for
    [G] at least the exponent the result is rounded to. *)
Lemma binary_round_aux_rounds mant E G :
  -200 <= E -> E <= G -> G <= 0 ->
  scaled (Zpos mant) E < 2 ^ (G + 253) ->
  rounds (scaled (Zpos mant) E) G E
         (binary_round_aux 53 1024 false (Zpos mant) E loc_Exact).
Proof.
  intros HE HG HG0 Hv.
  destruct (Z_lt_le_dec (Zpos mant) (2 ^ 53)) as [Hlt|Hge].
  - rewrite binary_round_aux_small by lia.
    exists mant, E. split; [reflexivity|]. split; [lia|]. intros T _. lia.
  - pose proof (digits_le_of_scaled mant E G HE HG Hv) as Hk.
    destruct (binary_round_aux_large mant E HE Hge)
      as (m & e & m1 & Heq & He & Hm1 & Hb & Hdown); [lia|].
    set (k := Zpos (digits2_pos mant) - 53) in *.
    assert (Hk0 : 0 < k).
    { unfold k. pose proof (digits2_pos_bounds mant) as [_ Bhi].
      destruct (Z_lt_le_dec 53 (Zpos (digits2_pos mant))) as [|Hle]; [lia|].
      assert (2 ^ Zpos (digits2_pos mant) <= 2 ^ 53)
        by (apply Z.pow_le_mono_r; lia). lia. }
    rewrite Heq. exists m, e. split; [reflexivity|]. split; [lia|].
    intros T [t Ht].
    pose proof (pow2_pos (E + 200) ltac:(lia)) as HU.
    pose proof (pow2_pos k ltac:(lia)) as HK.
    assert (Hs : scaled (Zpos m) e = m1 * 2 ^ k * 2 ^ (E + 200)).
    { unfold scaled. rewrite <- Hm1.
      replace (e + 200) with ((e - (E + k)) + (k + (E + 200))) by lia.
      rewrite !Z.pow_add_r by lia. ring. }
    assert (HT : T = t * 2 ^ (G - E - k) * 2 ^ k * 2 ^ (E + 200)).
    { rewrite Ht.
      replace (G + 200) with ((G - E - k) + (k + (E + 200))) by lia.
      rewrite !Z.pow_add_r by lia. ring. }
    rewrite Hs. unfold scaled. rewrite HT.
    set (t' := t * 2 ^ (G - E - k)).
    generalize dependent (2 ^ (E + 200)). intros U HU.
    split; intros H.
    + apply Z.mul_le_mono_pos_r in H; [|assumption].
      apply Z.mul_le_mono_pos_r; [assumption|].
      apply Z.mul_le_mono_pos_r; [assumption|].
      assert (t' <= Zpos mant / 2 ^ k) by (apply Z.div_le_lower_bound; lia).
      lia.
    + apply Z.mul_le_mono_pos_r in H; [|assumption].
      apply Z.mul_le_mono_pos_r; [assumption|].
      apply Z.mul_le_mono_pos_r; [assumption|].
      assert (Hqt : Zpos mant / 2 ^ k <= t').
      { apply Z.div_le_upper_bound; lia. }
      destruct (Z.eq_dec (Zpos mant / 2 ^ k) t') as [Heqt|Hne]; [|lia].
      rewrite Hdown; [lia|].
      assert (HMq : Zpos mant = 2 ^ k * t').
      { pose proof (Z.mul_div_le (Zpos mant) (2 ^ k) HK). lia. }
      assert (H2 : 2 ^ k = 2 * 2 ^ (k - 1)).
      { rewrite <- Z.pow_succ_r by lia. f_equal. lia. }
      replace (Zpos mant) with (2 * t' * 2 ^ (k - 1)) by (rewrite HMq, H2; ring).
      rewrite Z.div_mul by (apply Z.neq_sym, Z.lt_neq, pow2_pos; lia).
      now rewrite Z.odd_mul.
Qed.

(** Aligning a mantissa to a smaller exponent multiplies it by a power of
    two. *)
Lemma pos_iter_xO m d : Zpos (Pos.iter xO m d) = Zpos m * 2 ^ Zpos d.
Proof.
  induction d as [|d IH] using Pos.peano_ind.
  - cbn. lia.
  - rewrite Pos.iter_succ, Pos2Z.inj_xO, IH, Pos2Z.inj_succ, Z.pow_succ_r by lia.
    ring.
Qed.

Lemma shl_align_spec mx ex ex' :
  snd (shl_align mx ex ex') = Z.min ex ex'
  /\ Zpos (fst (shl_align mx ex ex')) = Zpos mx * 2 ^ (ex - Z.min ex ex').
Proof.
  unfold shl_align. destruct (ex' - ex) as [|d|d] eqn:Hd; cbn [fst snd].
  - replace (Z.min ex ex') with ex by lia. rewrite Z.sub_diag. cbn. lia.
  - replace (Z.min ex ex') with ex by lia. rewrite Z.sub_diag. cbn. lia.
  - replace (Z.min ex ex') with ex' by lia.
    rewrite pos_iter_xO. split; [reflexivity|]. do 2 f_equal. lia.
Qed.

(** The same for [binary_round], which first normalises a short mantissa. *)
Lemma binary_round_rounds sum e0 G :
  -148 <= e0 -> e0 <= G -> G <= 0 ->
  scaled (Zpos sum) e0 < 2 ^ (G + 253) ->
  rounds (scaled (Zpos sum) e0) G (e0 - 52) (binary_round 53 1024 false sum e0).
Proof.
  intros He0 HG HG0 Hv. unfold binary_round.
  pose proof (digits2_pos_bounds sum) as [Blo Bhi].
  rewrite fexp_normal by lia.
  pose proof (shl_align_spec sum e0 (Zpos (digits2_pos sum) + e0 - 53)) as [H1 H2].
  destruct (shl_align sum e0 (Zpos (digits2_pos sum) + e0 - 53)) as [mz ez].
  cbn [fst snd] in H1, H2.
  destruct (Z_lt_le_dec (Zpos (digits2_pos sum)) 53) as [Hlt|Hge].
  - replace (Z.min e0 (Zpos (digits2_pos sum) + e0 - 53))
      with (Zpos (digits2_pos sum) + e0 - 53) in * by lia.
    replace (e0 - (Zpos (digits2_pos sum) + e0 - 53))
      with (53 - Zpos (digits2_pos sum)) in H2 by lia.
    assert (Hmz : Zpos mz < 2 ^ 53).
    { rewrite H2.
      replace 53 with (Zpos (digits2_pos sum) + (53 - Zpos (digits2_pos sum)))
        at 2 by lia.
      rewrite Z.pow_add_r by lia.
      apply Z.mul_lt_mono_pos_r; [apply pow2_pos; lia|assumption]. }
    rewrite binary_round_aux_small by lia.
    exists mz, ez. split; [reflexivity|]. split; [lia|].
    assert (Hs : scaled (Zpos mz) ez = scaled (Zpos sum) e0).
    { unfold scaled. rewrite H2, H1, <- Z.mul_assoc, <- Z.pow_add_r by lia.
      do 2 f_equal. lia. }
    rewrite Hs. intros T _. lia.
  - replace (Z.min e0 (Zpos (digits2_pos sum) + e0 - 53)) with e0 in * by lia.
    rewrite Z.sub_diag in H2. rewrite Z.pow_0_r, Z.mul_1_r in H2.
    apply Pos2Z.inj in H2. subst mz ez.
    destruct (binary_round_aux_rounds sum e0 G) as (m & e & Heq & He & Hgrid);
      try lia.
    exists m, e. split; [assumption|]. split; [lia|assumption].
Qed.

(** [Math.floor] of a positive double, from its scaled value. *)
Lemma Math_floor_scaled m e :
  -200 <= e -> Math_floor (S754_finite false m e) = scaled (Zpos m) e / 2 ^ 200.
Proof.
  intros He. unfold Math_floor, scaled, cond_Zopp.
  destruct (Z_lt_le_dec e 0) as [Hneg|Hpos].
  - rewrite <- (Z.opp_involutive e) at 1.
    rewrite Z.shiftl_opp_r, Z.shiftr_div_pow2 by lia.
    replace (2 ^ 200) with (2 ^ (- e) * 2 ^ (e + 200))
      by (rewrite <- Z.pow_add_r by lia; f_equal; lia).
    rewrite Z.div_mul_cancel_r; try reflexivity;
      apply Z.neq_sym, Z.lt_neq, pow2_pos; lia.
  - rewrite Z.shiftl_mul_pow2, Z.pow_add_r, Z.mul_assoc, Z.div_mul by lia.
    reflexivity.
Qed.

(** A positive double below 1 has a negative exponent. *)
Lemma scaled_pos_exponent m e v :
  -200 <= e -> scaled (Zpos m) e = v -> v < 2 ^ 200 -> e < 0.
Proof.
  intros He Hs Hv. unfold scaled in Hs.
  destruct (Z_lt_le_dec e 0) as [|Hge]; [assumption|].
  assert (2 ^ 200 <= 2 ^ (e + 200)) by (apply Z.pow_le_mono_r; lia).
  pose proof (pow2_pos (e + 200) ltac:(lia)). nia.
Qed.

(** The number drawn, as a double: exact. *)
Lemma Math_random_value_scaled draw :
  (0 < numerator draw)%N ->
  exists m e,
    Math_random_value draw = S754_finite false m e
    /\ -105 <= e < 0
    /\ scaled (Zpos m) e = Z.of_N (numerator draw) * 2 ^ 147.
Proof.
  intros Hpos. pose proof (numerator_lt draw) as Hlt.
  rewrite two53_value in Hlt.
  unfold Math_random_value, binary64.
  destruct (numerator draw) as [|n]; [lia|]. cbn [Z.of_N binary_normalize].
  assert (Hv : scaled (Zpos n) (-53) = Zpos n * 2 ^ 147) by reflexivity.
  destruct (binary_round_rounds n (-53) (-53)) as (m & e & Heq & He & Hgrid);
    try lia.
  exists m, e. split; [assumption|].
  destruct (Hgrid (Zpos n * 2 ^ 147)) as [Hlo Hhi].
  { change (-53 + 200) with 147. apply Z.divide_factor_r. }
  rewrite Hv in Hlo, Hhi.
  assert (Hs : scaled (Zpos m) e = Zpos n * 2 ^ 147) by lia.
  split; [|assumption]. split; [lia|].
  apply (scaled_pos_exponent m e _ ltac:(lia) Hs).
  change (2 ^ 200) with (2 ^ 53 * 2 ^ 147). lia.
Qed.

(** Cancelling a power of two in a scaled value. *)
Lemma scaled_shift m e j v :
  0 <= j -> 0 <= e + 200 - j ->
  scaled m e = v * 2 ^ j -> m * 2 ^ (e + 200 - j) = v.
Proof.
  intros Hj He Hs. unfold scaled in Hs.
  replace (e + 200) with ((e + 200 - j) + j) in Hs by lia.
  rewrite Z.pow_add_r, Z.mul_assoc in Hs by lia.
  apply Z.mul_cancel_r in Hs; [assumption|].
  apply Z.neq_sym, Z.lt_neq, pow2_pos; lia.
Qed.

(** [Math.random() * 9000]: at most the double just below 9000, unless the
    draw is the largest one. *)
Lemma product_scaled draw :
  (0 < numerator draw < two53 - 1)%N ->
  exists m e,
    SFmul 53 1024 (Math_random_value draw) (binary64 9000 0)
    = S754_finite false m e
    /\ -144 <= e
    /\ scaled (Zpos m) e <= (9000 * 2 ^ 39 - 1) * 2 ^ 161.
Proof.
  intros [Hpos Hlt]. rewrite two53_value in Hlt.
  destruct (Math_random_value_scaled draw Hpos) as (mx & ex & -> & Hex & Hx).
  change (binary64 9000 0) with (S754_finite false 4947802324992000 (-39)).
  cbn [SFmul xorb].
  set (n := Z.of_N (numerator draw)) in *.
  assert (Hn : 0 < n <= 2 ^ 53 - 2) by (unfold n; lia).
  assert (Hv : scaled (Zpos (mx * 4947802324992000)) (ex + -39)
               = n * (9000 * 2 ^ 39) * 2 ^ 108).
  { unfold scaled. rewrite Pos2Z.inj_mul.
    replace (ex + -39 + 200) with (ex + 200 - 39) by lia.
    change (2 ^ 147) with (2 ^ 108 * 2 ^ 39) in Hx. rewrite Z.mul_assoc in Hx.
    apply scaled_shift in Hx; lia. }
  destruct (binary_round_aux_rounds (mx * 4947802324992000) (ex + -39) (-39))
    as (m & e & Heq & He & Hgrid); try lia.
  exists m, e. split; [assumption|]. split; [lia|].
  apply (Hgrid ((9000 * 2 ^ 39 - 1) * 2 ^ 161)).
  - change (-39 + 200) with 161. apply Z.divide_factor_r.
  - rewrite Hv. lia.
Qed.

(** [1000 + p] for a positive double [p] up to the double just below
    9000: between 1000 and the double just below 10000. *)
Lemma sum_scaled mp ep :
  -144 <= ep ->
  scaled (Zpos mp) ep <= (9000 * 2 ^ 39 - 1) * 2 ^ 161 ->
  exists m e,
    SFadd 53 1024 (binary64 1000 0) (S754_finite false mp ep)
    = S754_finite false m e
    /\ -200 <= e
    /\ 1000 * 2 ^ 200 <= scaled (Zpos m) e <= (10000 * 2 ^ 39 - 1) * 2 ^ 161.
Proof.
  intros Hep Hp.
  change (binary64 1000 0) with (S754_finite false 8796093022208000 (-43)).
  cbn [SFadd cond_Zopp]. set (ez := Z.min (-43) ep).
  pose proof (shl_align_spec 8796093022208000 (-43) ez) as [_ Ha].
  pose proof (shl_align_spec mp ep ez) as [_ Hb].
  replace (Z.min (-43) ez) with ez in Ha by lia.
  replace (Z.min ep ez) with ez in Hb by lia.
  set (a := fst (shl_align 8796093022208000 (-43) ez)) in *.
  set (b := fst (shl_align mp ep ez)) in *.
  change (Zpos a + Zpos b) with (Zpos (a + b)). cbn [binary_normalize].
  assert (Hv : scaled (Zpos (a + b)) ez
               = 1000 * 2 ^ 200 + scaled (Zpos mp) ep).
  { unfold scaled. rewrite Pos2Z.inj_add, Ha, Hb, Z.mul_add_distr_r.
    rewrite <- !Z.mul_assoc, <- !Z.pow_add_r by lia.
    replace (-43 - ez + (ez + 200)) with 157 by lia.
    replace (ep - ez + (ez + 200)) with (ep + 200) by lia.
    reflexivity. }
  assert (Hpos : 0 < scaled (Zpos mp) ep).
  { unfold scaled. apply Z.mul_pos_pos; [lia|apply pow2_pos; lia]. }
  destruct (binary_round_rounds (a + b) ez (-39))
    as (m & e & Heq & He & Hgrid); try lia.
  exists m, e. split; [assumption|]. split; [lia|]. split.
  - apply (Hgrid (1000 * 2 ^ 200)); [|lia].
    change (-39 + 200) with 161. exists (1000 * 2 ^ 39). reflexivity.
  - apply (Hgrid ((10000 * 2 ^ 39 - 1) * 2 ^ 161)); [|lia].
    change (-39 + 200) with 161. apply Z.divide_factor_r.
Qed.

(** [1000 <= randomNum <= 9999]. *)
Lemma randomNum_range draw :
  (1000 <= randomNum draw <= 9999)%N.
Proof.
  pose proof (numerator_lt draw) as Hlt. rewrite two53_value in Hlt.
  destruct (N.eq_dec (numerator draw) 0%N) as [H0|H0].
  { unfold randomNum, Math_random_value. rewrite H0. vm_compute.
    split; discriminate. }
  destruct (N.eq_dec (numerator draw) (two53 - 1)%N) as [H1|H1].
  { unfold randomNum, Math_random_value. rewrite H1. vm_compute.
    split; discriminate. }
  rewrite two53_value in H1.
  destruct (product_scaled draw) as (mp & ep & Hp & Hep & Hpv).
  { rewrite two53_value. lia. }
  destruct (sum_scaled mp ep Hep Hpv) as (m & e & Hs & He & Hlo & Hhi).
  unfold randomNum. rewrite Hp, Hs, Math_floor_scaled by assumption.
  assert (1000 <= scaled (Zpos m) e / 2 ^ 200 < 10000).
  { split.
    - apply Z.div_le_lower_bound; lia.
    - apply Z.div_lt_upper_bound; lia. }
  lia.
Qed.

End Rounding.

(** The rounding of the sum shows: for the draw [25019997929836 / 2^53]
    the program computes 1025, where [1000 + x * 9000] without rounding is
    just below 1025. *)
Lemma randomNum_rounded_sum :
  randomNum 25019997929836 = 1025%N
  /\ (1000 + (25019997929836 * 9000) / two53 = 1024)%N.
Proof. vm_compute. split; reflexivity. Qed.

Definition four_decimal_digits (s : jsstring) : bool :=
  Nat.eqb (length s) 4 && forallb is_decimal_digit s.

Lemma decimal_four_digits_table :
  forallb (fun k => four_decimal_digits (decimal (1000 + N.of_nat k)))
          (seq 0 (N.to_nat 9000)) = true.
Proof. vm_compute. reflexivity. Qed.

Lemma decimal_four_digits n :
  (1000 <= n <= 9999)%N -> four_decimal_digits (decimal n) = true.
Proof.
  intros Hn. pose proof decimal_four_digits_table as Ht.
  rewrite forallb_forall in Ht.
  specialize (Ht (N.to_nat (n - 1000))).
  replace (1000 + N.of_nat (N.to_nat (n - 1000)))%N with n in Ht by lia.
  apply Ht. apply in_seq. lia.
Qed.

Definition is_lower_letter (c : N) : bool := ((0x61 <=? c) && (c <=? 0x7A))%N.

Definition three_lower_letters (s : jsstring) : bool :=
  Nat.eqb (length s) 3 && forallb is_lower_letter s.

Lemma month_three_lower_letters m :
  three_lower_letters (toLowerCase (month_short m)) = true.
Proof. destruct m; vm_compute; reflexivity. Qed.

(** A repair id is the lower-cased three-letter month followed by the four
    decimal digits of an integer between 1000 and 9999. *)
Lemma make_repair_id_format m draw :
  exists month number,
    make_repair_id m draw = month ++ decimal number
    /\ month = toLowerCase (month_short m)
    /\ three_lower_letters month = true
    /\ (1000 <= number <= 9999)%N
    /\ four_decimal_digits (decimal number) = true.
Proof.
  exists (toLowerCase (month_short m)), (randomNum draw).
  pose proof (randomNum_range draw).
  repeat split; try lia; auto using month_three_lower_letters,
    decimal_four_digits.
Qed.

(** Digits of a radix-36 fraction are below 36. *)
Lemma fraction36_digits fuel : forall f,
  (f < two53)%N -> Forall (fun d => (d < 36)%N) (fraction36 fuel f).
Proof.
  induction fuel as [|fuel IH]; intros f Hf; simpl; [constructor|].
  destruct (f =? 0)%N; [constructor|].
  constructor.
  - apply N.Div0.div_lt_upper_bound. rewrite two53_value in *. lia.
  - apply IH. apply N.mod_lt. discriminate.
Qed.

Lemma digit36_upper_table :
  forallb (fun k => is_base36_upper (upper_unit (digit36 (N.of_nat k))))
          (seq 0 36) = true.
Proof. vm_compute. reflexivity. Qed.

Lemma digit36_upper d :
  (d < 36)%N -> is_base36_upper (upper_unit (digit36 d)) = true.
Proof.
  intros Hd. pose proof digit36_upper_table as Ht.
  rewrite forallb_forall in Ht. specialize (Ht (N.to_nat d)).
  rewrite N2Nat.id in Ht. apply Ht. apply in_seq. lia.
Qed.

(** The characters kept from a printed number are its first fraction
    digits, at most [n] of them. *)
Lemma suffix_of_digits n ds :
  toUpperCase (substring 2 (2 + n) (printed36 ds))
  = map (fun d => upper_unit (digit36 d)) (take n ds).
Proof.
  unfold printed36, toUpperCase, substring.
  replace (2 + n - 2) with n by lia.
  destruct ds as [|d ds].
  - simpl. now rewrite take_nil.
  - cbn [lit list_ascii_of_string map app drop].
    change (digit36 d :: map digit36 ds) with (map digit36 (d :: ds)).
    now rewrite firstn_map, map_map.
Qed.

Lemma suffix_of_printed n draw :
  toUpperCase (substring 2 (2 + n) (toString36 draw))
  = map (fun d => upper_unit (digit36 d))
        (take n (fraction36 27 (numerator draw))).
Proof. apply suffix_of_digits. Qed.

(** A product id is [PROD-] followed by at most eight characters of
    [0-9A-Z]: as many as the printed fraction has digits, up to eight. *)
Lemma make_product_id_format draw :
  exists suffix,
    make_product_id draw = lit "PROD-" ++ suffix
    /\ length suffix = Nat.min 8 (length (fraction36 27 (numerator draw)))
    /\ forallb is_base36_upper suffix = true.
Proof.
  unfold make_product_id, product_suffix.
  rewrite (suffix_of_printed 8). eexists. split; [reflexivity|]. split.
  - now rewrite length_map, length_take.
  - apply forallb_forall. intros c Hc. apply in_map_iff in Hc as (d & <- & Hd).
    apply digit36_upper.
    pose proof (fraction36_digits 27 _ (numerator_lt draw)) as Hall.
    rewrite List.Forall_forall in Hall. apply Hall.
    apply list_elem_of_In. apply list_elem_of_In in Hd.
    exact (subseteq_take _ _ _ Hd).
Qed.

Lemma make_tech_id_format draw :
  exists suffix,
    make_tech_id draw = lit "TECH-" ++ suffix
    /\ length suffix = Nat.min 6 (length (fraction36 27 (numerator draw)))
    /\ forallb is_base36_upper suffix = true.
Proof.
  unfold make_tech_id, technician_suffix.
  rewrite (suffix_of_printed 6). eexists. split; [reflexivity|]. split.
  - now rewrite length_map, length_take.
  - apply forallb_forall. intros c Hc. apply in_map_iff in Hc as (d & <- & Hd).
    apply digit36_upper.
    pose proof (fraction36_digits 27 _ (numerator_lt draw)) as Hall.
    rewrite List.Forall_forall in Hall. apply Hall.
    apply list_elem_of_In. apply list_elem_of_In in Hd.
    exact (subseteq_take _ _ _ Hd).
Qed.

(** C7 (where the code departs from it): when [Math.random()] returns
    [0.5], printed ["0.i"] in radix 36, the product id is ["PROD-I"] and
    the technician id is ["TECH-I"]: one character after the prefix, not
    eight or six.  The repair id of the same draw is well formed. *)
Theorem short_random_gives_short_ids :
  let half : N := (2 ^ 52)%N in
  toString36 half = lit "0.i"
  /\ make_product_id half = lit "PROD-I"
  /\ make_tech_id half = lit "TECH-I"
  /\ make_repair_id November half = lit "nov5500".
Proof. vm_compute. repeat split. Qed.

(* ===================================================================== *)
(** * 16. The repair validator                                             *)
(* ===================================================================== *)

Lemma get_insert_eq (o : JsObject) k v : get (<[k := v]> o) k = v.
Proof. unfold get. now rewrite lookup_insert_eq. Qed.

Lemma get_insert_ne (o : JsObject) k k' v :
  k <> k' -> get (<[k := v]> o) k' = get o k'.
Proof. intros H. unfold get. now rewrite lookup_insert_ne. Qed.

(** The rules [validateRepair] applies: five required fields, a cost that
    is a number [>= 0], a non-empty task array.  Nothing else. *)
Lemma validateRepair_valid o :
  valid (validateRepair o)
  = validateRequired (get o "customer_id")
    && validateRequired (get o "device_type")
    && validateRequired (get o "brand")
    && validateRequired (get o "model")
    && validateRequired (get o "status")
    && validatePositiveNumber (get o "cost")
    && (isArray (get o "tasks")
        && negb (Nat.eqb (array_length (get o "tasks")) 0)).
Proof.
  unfold validateRepair, finish, push_unless; simpl.
  destruct (validateRequired (get o "customer_id")),
           (validateRequired (get o "device_type")),
           (validateRequired (get o "brand")),
           (validateRequired (get o "model")),
           (validateRequired (get o "status")),
           (validatePositiveNumber (get o "cost")),
           (isArray (get o "tasks")),
           (Nat.eqb (array_length (get o "tasks")) 0);
    reflexivity.
Qed.

(** A number fails [validatePositiveNumber] when it is negative or NaN. *)
Lemma ge_zero_false x :
  ge_zero x = false <-> lt_zero x = true \/ x = S754_nan.
Proof.
  destruct x as [s|s| |s m e]; try destruct s; cbv; intuition congruence.
Qed.

(** Any two non-blank status strings are treated alike. *)
Lemma validateRepair_ignores_status_value o s s' :
  blank s = false -> blank s' = false ->
  validateRepair (<["status" := JString s]> o)
  = validateRepair (<["status" := JString s']> o).
Proof.
  intros Hs Hs'. unfold validateRepair.
  rewrite !get_insert_eq, !validateRequired_string, Hs, Hs'.
  now rewrite !(get_insert_ne _ "status") by discriminate.
Qed.

(** The values of [Repair.status] the interface and the security rules
    list. *)
Definition listed_statuses : list jsstring :=
  [lit "pending"; lit "in-progress"; lit "completed"].

Definition shipped_repair : JsObject :=
  <["status" := JString (lit "shipped")]> iphone_repair.

(** C1 (where the code departs from it): a repair whose status is the
    non-empty string ["shipped"], outside the three listed values, and
    whose other fields are in order, is accepted with no error. *)
Theorem validateRepair_accepts_unlisted_status :
  get shipped_repair "status" = JString (lit "shipped")
  /\ bool_decide (lit "shipped" ∈ listed_statuses) = false
  /\ validateRepair shipped_repair = {| valid := true; errors := [] |}.
Proof. vm_compute. repeat split. Qed.

(* ===================================================================== *)
(** * 17. Adding a record                                                  *)
(* ===================================================================== *)

(** The merged records the four [add] functions validate and write. *)
Definition customerData (customer : JsObject) : JsObject :=
  stamp "updatedAt" (stamp "createdAt" customer).

Definition repairData (env : Env) (w : World) (repair : JsObject)
  : JsObject :=
  stamp "updatedAt"
    (stamp "created_date"
       (<["repair_id" :=
            JString (make_repair_id (currentMonth env (tick w))
                                    (randomDraw env (S (tick w))))]> repair)).

Definition productData (env : Env) (w : World) (product : JsObject)
  : JsObject :=
  stamp "updatedAt"
    (stamp "createdAt"
       (<["product_id" := JString (make_product_id (randomDraw env (tick w)))]>
          product)).

Definition technicianData (env : Env) (w : World) (technician : JsObject)
  : JsObject :=
  stamp "updatedAt"
    (stamp "createdAt"
       (<["tech_id" := JString (make_tech_id (randomDraw env (tick w)))]>
          technician)).

(** Validation passed: the write, its three outcomes, and the catch. *)
Definition write_new (env : Env) (coll line : string) (data : JsObject)
    (w : World) : Outcome (option string) * World :=
  let id := autoId (idEntropy env (tick w)) in
  let w' := sent (ReqAddDoc coll data) w in
  if rejects env (tick w) then (Returned None, logged line w')
  else match collection w coll !! id with
       | Some _ => (Returned None, logged line w')
       | None =>
           (Returned (Some id),
            stored coll id (resolve (serverTime env (tick w)) data) w')
       end.

Lemma write_new_run env coll line data w :
  try_catch
    (let! docRef := addDoc env coll data in ret (Some docRef))
    (fun _ => do! console_error line in ret None) w
  = write_new env coll line data w.
Proof.
  unfold try_catch, bind, write_new. rewrite addDoc_run. cbn zeta.
  destruct (rejects env (tick w)); [reflexivity|].
  now destruct (collection w coll !! autoId (idEntropy env (tick w))).
Qed.

Lemma addCustomer_run ts env customer w :
  addCustomer ts env customer w
  = let validation := validateCustomer ts customer in
    if negb (valid validation)
    then (Threw (Error (validation_message validation)),
          logged "Customer validation failed:" w)
    else write_new env "customers" "Error adding customer:"
                   (customerData customer) w.
Proof.
  unfold addCustomer. cbn zeta.
  destruct (valid (validateCustomer ts customer)); cbn [negb].
  - apply write_new_run.
  - reflexivity.
Qed.

Lemma addRepair_run env repair w :
  addRepair env repair w
  = let data := repairData env w repair in
    let w2 := drew (drew w) in
    if negb (valid (validateRepair data))
    then (Returned None, logged "Error adding repair:" w2)
    else write_new env "repairs" "Error adding repair:" data w2.
Proof.
  unfold addRepair, repairData. cbn zeta.
  unfold try_catch at 1, bind at 1 2, new_Date_month, Math_random.
  cbn [tick drew].
  destruct (valid (validateRepair _)) eqn:E; cbn [negb].
  - rewrite <- write_new_run. unfold try_catch. reflexivity.
  - reflexivity.
Qed.

Lemma addProduct_run env product w :
  addProduct env product w
  = let data := productData env w product in
    let w1 := drew w in
    if negb (valid (validateProduct data))
    then (Returned None, logged "Error adding product:" w1)
    else write_new env "products" "Error adding product:" data w1.
Proof.
  unfold addProduct, productData. cbn zeta.
  unfold try_catch at 1, bind at 1, Math_random.
  destruct (valid (validateProduct _)) eqn:E; cbn [negb].
  - rewrite <- write_new_run. unfold try_catch. reflexivity.
  - reflexivity.
Qed.

Lemma addTechnician_run ts env technician w :
  addTechnician ts env technician w
  = let data := technicianData env w technician in
    let w1 := drew w in
    if negb (valid (validateTechnician ts data))
    then (Returned None, logged "Error adding technician:" w1)
    else write_new env "technicians" "Error adding technician:" data w1.
Proof.
  unfold addTechnician, technicianData. cbn zeta.
  unfold try_catch at 1, bind at 1, Math_random.
  destruct (valid (validateTechnician ts _)) eqn:E; cbn [negb].
  - rewrite <- write_new_run. unfold try_catch. reflexivity.
  - reflexivity.
Qed.

(** A minted document id has twenty characters. *)
Lemma length_string_of_list_ascii l :
  String.length (string_of_list_ascii l) = length l.
Proof. induction l as [|c l IH]; simpl; congruence. Qed.

Lemma autoId_length entropy : String.length (autoId entropy) = 20.
Proof.
  unfold autoId. now rewrite length_string_of_list_ascii, length_map, length_seq.
Qed.

(** Whatever [write_new] returns is a minted id. *)
Lemma write_new_returns env coll line data w id :
  (write_new env coll line data w).1 = Returned (Some id) ->
  String.length id = 20.
Proof.
  unfold write_new.
  destruct (rejects env (tick w)); [discriminate|].
  destruct (collection w coll !! _); [discriminate|].
  intros [= <-]. apply autoId_length.
Qed.

(** When the service accepts the request and the id is free, the record
    is written and its id returned. *)
Lemma write_new_accepted env coll line data w :
  rejects env (tick w) = false ->
  collection w coll !! autoId (idEntropy env (tick w)) = None ->
  (write_new env coll line data w).1
  = Returned (Some (autoId (idEntropy env (tick w)))).
Proof. intros Hr Hfree. unfold write_new. now rewrite Hr, Hfree. Qed.

(** A payload that fails validation is never written: the store is as it
    was and no request left the program.  [addCustomer] throws the error
    that carries the violated rules; the other three catch their own
    error and return [null]. *)
Lemma addCustomer_invalid ts env customer w :
  valid (validateCustomer ts customer) = false ->
  addCustomer ts env customer w
  = (Threw (Error (validation_message (validateCustomer ts customer))),
     logged "Customer validation failed:" w).
Proof. intros H. rewrite addCustomer_run. cbn zeta. now rewrite H. Qed.

Lemma addRepair_invalid env repair w :
  valid (validateRepair (repairData env w repair)) = false ->
  addRepair env repair w
  = (Returned None, logged "Error adding repair:" (drew (drew w))).
Proof. intros H. rewrite addRepair_run. cbn zeta. now rewrite H. Qed.

Lemma addProduct_invalid env product w :
  valid (validateProduct (productData env w product)) = false ->
  addProduct env product w
  = (Returned None, logged "Error adding product:" (drew w)).
Proof. intros H. rewrite addProduct_run. cbn zeta. now rewrite H. Qed.

Lemma addTechnician_invalid ts env technician w :
  valid (validateTechnician ts (technicianData env w technician)) = false ->
  addTechnician ts env technician w
  = (Returned None, logged "Error adding technician:" (drew w)).
Proof. intros H. rewrite addTechnician_run. cbn zeta. now rewrite H. Qed.

(** The stamps and the minted id do not change what the validators
    read. *)
Lemma validateRepair_repairData env w repair :
  validateRepair (repairData env w repair) = validateRepair repair.
Proof.
  unfold validateRepair, repairData, stamp.
  now rewrite !(get_insert_ne _ "updatedAt"), !(get_insert_ne _ "created_date"),
    !(get_insert_ne _ "repair_id") by discriminate.
Qed.

Definition negative_cost_repair : JsObject :=
  <["cost" := JNumber cost_minus_5]> iphone_repair.

Definition nameless_customer : JsObject :=
  <["phone" := JString (lit "123-456-7890")]>
    (<["name" := JString (lit "  ")]> ∅).

(** C2 (where the code departs from it): a repair with cost [-5] fails
    validation; [addRepair] writes nothing and sends nothing, but it
    returns [null] instead of throwing.  [addCustomer] on an invalid
    customer does throw the aggregated message. *)
Theorem addRepair_swallows_validation_failure :
  errors (validateRepair negative_cost_repair)
  = ["Cost must be a positive number"]
  /\ addRepair quiet_env negative_cost_repair seeded_world
     = (Returned None,
        logged "Error adding repair:" (drew (drew seeded_world)))
  /\ addCustomer (fun _ => []) quiet_env nameless_customer seeded_world
     = (Threw (Error "Validation failed: Name is required"),
        logged "Customer validation failed:" seeded_world).
Proof.
  split; [vm_compute; reflexivity|]. split.
  - apply addRepair_invalid. rewrite validateRepair_repairData.
    vm_compute. reflexivity.
  - rewrite addCustomer_invalid by (vm_compute; reflexivity).
    vm_compute. reflexivity.
Qed.

(* ===================================================================== *)
(** * 18. Updating a record                                                *)
(* ===================================================================== *)

(** An id that is absent: [false], the store is as it was, and the only
    request sent is the read. *)
Lemma update_of_not_found ts env e id payload w :
  collection w (collection_of e) !! id = None ->
  (update_of ts env e id payload w).1 = Returned false
  /\ db (update_of ts env e id payload w).2 = db w
  /\ requests (update_of ts env e id payload w).2
     = ReqGetDoc (collection_of e) id :: requests w.
Proof.
  intros Habsent. destruct e; simpl update_of; simpl collection_of in *;
    rewrite ?updateRepair_plain, ?updateProduct_plain,
      ?updateTechnician_plain, ?plain_update_run, ?updateCustomer_run;
    cbn zeta; rewrite Habsent;
    destruct (rejects env (tick w)); repeat split.
Qed.

(** A rejection by the service is reported as [false], never thrown. *)
Lemma plain_update_never_throws env coll notFound line id payload w :
  exists b, (plain_update env coll notFound line id payload w).1 = Returned b.
Proof.
  rewrite plain_update_run. cbn zeta.
  destruct (rejects env (tick w)); [eauto|].
  destruct (collection w coll !! id); [|eauto].
  destruct (rejects env (S (tick w))); eauto.
Qed.

Lemma update_of_never_throws ts env e id payload w :
  exists b, (update_of ts env e id payload w).1 = Returned b.
Proof.
  destruct e; simpl update_of;
    rewrite ?updateRepair_plain, ?updateProduct_plain,
      ?updateTechnician_plain; try apply plain_update_never_throws.
  rewrite updateCustomer_run. cbn zeta.
  destruct (rejects env (tick w)); [eauto|].
  destruct (collection w "customers" !! id); [|eauto].
  destruct (valid (validateCustomer ts _)); [|eauto]. cbn [negb].
  destruct (rejects env (S (tick w))); eauto.
Qed.

(** [updateCustomer] validates the merged record before it writes. *)
Lemma updateCustomer_invalid ts env id payload w old :
  collection w "customers" !! id = Some old ->
  valid (validateCustomer ts (stamp "updatedAt" (spread old payload))) = false ->
  (updateCustomer ts env id payload w).1 = Returned false
  /\ db (updateCustomer ts env id payload w).2 = db w.
Proof.
  intros Hold Hbad. rewrite updateCustomer_run. cbn zeta.
  rewrite Hold, Hbad. now destruct (rejects env (tick w)).
Qed.

(** The other three write whatever the payload holds. *)
Lemma plain_update_accepted env coll notFound line id payload w old :
  collection w coll !! id = Some old ->
  rejects env (tick w) = false -> rejects env (S (tick w)) = false ->
  (plain_update env coll notFound line id payload w).1 = Returned true
  /\ collection (plain_update env coll notFound line id payload w).2 coll
       !! id
     = Some (resolve (serverTime env (S (tick w)))
                     (stamp "updatedAt" payload) ∪ old).
Proof.
  intros Hold H1 H2. rewrite plain_update_run. cbn zeta.
  rewrite Hold, H1, H2. cbn [fst snd]. split; [reflexivity|].
  rewrite collection_stored, decide_True by reflexivity.
  apply lookup_insert_eq.
Qed.

Definition blank_brand : JsObject := {[ "brand" := JString (lit "   ") ]}.

(** C3 (where the code departs from it): [updateRepair] on the stored
    repair [r1] with a brand of three spaces returns [true] and stores
    the record, although the merged record fails [validateRepair];
    [updateCustomer] on the stored customer [c1] with such a name
    returns [false] and stores nothing. *)
Theorem updateRepair_persists_invalid_record :
  exists new,
    (updateRepair quiet_env "r1" blank_brand seeded_world).1 = Returned true
    /\ collection (updateRepair quiet_env "r1" blank_brand seeded_world).2
         "repairs" !! "r1" = Some new
    /\ get new "brand" = JString (lit "   ")
    /\ errors (validateRepair new) = ["Brand is required"]
    /\ updateCustomer (fun _ => []) quiet_env "c1"
         {[ "name" := JString (lit "   ") ]} seeded_world
       = (Returned false,
          logged "Error updating customer:"
            (sent (ReqGetDoc "customers" "c1") seeded_world)).
Proof.
  destruct (plain_update_accepted quiet_env "repairs" "Repair not found"
              "Error updating repair:" "r1" blank_brand seeded_world
              stored_repair) as [Hret Hnew]; try (vm_compute; reflexivity).
  rewrite updateRepair_plain. eexists.
  split; [exact Hret|]. split; [exact Hnew|].
  split; [vm_compute; reflexivity|]. split; [vm_compute; reflexivity|].
  rewrite updateCustomer_run. vm_compute. reflexivity.
Qed.

(* ===================================================================== *)
(** * 19. The hooks and their query parameter                              *)
(* ===================================================================== *)

Import Hooks.

(** The only falsy string is the empty one. *)
Lemma truthy_string s : truthy (JString s) = false <-> s = [].
Proof. destruct s; simpl; split; congruence. Qed.

(** The two guarded hooks: an empty parameter gives the empty result and
    leaves the world untouched (no request, no log line). *)
Lemma useRepairsByCustomerId_short_circuit env st w :
  useRepairsByCustomerId_effect env [] st w
  = (setLoading false (setData [] st), w).
Proof. reflexivity. Qed.

Lemma useProductsByCategory_short_circuit env st w :
  useProductsByCategory_effect env [] st w
  = (setLoading false (setData [] st), w).
Proof. reflexivity. Qed.

(** A fetch sends exactly the request of its repository function. *)
Lemma fetch_query_requests env coll field q line st w :
  requests
    (fetch (try_catch
              (let! querySnapshot := getDocs env coll (Some (field, q)) in
               ret (with_id <$> querySnapshot))
              (fun _ => do! console_error line in ret [])) st w).2
  = ReqGetDocs coll (Some (field, q)) :: requests w.
Proof.
  unfold fetch, try_catch, bind. rewrite getDocs_run.
  now destruct (rejects env (tick w)).
Qed.

(** [useRepairsByStatus] has no guard: it queries whatever the status. *)
Lemma useRepairsByStatus_always_queries env status st w :
  requests (useRepairsByStatus_effect env status st w).2
  = ReqGetDocs "repairs" (Some ("status", QString status)) :: requests w.
Proof. apply fetch_query_requests. Qed.

Lemma useRepairsByCustomerId_queries env customerId st w :
  customerId <> [] ->
  requests (useRepairsByCustomerId_effect env customerId st w).2
  = ReqGetDocs "repairs" (Some ("customer_id", QString customerId))
    :: requests w.
Proof.
  intros Hne. unfold useRepairsByCustomerId_effect.
  destruct customerId; [congruence|]. apply fetch_query_requests.
Qed.

Lemma useProductsByCategory_queries env category st w :
  category <> [] ->
  requests (useProductsByCategory_effect env category st w).2
  = ReqGetDocs "products" (Some ("category", QString category))
    :: requests w.
Proof.
  intros Hne. unfold useProductsByCategory_effect.
  destruct category; [congruence|]. apply fetch_query_requests.
Qed.

(** The effect runs on the first render and whenever the parameter is
    not the one of the previous render; otherwise nothing happens. *)
Lemma useEffect_first effect dep st w :
  useEffect effect None dep st w = effect dep st w.
Proof. reflexivity. Qed.

Lemma useEffect_changed effect previous dep st w :
  previous <> dep -> useEffect effect (Some previous) dep st w = effect dep st w.
Proof.
  intros Hne. unfold useEffect, deps_changed.
  now rewrite bool_decide_eq_false_2.
Qed.

Lemma useEffect_same effect dep st w :
  useEffect effect (Some dep) dep st w = (st, w).
Proof.
  unfold useEffect, deps_changed. now rewrite bool_decide_eq_true_2.
Qed.

(** C4 (where the code departs from it): with the empty string as
    status, [useRepairsByStatus] does call its repository function, which
    queries the store; the two sibling hooks send nothing. *)
Theorem useRepairsByStatus_queries_on_empty_status :
  truthy (JString []) = false
  /\ requests (useRepairsByStatus quiet_env None [] initial seeded_world).2
     = [ReqGetDocs "repairs" (Some ("status", QString []))]
  /\ useRepairsByCustomerId quiet_env None [] initial seeded_world
     = (setLoading false (setData [] initial), seeded_world)
  /\ useProductsByCategory quiet_env None [] initial seeded_world
     = (setLoading false (setData [] initial), seeded_world).
Proof.
  split; [reflexivity|]. split; [|split; reflexivity].
  unfold useRepairsByStatus. rewrite useEffect_first.
  now rewrite useRepairsByStatus_always_queries.
Qed.

(* ===================================================================== *)
(** * 20. Typed views of the other records                                 *)
(* ===================================================================== *)

(** [interface Repair], [interface Product], [interface Technician]: the
    declared fields with their declared types (a string-literal union is
    a string at run time); optional fields are options. *)

Module Repair.

Record Repair : Type := mkRepair {
  repair_id : jsstring;
  customer_id : jsstring;
  device_type : jsstring;
  brand : jsstring;
  model : jsstring;
  issue_description : jsstring;
  status : jsstring;
  created_date : Timestamp;
  cost : spec_float;
  technician_id : option jsstring;
  tasks : list jsstring;
  notes : option jsstring;
  passcode : option jsstring;
  updatedAt : option Timestamp
}.

Definition to_object (r : Repair) : JsObject :=
  Customer.set_optional "updatedAt" (JTimestamp <$> updatedAt r)
    (Customer.set_optional "passcode" (JString <$> passcode r)
       (Customer.set_optional "notes" (JString <$> notes r)
          (Customer.set_optional "technician_id" (JString <$> technician_id r)
             (<["tasks" := JArray (JString <$> tasks r)]>
                (<["cost" := JNumber (cost r)]>
                   (<["created_date" := JTimestamp (created_date r)]>
                      (<["status" := JString (status r)]>
                         (<["issue_description" :=
                              JString (issue_description r)]>
                            (<["model" := JString (model r)]>
                               (<["brand" := JString (brand r)]>
                                  (<["device_type" := JString (device_type r)]>
                                     (<["customer_id" :=
                                          JString (customer_id r)]>
                                        (<["repair_id" :=
                                             JString (repair_id r)]>
                                           ∅))))))))))))).

End Repair.

Module Product.

Record Product : Type := mkProduct {
  product_id : jsstring;
  name : jsstring;
  category : jsstring;
  quantity : spec_float;
  price : spec_float;
  supplier : jsstring;
  description : option jsstring;
  sku : option jsstring;
  createdAt : option Timestamp;
  updatedAt : option Timestamp
}.

Definition to_object (p : Product) : JsObject :=
  Customer.set_optional "updatedAt" (JTimestamp <$> updatedAt p)
    (Customer.set_optional "createdAt" (JTimestamp <$> createdAt p)
       (Customer.set_optional "sku" (JString <$> sku p)
          (Customer.set_optional "description" (JString <$> description p)
             (<["supplier" := JString (supplier p)]>
                (<["price" := JNumber (price p)]>
                   (<["quantity" := JNumber (quantity p)]>
                      (<["category" := JString (category p)]>
                         (<["name" := JString (name p)]>
                            (<["product_id" := JString (product_id p)]>
                               ∅))))))))).

End Product.

Module Technician.

Record Technician : Type := mkTechnician {
  tech_id : jsstring;
  name : jsstring;
  specialization : list jsstring;
  availability : bool;
  email : option jsstring;
  phone : jsstring;
  createdAt : option Timestamp;
  updatedAt : option Timestamp
}.

Definition to_object (t : Technician) : JsObject :=
  Customer.set_optional "updatedAt" (JTimestamp <$> updatedAt t)
    (Customer.set_optional "createdAt" (JTimestamp <$> createdAt t)
       (Customer.set_optional "email" (JString <$> email t)
          (<["phone" := JString (phone t)]>
             (<["availability" := JBool (availability t)]>
                (<["specialization" := JArray (JString <$> specialization t)]>
                   (<["name" := JString (name t)]>
                      (<["tech_id" := JString (tech_id t)]> ∅))))))).

Definition email_present (t : Technician) : bool :=
  match email t with
  | Some (_ :: _) => true
  | _ => false
  end.

Definition email_text (t : Technician) : jsstring := default [] (email t).

End Technician.

(** A number that is not [>= 0]: negative, or NaN. *)
Definition not_ge_zero (x : spec_float) : bool := negb (ge_zero x).

(* ===================================================================== *)
(** * 21. What each validator rejects                                      *)
(* ===================================================================== *)

Ltac read_field :=
  unfold get, Repair.to_object, Product.to_object, Technician.to_object,
    Customer.set_optional;
  repeat match goal with
         | |- context [match ?o with Some _ => _ | None => _ end] =>
             destruct o; cbn [fmap option_fmap option_map]
         end;
  by simplify_map_eq.

Lemma get_repair r :
  get (Repair.to_object r) "customer_id" = JString (Repair.customer_id r)
  /\ get (Repair.to_object r) "device_type" = JString (Repair.device_type r)
  /\ get (Repair.to_object r) "brand" = JString (Repair.brand r)
  /\ get (Repair.to_object r) "model" = JString (Repair.model r)
  /\ get (Repair.to_object r) "status" = JString (Repair.status r)
  /\ get (Repair.to_object r) "cost" = JNumber (Repair.cost r)
  /\ get (Repair.to_object r) "tasks" = JArray (JString <$> Repair.tasks r).
Proof.
  destruct r as [i c d b m ds s cd co [t|] ts [n|] [p|] [u|]]; cbn;
    repeat split; read_field.
Qed.

Lemma get_product p :
  get (Product.to_object p) "name" = JString (Product.name p)
  /\ get (Product.to_object p) "category" = JString (Product.category p)
  /\ get (Product.to_object p) "supplier" = JString (Product.supplier p)
  /\ get (Product.to_object p) "quantity" = JNumber (Product.quantity p)
  /\ get (Product.to_object p) "price" = JNumber (Product.price p).
Proof.
  destruct p as [i n c q pr s [d|] [k|] [t1|] [t2|]]; cbn;
    repeat split; read_field.
Qed.

Lemma get_technician t :
  get (Technician.to_object t) "name" = JString (Technician.name t)
  /\ get (Technician.to_object t) "phone" = JString (Technician.phone t)
  /\ get (Technician.to_object t) "specialization"
     = JArray (JString <$> Technician.specialization t)
  /\ get (Technician.to_object t) "availability"
     = JBool (Technician.availability t)
  /\ get (Technician.to_object t) "email"
     = from_option JString JUndefined (Technician.email t).
Proof.
  destruct t as [i n sp a [e|] p [t1|] [t2|]]; cbn; repeat split; read_field.
Qed.

Lemma validateRepair_errors o :
  errors (validateRepair o)
  = (if validateRequired (get o "customer_id") then []
     else ["Customer ID is required"])
    ++ (if validateRequired (get o "device_type") then []
        else ["Device type is required"])
    ++ (if validateRequired (get o "brand") then []
        else ["Brand is required"])
    ++ (if validateRequired (get o "model") then []
        else ["Model is required"])
    ++ (if validateRequired (get o "status") then []
        else ["Status is required"])
    ++ (if validatePositiveNumber (get o "cost") then []
        else ["Cost must be a positive number"])
    ++ (if negb (isArray (get o "tasks"))
           || Nat.eqb (array_length (get o "tasks")) 0
        then ["At least one task is required"] else []).
Proof.
  unfold validateRepair, finish, push_unless; simpl.
  destruct (validateRequired (get o "customer_id")),
           (validateRequired (get o "device_type")),
           (validateRequired (get o "brand")),
           (validateRequired (get o "model")),
           (validateRequired (get o "status")),
           (validatePositiveNumber (get o "cost")),
           (negb (isArray (get o "tasks"))
            || Nat.eqb (array_length (get o "tasks")) 0);
    reflexivity.
Qed.

Lemma validateProduct_errors o :
  errors (validateProduct o)
  = (if validateRequired (get o "name") then [] else ["Name is required"])
    ++ (if validateRequired (get o "category") then []
        else ["Category is required"])
    ++ (if validateRequired (get o "supplier") then []
        else ["Supplier is required"])
    ++ (if validatePositiveNumber (get o "quantity") then []
        else ["Quantity must be a positive number"])
    ++ (if validatePositiveNumber (get o "price") then []
        else ["Price must be a positive number"]).
Proof.
  unfold validateProduct, finish, push_unless; simpl.
  destruct (validateRequired (get o "name")),
           (validateRequired (get o "category")),
           (validateRequired (get o "supplier")),
           (validatePositiveNumber (get o "quantity")),
           (validatePositiveNumber (get o "price"));
    reflexivity.
Qed.

(** Every validator is valid exactly when its error list is empty. *)
Lemma valid_iff_no_errors_repair o :
  valid (validateRepair o) = true <-> errors (validateRepair o) = [].
Proof. unfold validateRepair. apply valid_errors_nil. Qed.

Lemma valid_iff_no_errors_product o :
  valid (validateProduct o) = true <-> errors (validateProduct o) = [].
Proof. unfold validateProduct. apply valid_errors_nil. Qed.

Lemma valid_iff_no_errors_technician ts o :
  valid (validateTechnician ts o) = true
  <-> errors (validateTechnician ts o) = [].
Proof. unfold validateTechnician. apply valid_errors_nil. Qed.

Lemma length_fmap_JString (l : list jsstring) :
  Nat.eqb (length (JString <$> l)) 0 = match l with [] => true | _ => false end.
Proof. now destruct l. Qed.

Lemma not_valid_iff (v : Validation) :
  valid v = false <-> ~ (valid v = true).
Proof. destruct (valid v); split; congruence. Qed.

(** X1: a repair record is rejected exactly when one of customer id,
    device type, brand, model, status is blank, or the cost is negative or
    NaN, or there is no task; the error list has one entry per failed
    rule, in the order of the rules.  The value of a non-blank status
    plays no part. *)
Theorem validateRepair_rejects_exactly (r : Repair.Repair) :
  let v := validateRepair (Repair.to_object r) in
  (valid v = false <->
     blank (Repair.customer_id r) = true
     \/ blank (Repair.device_type r) = true
     \/ blank (Repair.brand r) = true
     \/ blank (Repair.model r) = true
     \/ blank (Repair.status r) = true
     \/ not_ge_zero (Repair.cost r) = true
     \/ Repair.tasks r = [])
  /\ errors v
     = (if blank (Repair.customer_id r) then ["Customer ID is required"]
        else [])
       ++ (if blank (Repair.device_type r) then ["Device type is required"]
           else [])
       ++ (if blank (Repair.brand r) then ["Brand is required"] else [])
       ++ (if blank (Repair.model r) then ["Model is required"] else [])
       ++ (if blank (Repair.status r) then ["Status is required"] else [])
       ++ (if not_ge_zero (Repair.cost r)
           then ["Cost must be a positive number"] else [])
       ++ (match Repair.tasks r with
           | [] => ["At least one task is required"]
           | _ => []
           end).
Proof.
  intros v.
  destruct (get_repair r) as (H1 & H2 & H3 & H4 & H5 & H6 & H7).
  assert (Herr : errors v
     = (if blank (Repair.customer_id r) then ["Customer ID is required"]
        else [])
       ++ (if blank (Repair.device_type r) then ["Device type is required"]
           else [])
       ++ (if blank (Repair.brand r) then ["Brand is required"] else [])
       ++ (if blank (Repair.model r) then ["Model is required"] else [])
       ++ (if blank (Repair.status r) then ["Status is required"] else [])
       ++ (if not_ge_zero (Repair.cost r)
           then ["Cost must be a positive number"] else [])
       ++ (match Repair.tasks r with
           | [] => ["At least one task is required"]
           | _ => []
           end)).
  { unfold v. rewrite validateRepair_errors, H1, H2, H3, H4, H5, H6, H7.
    rewrite !validateRequired_string. unfold not_ge_zero. simpl.
    rewrite length_fmap_JString.
    destruct (blank (Repair.customer_id r)), (blank (Repair.device_type r)),
      (blank (Repair.brand r)), (blank (Repair.model r)),
      (blank (Repair.status r)), (ge_zero (Repair.cost r)),
      (Repair.tasks r); reflexivity. }
  split; [|exact Herr].
  rewrite not_valid_iff. unfold v at 1.
  rewrite valid_iff_no_errors_repair. fold v. rewrite Herr.
  destruct (blank (Repair.customer_id r)), (blank (Repair.device_type r)),
    (blank (Repair.brand r)), (blank (Repair.model r)),
    (blank (Repair.status r)), (not_ge_zero (Repair.cost r)),
    (Repair.tasks r); simpl; intuition congruence.
Qed.

(** X2: a product record is rejected exactly when its name, category or
    supplier is blank, or its quantity or price is negative or NaN; the
    error list has one entry per failed rule, in the order of the
    rules. *)
Theorem validateProduct_rejects_exactly (p : Product.Product) :
  let v := validateProduct (Product.to_object p) in
  (valid v = false <->
     blank (Product.name p) = true
     \/ blank (Product.category p) = true
     \/ blank (Product.supplier p) = true
     \/ not_ge_zero (Product.quantity p) = true
     \/ not_ge_zero (Product.price p) = true)
  /\ errors v
     = (if blank (Product.name p) then ["Name is required"] else [])
       ++ (if blank (Product.category p) then ["Category is required"]
           else [])
       ++ (if blank (Product.supplier p) then ["Supplier is required"]
           else [])
       ++ (if not_ge_zero (Product.quantity p)
           then ["Quantity must be a positive number"] else [])
       ++ (if not_ge_zero (Product.price p)
           then ["Price must be a positive number"] else []).
Proof.
  intros v.
  destruct (get_product p) as (H1 & H2 & H3 & H4 & H5).
  assert (Herr : errors v
     = (if blank (Product.name p) then ["Name is required"] else [])
       ++ (if blank (Product.category p) then ["Category is required"]
           else [])
       ++ (if blank (Product.supplier p) then ["Supplier is required"]
           else [])
       ++ (if not_ge_zero (Product.quantity p)
           then ["Quantity must be a positive number"] else [])
       ++ (if not_ge_zero (Product.price p)
           then ["Price must be a positive number"] else [])).
  { unfold v. rewrite validateProduct_errors, H1, H2, H3, H4, H5.
    rewrite !validateRequired_string. unfold not_ge_zero. simpl.
    destruct (blank (Product.name p)), (blank (Product.category p)),
      (blank (Product.supplier p)), (ge_zero (Product.quantity p)),
      (ge_zero (Product.price p)); reflexivity. }
  split; [|exact Herr].
  rewrite not_valid_iff. unfold v at 1.
  rewrite valid_iff_no_errors_product. fold v. rewrite Herr.
  destruct (blank (Product.name p)), (blank (Product.category p)),
    (blank (Product.supplier p)), (not_ge_zero (Product.quantity p)),
    (not_ge_zero (Product.price p)); simpl; intuition congruence.
Qed.

(** X3: a technician record is rejected exactly when its name or phone is
    blank, or it has no specialization, or its email is a non-empty
    string that is not of the shape [user@domain.tld]; the error list has
    one entry per failed rule, in the order of the rules. *)
Theorem validateTechnician_rejects_exactly
    (ts : JsValue -> jsstring) (t : Technician.Technician) :
  let v := validateTechnician ts (Technician.to_object t) in
  let bad_email :=
    Technician.email_present t
    && negb (validateEmail (Technician.email_text t)) in
  (valid v = false <->
     blank (Technician.name t) = true
     \/ blank (Technician.phone t) = true
     \/ Technician.specialization t = []
     \/ (Technician.email_present t = true
         /\ ~ user_at_domain_tld (Technician.email_text t)))
  /\ errors v
     = (if blank (Technician.name t) then ["Name is required"] else [])
       ++ (if blank (Technician.phone t) then ["Phone is required"] else [])
       ++ (match Technician.specialization t with
           | [] => ["At least one specialization is required"]
           | _ => []
           end)
       ++ (if bad_email then ["Email format is invalid"] else []).
Proof.
  intros v bad_email.
  destruct (get_technician t) as (H1 & H2 & H3 & H4 & H5).
  assert (Hmail :
    truthy (get (Technician.to_object t) "email")
    && negb (validateEmail
               (ToString ts (get (Technician.to_object t) "email")))
    = bad_email).
  { rewrite H5. unfold bad_email, Technician.email_present,
      Technician.email_text.
    destruct (Technician.email t) as [[|a e]|]; reflexivity. }
  assert (Herr : errors v
     = (if blank (Technician.name t) then ["Name is required"] else [])
       ++ (if blank (Technician.phone t) then ["Phone is required"] else [])
       ++ (match Technician.specialization t with
           | [] => ["At least one specialization is required"]
           | _ => []
           end)
       ++ (if bad_email then ["Email format is invalid"] else [])).
  { unfold v. rewrite validateTechnician_errors, Hmail, H1, H2, H3, H4.
    rewrite !validateRequired_string. simpl. rewrite length_fmap_JString.
    destruct (blank (Technician.name t)), (blank (Technician.phone t)),
      (Technician.specialization t), bad_email; reflexivity. }
  split; [|exact Herr].
  rewrite not_valid_iff. unfold v at 1.
  rewrite valid_iff_no_errors_technician. fold v. rewrite Herr.
  unfold bad_email. rewrite <- validateEmail_spec.
  destruct (blank (Technician.name t)), (blank (Technician.phone t)),
    (Technician.specialization t), (Technician.email_present t),
    (validateEmail (Technician.email_text t)); simpl;
    intuition congruence.
Qed.

(* ===================================================================== *)
(** * 22. Numbers and email addresses the validators accept                *)
(* ===================================================================== *)

(** X4: [validatePositiveNumber] accepts exactly the numbers that are
    neither NaN nor negative.  Despite its name it accepts zero (of
    either sign), and it accepts [+Infinity]; anything that is not a
    number is rejected. *)
Theorem validatePositiveNumber_accepts_exactly (v : JsValue) :
  (validatePositiveNumber v = true <->
     exists x, v = JNumber x /\ x <> S754_nan /\ lt_zero x = false)
  /\ validatePositiveNumber (JNumber (S754_zero false)) = true
  /\ validatePositiveNumber (JNumber (S754_zero true)) = true
  /\ validatePositiveNumber (JNumber (S754_infinity false)) = true
  /\ validatePositiveNumber (JNumber (S754_infinity true)) = false
  /\ validatePositiveNumber (JNumber S754_nan) = false
  /\ validatePositiveNumber (JString (lit "5")) = false.
Proof.
  split; [|repeat split]. split.
  - destruct v; simpl; try discriminate. intros H. exists x.
    split; [reflexivity|].
    destruct x as [s|s| |s m e]; try destruct s; cbv in H |- *;
      split; congruence.
  - intros (x & -> & Hnan & Hlt). simpl.
    destruct x as [s|s| |s m e]; try destruct s; cbv in Hlt |- *;
      congruence.
Qed.

(** Occurrences of [@] (U+0040) in a string. *)
Definition count_at (s : jsstring) : nat :=
  length (List.filter (N.eqb 0x40) s).

Lemma count_at_app a b : count_at (a ++ b) = count_at a + count_at b.
Proof. unfold count_at. now rewrite List.filter_app, List.length_app. Qed.

Lemma part_no_at s : forallb not_space_or_at s = true -> count_at s = 0.
Proof.
  unfold count_at. induction s as [|c s IH]; [reflexivity|].
  cbn [forallb List.filter]. rewrite andb_true_iff. intros [Hc Hs].
  unfold not_space_or_at in Hc. rewrite negb_orb, andb_true_iff in Hc.
  destruct Hc as [_ Hc]. apply negb_true_iff in Hc.
  rewrite N.eqb_sym in Hc. rewrite Hc. auto.
Qed.

Lemma part_no_space s :
  forallb not_space_or_at s = true ->
  forallb (fun c => negb (is_white_space c)) s = true.
Proof.
  induction s as [|c s IH]; [reflexivity|].
  simpl. rewrite !andb_true_iff. intros [Hc Hs]. split; [|auto].
  unfold not_space_or_at in Hc. rewrite negb_orb in Hc.
  now apply andb_true_iff in Hc as [-> _].
Qed.

(** X5: an email address that [validateEmail] accepts has exactly one
    [@], which is not its first character, holds no white space, and has
    at least five characters. *)
Theorem validateEmail_accepts_only (s : jsstring)
    (Haccepted : validateEmail s = true) :
  count_at s = 1
  /\ head s <> Some 0x40%N
  /\ forallb (fun c => negb (is_white_space c)) s = true
  /\ 5 <= length s.
Proof.
  apply validateEmail_spec in Haccepted
    as (u & d & t & -> & [Hu Hu'] & [Hd Hd'] & [Ht Ht']).
  repeat split.
  - rewrite !count_at_app.
    rewrite (part_no_at u), (part_no_at d), (part_no_at t) by assumption.
    reflexivity.
  - destruct u as [|c u]; [congruence|]. simpl. intros [= ->].
    simpl in Hu'. discriminate.
  - rewrite !forallb_app.
    rewrite (part_no_space u), (part_no_space d), (part_no_space t)
      by assumption.
    reflexivity.
  - rewrite !length_app. simpl.
    destruct u, d, t; simpl; try congruence; lia.
Qed.

Lemma validateEmail_accepts_only_witness :
  validateEmail (lit "a@b.c") = true /\ count_at (lit "a@b.c") = 1.
Proof.
  assert (H : validateEmail (lit "a@b.c") = true) by (vm_compute; reflexivity).
  split; [exact H|].
  exact (proj1 (validateEmail_accepts_only (lit "a@b.c") H)).
Defined.

(* ===================================================================== *)
(** * 23. The remaining repository function and the four entities         *)
(* ===================================================================== *)

(** [getCustomerById] *)
Definition getCustomerById (env : Env) (customerId : string)
  : M (option JsObject) :=
  try_catch
    (let! customerDoc := getDoc env "customers" customerId in
     match customerDoc with
     | None => ret None
     | Some data => ret (Some (with_id (customerId, data)))
     end)
    (fun error => do! console_error "Error getting customer:" in ret None).

(** The add function, the validator, the listing, the record that is
    validated and written, and the minted secondary id of each entity. *)
Definition add_of (ts : JsValue -> jsstring) (env : Env) (e : Entity)
  : JsObject -> M (option string) :=
  match e with
  | Customers => addCustomer ts env
  | Repairs => addRepair env
  | Products => addProduct env
  | Technicians => addTechnician ts env
  end.

Definition validate_of (ts : JsValue -> jsstring) (e : Entity)
  : JsObject -> Validation :=
  match e with
  | Customers => validateCustomer ts
  | Repairs => validateRepair
  | Products => validateProduct
  | Technicians => validateTechnician ts
  end.

Definition list_of (env : Env) (e : Entity) : M (list JsObject) :=
  match e with
  | Customers => getCustomers env
  | Repairs => getRepairs env
  | Products => getProducts env
  | Technicians => getTechnicians env
  end.

Definition merged_of (env : Env) (e : Entity) (w : World)
    (payload : JsObject) : JsObject :=
  match e with
  | Customers => customerData payload
  | Repairs => repairData env w payload
  | Products => productData env w payload
  | Technicians => technicianData env w payload
  end.

Definition secondary_id (env : Env) (e : Entity) (w : World)
  : option (string * jsstring) :=
  match e with
  | Customers => None
  | Repairs =>
      Some ("repair_id",
            make_repair_id (currentMonth env (tick w))
                           (randomDraw env (S (tick w))))
  | Products => Some ("product_id", make_product_id (randomDraw env (tick w)))
  | Technicians => Some ("tech_id", make_tech_id (randomDraw env (tick w)))
  end.

(* --------------------------------------------------------------------- *)
(** ** Outcomes of a write                                                *)
(* --------------------------------------------------------------------- *)

Lemma write_new_cases env coll line data w :
  (exists id,
      write_new env coll line data w
      = (Returned (Some id),
         stored coll id (resolve (serverTime env (tick w)) data)
                (sent (ReqAddDoc coll data) w))
      /\ id = autoId (idEntropy env (tick w))
      /\ collection w coll !! id = None)
  \/ ((write_new env coll line data w).1 = Returned None
      /\ db (write_new env coll line data w).2 = db w).
Proof.
  unfold write_new.
  destruct (rejects env (tick w)); [right; split; reflexivity|].
  destruct (collection w coll !! autoId (idEntropy env (tick w))) eqn:E;
    [right; split; reflexivity|].
  left. eexists. repeat split. exact E.
Qed.

(** What an add does, whatever the entity: it returns a fresh id and has
    written the validated record under it, or it has written nothing. *)
Lemma add_of_cases ts env e payload w :
  (exists id w0,
      add_of ts env e payload w
      = (Returned (Some id),
         stored (collection_of e) id
           (resolve (serverTime env (tick w0)) (merged_of env e w payload))
           (sent (ReqAddDoc (collection_of e) (merged_of env e w payload)) w0))
      /\ db w0 = db w
      /\ id = autoId (idEntropy env (tick w0))
      /\ collection w (collection_of e) !! id = None
      /\ valid (validate_of ts e (merged_of env e w payload)) = true)
  \/ (db (add_of ts env e payload w).2 = db w
      /\ ((add_of ts env e payload w).1 = Returned None
          \/ (e = Customers
              /\ valid (validateCustomer ts payload) = false
              /\ add_of ts env e payload w
                 = (Threw (Error (validation_message
                                    (validateCustomer ts payload))),
                    logged "Customer validation failed:" w)))).
Proof.
  destruct e; simpl add_of; simpl collection_of; simpl merged_of;
    simpl validate_of.
  - rewrite addCustomer_run. cbn zeta.
    destruct (valid (validateCustomer ts payload)) eqn:V; cbn [negb].
    + destruct (write_new_cases env "customers" "Error adding customer:"
                  (customerData payload) w) as [(id & -> & Hid & Hfree)|[H1 H2]].
      * left. exists id, w. repeat split; try assumption.
        unfold customerData, stamp, validateCustomer.
        unfold validateCustomer in V.
        now rewrite !(get_insert_ne _ "updatedAt"),
          !(get_insert_ne _ "createdAt") by discriminate.
      * right. split; [exact H2|]. left. exact H1.
    + right. split; [reflexivity|]. right. repeat split.
  - rewrite addRepair_run. cbn zeta.
    destruct (valid (validateRepair (repairData env w payload))) eqn:V;
      cbn [negb]; [|right; split; [reflexivity|left; reflexivity]].
    destruct (write_new_cases env "repairs" "Error adding repair:"
                (repairData env w payload) (drew (drew w)))
      as [(id & -> & Hid & Hfree)|[H1 H2]].
    + left. exists id, (drew (drew w)). repeat split; assumption.
    + right. split; [exact H2|]. left. exact H1.
  - rewrite addProduct_run. cbn zeta.
    destruct (valid (validateProduct (productData env w payload))) eqn:V;
      cbn [negb]; [|right; split; [reflexivity|left; reflexivity]].
    destruct (write_new_cases env "products" "Error adding product:"
                (productData env w payload) (drew w))
      as [(id & -> & Hid & Hfree)|[H1 H2]].
    + left. exists id, (drew w). repeat split; assumption.
    + right. split; [exact H2|]. left. exact H1.
  - rewrite addTechnician_run. cbn zeta.
    destruct (valid (validateTechnician ts (technicianData env w payload)))
      eqn:V; cbn [negb]; [|right; split; [reflexivity|left; reflexivity]].
    destruct (write_new_cases env "technicians" "Error adding technician:"
                (technicianData env w payload) (drew w))
      as [(id & -> & Hid & Hfree)|[H1 H2]].
    + left. exists id, (drew w). repeat split; assumption.
    + right. split; [exact H2|]. left. exact H1.
Qed.

Lemma valid_iff_no_errors_customer ts o :
  valid (validateCustomer ts o) = true
  <-> errors (validateCustomer ts o) = [].
Proof. unfold validateCustomer. apply valid_errors_nil. Qed.

(** X6: an add, whatever the entity, has one of three outcomes: it
    returns a twenty-character id that was free in the collection; or it
    returns [null] and the store is as it was; or (customers only, on a
    payload that fails validation) it throws the error that carries the
    violated rules, and the store, the request log and the draw counter
    are as they were. *)
Theorem add_of_outcomes
    (ts : JsValue -> jsstring) (env : Env) (e : Entity)
    (payload : JsObject) (w : World) :
  (exists id,
      (add_of ts env e payload w).1 = Returned (Some id)
      /\ String.length id = 20
      /\ collection w (collection_of e) !! id = None
      /\ is_Some (collection (add_of ts env e payload w).2 (collection_of e)
                    !! id))
  \/ ((add_of ts env e payload w).1 = Returned None
      /\ db (add_of ts env e payload w).2 = db w)
  \/ (e = Customers
      /\ (add_of ts env e payload w).1
         = Threw (Error (validation_message (validateCustomer ts payload)))
      /\ errors (validateCustomer ts payload) <> []
      /\ db (add_of ts env e payload w).2 = db w
      /\ requests (add_of ts env e payload w).2 = requests w
      /\ tick (add_of ts env e payload w).2 = tick w).
Proof.
  destruct (add_of_cases ts env e payload w)
    as [(id & w0 & -> & Hdb & Hid & Hfree & Hv)|[Hdb [Hr|(-> & Hv & Hr)]]].
  - left. exists id. cbn [fst snd]. repeat split; try assumption.
    + subst id. apply autoId_length.
    + rewrite collection_stored, decide_True, lookup_insert_eq by reflexivity.
      eauto.
  - right. left. auto.
  - right. right. rewrite Hr. cbn [fst snd]. repeat split.
    intros Hnil. apply valid_iff_no_errors_customer in Hnil. congruence.
Qed.

(* --------------------------------------------------------------------- *)
(** ** The record an add stores                                           *)
(* --------------------------------------------------------------------- *)

Definition secondary_field (e : Entity) : option string :=
  match e with
  | Customers => None
  | Repairs => Some "repair_id"
  | Products => Some "product_id"
  | Technicians => Some "tech_id"
  end.

(** The secondary id an add mints in world [w] (none for customers). *)
Definition minted_id (env : Env) (e : Entity) (w : World) : jsstring :=
  match e with
  | Customers => []
  | Repairs =>
      make_repair_id (currentMonth env (tick w)) (randomDraw env (S (tick w)))
  | Products => make_product_id (randomDraw env (tick w))
  | Technicians => make_tech_id (randomDraw env (tick w))
  end.

Lemma merged_of_lookup env e w payload k :
  merged_of env e w payload !! k
  = if decide (k = "updatedAt") then Some JServerTimestamp
    else if decide (k = creation_field e) then Some JServerTimestamp
    else if decide (secondary_field e = Some k)
         then Some (JString (minted_id env e w))
         else payload !! k.
Proof.
  destruct e; unfold merged_of, customerData, repairData, productData,
    technicianData, stamp, creation_field, secondary_field, minted_id;
    rewrite !lookup_insert;
    repeat (case_decide; subst; try congruence; try reflexivity).
Qed.

(** The stored record of a successful add. *)
Lemma add_of_stored ts env e payload w id :
  (add_of ts env e payload w).1 = Returned (Some id) ->
  exists t,
    collection (add_of ts env e payload w).2 (collection_of e) !! id
    = Some (resolve t (merged_of env e w payload))
    /\ collection (add_of ts env e payload w).2 (collection_of e)
       = <[id := resolve t (merged_of env e w payload)]>
           (collection w (collection_of e))
    /\ collection w (collection_of e) !! id = None
    /\ valid (validate_of ts e (merged_of env e w payload)) = true.
Proof.
  intros Hadded.
  destruct (add_of_cases ts env e payload w)
    as [(id' & w0 & Hrun & Hdb & Hid & Hfree & Hv)|[Hdb [Hr|(-> & Hv & Hr)]]].
  - rewrite Hrun in Hadded |- *. cbn [fst snd] in *.
    injection Hadded as ->. exists (serverTime env (tick w0)).
    assert (Hc : collection w0 (collection_of e) = collection w (collection_of e))
      by (unfold collection; now rewrite Hdb).
    rewrite collection_stored, decide_True by reflexivity.
    rewrite collection_sent, Hc.
    repeat split; try assumption. apply lookup_insert_eq.
  - congruence.
  - rewrite Hr in Hadded. discriminate.
Qed.


(** The sentinel and the timestamp it resolves to are alike to every test
    the validators make except the text of an email. *)
Lemma get_resolve_eq t o k :
  get (resolve t o) k = resolve_value t (get o k).
Proof.
  unfold get, resolve. rewrite lookup_fmap. now destruct (o !! k).
Qed.

Lemma validateRequired_resolve t v :
  validateRequired (resolve_value t v) = validateRequired v.
Proof. now destruct v. Qed.

Lemma validatePositiveNumber_resolve t v :
  validatePositiveNumber (resolve_value t v) = validatePositiveNumber v.
Proof. now destruct v. Qed.

Lemma isArray_resolve t v : isArray (resolve_value t v) = isArray v.
Proof. now destruct v. Qed.

Lemma array_length_resolve t v :
  array_length (resolve_value t v) = array_length v.
Proof. now destruct v. Qed.

Lemma typeof_resolve t v : typeof (resolve_value t v) = typeof v.
Proof. now destruct v. Qed.

Lemma truthy_resolve t v : truthy (resolve_value t v) = truthy v.
Proof. now destruct v. Qed.

Lemma validateRepair_resolve t o :
  validateRepair (resolve t o) = validateRepair o.
Proof.
  unfold validateRepair.
  now rewrite !get_resolve_eq, !validateRequired_resolve,
    !validatePositiveNumber_resolve, !isArray_resolve, !array_length_resolve.
Qed.

Lemma validateProduct_resolve t o :
  validateProduct (resolve t o) = validateProduct o.
Proof.
  unfold validateProduct.
  now rewrite !get_resolve_eq, !validateRequired_resolve,
    !validatePositiveNumber_resolve.
Qed.

Lemma validateCustomer_resolve ts t o :
  get o "email" <> JServerTimestamp ->
  validateCustomer ts (resolve t o) = validateCustomer ts o.
Proof.
  intros He. unfold validateCustomer.
  rewrite !get_resolve_eq, !validateRequired_resolve.
  rewrite (resolve_value_id t (get o "email"))
    by (destruct (get o "email"); simpl; congruence).
  reflexivity.
Qed.

Lemma validateTechnician_resolve ts t o :
  get o "email" <> JServerTimestamp ->
  validateTechnician ts (resolve t o) = validateTechnician ts o.
Proof.
  intros He. unfold validateTechnician.
  rewrite !get_resolve_eq, !validateRequired_resolve, !isArray_resolve,
    !array_length_resolve.
  rewrite (resolve_value_id t (get o "email"))
    by (destruct (get o "email"); simpl; congruence).
  now rewrite typeof_resolve.
Qed.

Lemma validate_of_resolve ts e t o :
  get o "email" <> JServerTimestamp ->
  validate_of ts e (resolve t o) = validate_of ts e o.
Proof.
  destruct e; simpl; auto using validateCustomer_resolve,
    validateRepair_resolve, validateProduct_resolve,
    validateTechnician_resolve.
Qed.

(** Every document of the entity's collection passes its validator. *)
Definition all_valid (ts : JsValue -> jsstring) (e : Entity) (w : World)
  : Prop :=
  forall id doc,
    collection w (collection_of e) !! id = Some doc ->
    valid (validate_of ts e doc) = true.

Lemma get_merged_email env e w payload :
  get (merged_of env e w payload) "email" = get payload "email".
Proof.
  unfold get. rewrite merged_of_lookup.
  destruct e; repeat (case_decide; try discriminate); reflexivity.
Qed.

(** X8: an add never puts an invalid record into its collection: if every
    stored record of the entity passes the entity's validator before an
    add, every stored record passes it afterwards (the email of the
    payload being a value of its own, not the timestamp sentinel). *)
Theorem add_keeps_collection_valid
    (ts : JsValue -> jsstring) (env : Env) (e : Entity)
    (payload : JsObject) (w : World)
    (Hemail : get payload "email" <> JServerTimestamp)
    (Hvalid : all_valid ts e w) :
  all_valid ts e (add_of ts env e payload w).2.
Proof.
  destruct (add_of_cases ts env e payload w)
    as [(id & w0 & Hrun & Hdb & Hid & Hfree & Hv)|[Hdb _]].
  - assert (Hadded : (add_of ts env e payload w).1 = Returned (Some id))
      by now rewrite Hrun.
    destruct (add_of_stored ts env e payload w id Hadded)
      as (t & _ & Hcoll & _ & _).
    intros id' doc. rewrite Hcoll, lookup_insert.
    case_decide; [|apply Hvalid].
    intros [= <-]. rewrite validate_of_resolve; [exact Hv|].
    now rewrite get_merged_email.
  - intros id doc. unfold collection. rewrite Hdb. apply Hvalid.
Qed.


Lemma seeded_customers_valid :
  all_valid (fun _ => []) Customers seeded_world.
Proof.
  intros id doc H.
  assert (Hc : collection seeded_world (collection_of Customers)
               = {[ "c1" := john_doe ]}) by (vm_compute; reflexivity).
  rewrite Hc in H. apply lookup_singleton_Some in H as [_ <-].
  vm_compute. reflexivity.
Qed.

Lemma add_keeps_collection_valid_witness :
  get contact_without_email "email" <> JServerTimestamp
  /\ all_valid (fun _ => []) Customers
       (addCustomer (fun _ => []) quiet_env contact_without_email
          seeded_world).2.
Proof.
  assert (He : get contact_without_email "email" <> JServerTimestamp)
    by (vm_compute; discriminate).
  split; [exact He|].
  exact (add_keeps_collection_valid (fun _ => []) quiet_env Customers
           contact_without_email seeded_world He seeded_customers_valid).
Defined.

(* ===================================================================== *)
(** * 24. Outcomes of an update                                            *)
(* ===================================================================== *)

(** The fields an update sends: the payload, stamped; [updateCustomer]
    sends the stored fields too. *)
Definition update_data (e : Entity) (old payload : JsObject) : JsObject :=
  stamp "updatedAt"
    (match e with
     | Customers => spread old payload
     | Repairs | Products | Technicians => payload
     end).

Lemma plain_update_cases env coll notFound line id payload w :
  (exists old,
      collection w coll !! id = Some old
      /\ (plain_update env coll notFound line id payload w).1 = Returned true
      /\ collection (plain_update env coll notFound line id payload w).2 coll
         = <[id := resolve (serverTime env (S (tick w)))
                           (stamp "updatedAt" payload) ∪ old]>
             (collection w coll))
  \/ ((plain_update env coll notFound line id payload w).1 = Returned false
      /\ db (plain_update env coll notFound line id payload w).2 = db w).
Proof.
  rewrite plain_update_run. cbn zeta.
  destruct (rejects env (tick w)); [right; split; reflexivity|].
  destruct (collection w coll !! id) as [old|] eqn:E;
    [|right; split; reflexivity].
  destruct (rejects env (S (tick w))); [right; split; reflexivity|].
  left. exists old. cbn [fst snd]. repeat split.
  now rewrite collection_stored, decide_True by reflexivity.
Qed.

Lemma update_of_cases ts env e id payload w :
  (exists old t,
      collection w (collection_of e) !! id = Some old
      /\ (update_of ts env e id payload w).1 = Returned true
      /\ collection (update_of ts env e id payload w).2 (collection_of e)
         = <[id := resolve t (update_data e old payload) ∪ old]>
             (collection w (collection_of e))
      /\ (e = Customers ->
          valid (validateCustomer ts (update_data e old payload)) = true))
  \/ ((update_of ts env e id payload w).1 = Returned false
      /\ db (update_of ts env e id payload w).2 = db w).
Proof.
  destruct e; simpl update_of; simpl collection_of; unfold update_data.
  - rewrite updateCustomer_run. cbn zeta.
    destruct (rejects env (tick w)); [right; split; reflexivity|].
    destruct (collection w "customers" !! id) as [old|] eqn:E;
      [|right; split; reflexivity].
    destruct (valid (validateCustomer ts _)) eqn:V;
      [|right; split; reflexivity].
    cbn [negb].
    destruct (rejects env (S (tick w))); [right; split; reflexivity|].
    left. exists old, (serverTime env (S (tick w))). cbn [fst snd].
    repeat split; auto.
    now rewrite collection_stored, decide_True by reflexivity.
  - rewrite updateRepair_plain.
    destruct (plain_update_cases env "repairs" "Repair not found"
                "Error updating repair:" id payload w)
      as [(old & H1 & H2 & H3)|H]; [left|right; exact H].
    exists old, (serverTime env (S (tick w))). repeat split; auto.
    discriminate.
  - rewrite updateProduct_plain.
    destruct (plain_update_cases env "products" "Product not found"
                "Error updating product:" id payload w)
      as [(old & H1 & H2 & H3)|H]; [left|right; exact H].
    exists old, (serverTime env (S (tick w))). repeat split; auto.
    discriminate.
  - rewrite updateTechnician_plain.
    destruct (plain_update_cases env "technicians" "Technician not found"
                "Error updating technician:" id payload w)
      as [(old & H1 & H2 & H3)|H]; [left|right; exact H].
    exists old, (serverTime env (S (tick w))). repeat split; auto.
    discriminate.
Qed.

(** X9: an update never throws and has one of two outcomes: it returns
    [true], the document existed, and it now holds the sent fields over
    its former ones; or it returns [false] and the store is as it was. *)
Theorem update_of_outcomes
    (ts : JsValue -> jsstring) (env : Env) (e : Entity)
    (id : string) (payload : JsObject) (w : World) :
  (exists old t,
      (update_of ts env e id payload w).1 = Returned true
      /\ collection w (collection_of e) !! id = Some old
      /\ collection (update_of ts env e id payload w).2 (collection_of e)
           !! id
         = Some (resolve t (update_data e old payload) ∪ old))
  \/ ((update_of ts env e id payload w).1 = Returned false
      /\ db (update_of ts env e id payload w).2 = db w).
Proof.
  destruct (update_of_cases ts env e id payload w)
    as [(old & t & H1 & H2 & H3 & _)|H]; [left|right; exact H].
  exists old, t. repeat split; auto. rewrite H3. apply lookup_insert_eq.
Qed.



(** X11: an update of an id that is not in the collection returns
    [false]: the store is as it was, no write is sent (whatever was sent
    is a read), and one line is written to the console. *)
Theorem update_absent_id_is_refused
    (ts : JsValue -> jsstring) (env : Env) (e : Entity)
    (id : string) (payload : JsObject) (w : World)
    (Habsent : collection w (collection_of e) !! id = None) :
  (update_of ts env e id payload w).1 = Returned false
  /\ db (update_of ts env e id payload w).2 = db w
  /\ (exists reads,
        requests (update_of ts env e id payload w).2 = reads ++ requests w
        /\ Forall (fun r => is_write r = false) reads)
  /\ length (console (update_of ts env e id payload w).2)
     = S (length (console w)).
Proof.
  destruct (update_of_not_found ts env e id payload w Habsent)
    as (H1 & H2 & H3).
  split; [assumption|]. split; [assumption|]. split.
  - exists [ReqGetDoc (collection_of e) id]. split; [exact H3|].
    repeat constructor.
  - destruct e; simpl update_of; simpl collection_of in *;
      rewrite ?updateRepair_plain, ?updateProduct_plain,
        ?updateTechnician_plain, ?plain_update_run, ?updateCustomer_run;
      cbn zeta; rewrite Habsent;
      destruct (rejects env (tick w)); reflexivity.
Qed.

Lemma update_absent_id_is_refused_witness :
  collection seeded_world (collection_of Repairs) !! "nope" = None
  /\ (updateRepair quiet_env "nope" blank_brand seeded_world).1
     = Returned false.
Proof.
  assert (H : collection seeded_world (collection_of Repairs) !! "nope" = None)
    by (vm_compute; reflexivity).
  split; [exact H|].
  exact (proj1 (update_absent_id_is_refused (fun _ => []) quiet_env Repairs
                  "nope" blank_brand seeded_world H)).
Defined.

(* ===================================================================== *)
(** * 25. Invariants of the store                                          *)
(* ===================================================================== *)






Lemma seeded_world_resolved : store_ok seeded_world.
Proof.
  intros coll id doc H.
  assert (Hdoc : doc = john_doe \/ doc = stored_repair).
  { unfold collection, seeded_world in H. cbn [db] in H.
    destruct (decide (coll = "repairs")) as [->|Hr].
    - rewrite lookup_insert_eq in H. cbn in H.
      apply lookup_singleton_Some in H as [_ <-]. auto.
    - rewrite lookup_insert_ne in H by congruence.
      destruct (decide (coll = "customers")) as [->|Hc].
      + rewrite lookup_singleton_eq in H. cbn in H.
        apply lookup_singleton_Some in H as [_ <-]. auto.
      + rewrite lookup_singleton_ne in H by congruence. cbn in H.
        now rewrite lookup_empty in H. }
  destruct Hdoc as [->| ->];
    unfold no_sentinel, john_doe, stored_repair, iphone_repair;
    repeat (apply map_Forall_insert_2; [reflexivity|]);
    apply map_Forall_empty.
Qed.


(** The stored fields are among the fields [updateCustomer] sends. *)
Lemma customer_update_covers t (old payload : JsObject) :
  resolve t (update_data Customers old payload) ∪ old
  = resolve t (update_data Customers old payload).
Proof.
  apply map_eq. intros k.
  destruct (resolve t (update_data Customers old payload) !! k) as [v|] eqn:E.
  - now apply lookup_union_Some_l.
  - rewrite lookup_union_r by exact E.
    unfold resolve, update_data, stamp, spread in E.
    rewrite lookup_fmap in E. rewrite lookup_insert in E.
    case_decide; [discriminate|].
    rewrite fmap_None in E. apply lookup_union_None in E as [_ E].
    exact E.
Qed.

(** X13: [updateCustomer] never puts an invalid customer into the
    collection: if every stored customer passes [validateCustomer] and
    holds no sentinel before the call, every stored customer passes it
    afterwards (the email of the payload being a value of its own). *)
Theorem updateCustomer_keeps_collection_valid
    (ts : JsValue -> jsstring) (env : Env)
    (id : string) (payload : JsObject) (w : World)
    (Hemail : get payload "email" <> JServerTimestamp)
    (Hok : store_ok w)
    (Hvalid : all_valid ts Customers w) :
  all_valid ts Customers (updateCustomer ts env id payload w).2.
Proof.
  destruct (update_of_cases ts env Customers id payload w)
    as [(old & t & Hold & _ & Hcoll & Hv)|[_ Hdb]].
  - intros i doc. simpl update_of in Hcoll. simpl collection_of in *.
    rewrite Hcoll, lookup_insert. case_decide; [|apply Hvalid].
    intros [= <-]. rewrite customer_update_covers.
    simpl validate_of. rewrite validateCustomer_resolve; [now apply Hv|].
    unfold update_data, stamp, spread.
    rewrite get_insert_ne by discriminate.
    unfold get in *. rewrite lookup_union.
    destruct (payload !! "email") as [v|] eqn:Ep.
    + destruct (old !! "email"); exact Hemail.
    + destruct (old !! "email") as [v|] eqn:Eo; [|discriminate].
      cbn. intros ->. specialize (Hok _ _ _ Hold "email" _ Eo).
      discriminate.
  - intros i doc. unfold collection. simpl update_of in Hdb.
    rewrite Hdb. apply Hvalid.
Qed.

Lemma updateCustomer_keeps_collection_valid_witness :
  get ({[ "name" := JString (lit "   ") ]} : JsObject) "email"
  <> JServerTimestamp
  /\ all_valid (fun _ => []) Customers
       (updateCustomer (fun _ => []) quiet_env "c1"
          {[ "name" := JString (lit "   ") ]} seeded_world).2.
Proof.
  assert (He : get ({[ "name" := JString (lit "   ") ]} : JsObject) "email"
               <> JServerTimestamp) by (vm_compute; discriminate).
  split; [exact He|].
  exact (updateCustomer_keeps_collection_valid (fun _ => []) quiet_env "c1"
           _ seeded_world He seeded_world_resolved seeded_customers_valid).
Defined.

(* ===================================================================== *)
(** * 26. Reading                                                          *)
(* ===================================================================== *)

(** The read functions of the repositories. *)
Inductive ReadOp : Type :=
  | ListAll (e : Entity)
  | RepairsByStatus (status : jsstring)
  | RepairsByCustomerId (customerId : jsstring)
  | ProductsByCategory (category : jsstring)
  | AvailableTechnicians.

Definition run_read (env : Env) (op : ReadOp) : M (list JsObject) :=
  match op with
  | ListAll e => list_of env e
  | RepairsByStatus s => getRepairsByStatus env s
  | RepairsByCustomerId c => getRepairsByCustomerId env c
  | ProductsByCategory c => getProductsByCategory env c
  | AvailableTechnicians => getAvailableTechnicians env
  end.

(** The request a read sends. *)
Definition request_of (op : ReadOp) : Request :=
  match op with
  | ListAll e => ReqGetDocs (collection_of e) None
  | RepairsByStatus s => ReqGetDocs "repairs" (Some ("status", QString s))
  | RepairsByCustomerId c =>
      ReqGetDocs "repairs" (Some ("customer_id", QString c))
  | ProductsByCategory c =>
      ReqGetDocs "products" (Some ("category", QString c))
  | AvailableTechnicians =>
      ReqGetDocs "technicians" (Some ("availability", QBool true))
  end.

Lemma read_run env coll flt line w :
  try_catch
    (let! querySnapshot := getDocs env coll flt in
     ret (with_id <$> querySnapshot))
    (fun _ => do! console_error line in ret []) w
  = if rejects env (tick w)
    then (Returned [], logged line (sent (ReqGetDocs coll flt) w))
    else (Returned (with_id <$> filter (fun d => passes flt d.2 = true)
                                       (map_to_list (collection w coll))),
          sent (ReqGetDocs coll flt) w).
Proof.
  unfold try_catch, bind. rewrite getDocs_run.
  now destruct (rejects env (tick w)).
Qed.

Lemma run_read_run env op w :
  exists coll flt line,
    request_of op = ReqGetDocs coll flt
    /\ run_read env op w
       = if rejects env (tick w)
         then (Returned [], logged line (sent (ReqGetDocs coll flt) w))
         else (Returned (with_id <$> filter (fun d => passes flt d.2 = true)
                                            (map_to_list (collection w coll))),
               sent (ReqGetDocs coll flt) w).
Proof.
  destruct op as [[]| | | |]; do 3 eexists; (split; [reflexivity|]);
    apply read_run.
Qed.

Lemma run_read_returns env op w :
  exists result, (run_read env op w).1 = Returned result.
Proof.
  destruct (run_read_run env op w) as (coll & flt & line & _ & ->).
  destruct (rejects env (tick w)); cbn; eauto.
Qed.

(** X14: a read never throws, never changes the store, and sends exactly
    one request; when the service rejects that request the result is the
    empty sequence and one line goes to the console. *)
Theorem reads_change_nothing (env : Env) (op : ReadOp) (w : World) :
  (exists result, (run_read env op w).1 = Returned result)
  /\ db (run_read env op w).2 = db w
  /\ requests (run_read env op w).2 = request_of op :: requests w
  /\ (if rejects env (tick w)
      then (run_read env op w).1 = Returned []
           /\ length (console (run_read env op w).2) = S (length (console w))
      else console (run_read env op w).2 = console w).
Proof.
  destruct (run_read_run env op w) as (coll & flt & line & Hreq & ->).
  rewrite Hreq. destruct (rejects env (tick w)); cbn; eauto 6.
Qed.

Lemma list_of_accepted env e w :
  rejects env (tick w) = false ->
  exists result,
    (list_of env e w).1 = Returned result
    /\ length result = size (collection w (collection_of e))
    /\ forall id doc,
         collection w (collection_of e) !! id = Some doc ->
         with_id (id, doc) ∈ result.
Proof.
  intros Haccepted.
  destruct (run_read_run env (ListAll e) w) as (coll & flt & line & Hreq & Hrun).
  simpl in Hreq. injection Hreq as <- <-. simpl run_read in Hrun.
  rewrite Hrun, Haccepted. cbn [fst]. rewrite filter_all.
  eexists. split; [reflexivity|]. split.
  - now rewrite length_fmap, length_map_to_list.
  - intros id doc Hdoc. apply list_elem_of_fmap. exists (id, doc).
    split; [reflexivity|]. now apply elem_of_map_to_list.
Qed.

(** X15: a listing the service accepts returns one object per stored
    document of the collection, each stored document appearing with its
    id. *)
Theorem listing_is_complete (env : Env) (e : Entity) (w : World)
    (Haccepted : rejects env (tick w) = false) :
  exists result,
    (list_of env e w).1 = Returned result
    /\ length result = size (collection w (collection_of e))
    /\ forall id doc,
         collection w (collection_of e) !! id = Some doc ->
         with_id (id, doc) ∈ result.
Proof.
  destruct (list_of_accepted env e w Haccepted) as (result & Hr & Hlen & Hin).
  exists result. repeat split; assumption.
Qed.

Lemma listing_is_complete_witness :
  rejects quiet_env (tick seeded_world) = false
  /\ exists result,
       (getRepairs quiet_env seeded_world).1 = Returned result
       /\ length result = 1.
Proof.
  split; [reflexivity|].
  destruct (listing_is_complete quiet_env Repairs seeded_world eq_refl)
    as (result & Hr & Hlen & _).
  exists result. split; [exact Hr|]. rewrite Hlen. vm_compute. reflexivity.
Defined.

(** X16: the object a read builds for a document holds every field of
    the document; its [id] is the document id unless the document has a
    field named [id], which then takes its place. *)
Theorem with_id_fields (id : string) (doc : JsObject) (k : string) :
  with_id (id, doc) !! k
  = match doc !! k with
    | Some v => Some v
    | None => if decide (k = "id") then Some (JString (lit id)) else None
    end.
Proof.
  unfold with_id, spread. cbn [fst snd].
  destruct (doc !! k) as [v|] eqn:E.
  - now apply lookup_union_Some_l.
  - rewrite lookup_union_r by exact E.
    case_decide as Hk; [subst; apply lookup_singleton_eq|].
    apply lookup_singleton_ne. congruence.
Qed.

Lemma getCustomerById_run env id w :
  getCustomerById env id w
  = if rejects env (tick w)
    then (Returned None,
          logged "Error getting customer:"
                 (sent (ReqGetDoc "customers" id) w))
    else (Returned ((fun data => with_id (id, data))
                    <$> collection w "customers" !! id),
          sent (ReqGetDoc "customers" id) w).
Proof.
  unfold getCustomerById, try_catch, bind. rewrite getDoc_run.
  destruct (rejects env (tick w)); [reflexivity|].
  now destruct (collection w "customers" !! id).
Qed.

(** X17: a customer that [addCustomer] has just added is read back by
    [getCustomerById] under the returned id, with the fields that were
    stored and that id; an add followed by a listing, for any entity,
    finds the new record and one record more than before. *)
Theorem add_then_read
    (ts : JsValue -> jsstring) (env : Env) (e : Entity)
    (payload : JsObject) (w : World) (id : string)
    (Hadded : (add_of ts env e payload w).1 = Returned (Some id))
    (Haccepted : rejects env (tick (add_of ts env e payload w).2) = false) :
  exists doc listing,
    collection (add_of ts env e payload w).2 (collection_of e) !! id
    = Some doc
    /\ (list_of env e (add_of ts env e payload w).2).1 = Returned listing
    /\ with_id (id, doc) ∈ listing
    /\ length listing = S (size (collection w (collection_of e)))
    /\ (e = Customers ->
        (getCustomerById env id (add_of ts env e payload w).2).1
        = Returned (Some (with_id (id, doc)))).
Proof.
  destruct (add_of_stored ts env e payload w id Hadded)
    as (t & Hdoc & Hcoll & Hfree & _).
  destruct (list_of_accepted env e _ Haccepted)
    as (listing & Hl & Hlen & Hin).
  exists (resolve t (merged_of env e w payload)), listing.
  repeat split; auto.
  - rewrite Hlen, Hcoll. now apply map_size_insert_None.
  - intros ->. rewrite getCustomerById_run, Haccepted.
    simpl collection_of in Hdoc. rewrite Hdoc. reflexivity.
Qed.

Lemma add_then_read_witness :
  exists id doc,
    (addCustomer (fun _ => []) quiet_env contact_without_email
       seeded_world).1 = Returned (Some id)
    /\ (getCustomerById quiet_env id
          (addCustomer (fun _ => []) quiet_env contact_without_email
             seeded_world).2).1
       = Returned (Some (with_id (id, doc))).
Proof.
  eexists.
  assert (H : (add_of (fun _ => []) quiet_env Customers contact_without_email
                 seeded_world).1 = Returned (Some _))
    by (vm_compute; reflexivity).
  destruct (add_then_read (fun _ => []) quiet_env Customers
              contact_without_email seeded_world _ H eq_refl)
    as (doc & listing & _ & _ & _ & _ & Hget).
  exists doc. split; [exact H|]. exact (Hget eq_refl).
Defined.

(* ===================================================================== *)
(** * 27. The other data hooks                                             *)
(* ===================================================================== *)

(** The eight data hooks with their query parameter. *)
Inductive DataHook : Type :=
  | UseCustomers
  | UseRepairs
  | UseRepairsByStatus (status : jsstring)
  | UseRepairsByCustomerId (customerId : jsstring)
  | UseProducts
  | UseProductsByCategory (category : jsstring)
  | UseTechnicians
  | UseAvailableTechnicians.

(** The effect of each hook: the four listings and
    [useAvailableTechnicians] fetch unconditionally, like
    [useRepairsByStatus]. *)
Definition effect_of (env : Env) (h : DataHook)
  : HookState -> World -> HookState * World :=
  match h with
  | UseCustomers => fetch (getCustomers env)
  | UseRepairs => fetch (getRepairs env)
  | UseRepairsByStatus s => useRepairsByStatus_effect env s
  | UseRepairsByCustomerId c => useRepairsByCustomerId_effect env c
  | UseProducts => fetch (getProducts env)
  | UseProductsByCategory c => useProductsByCategory_effect env c
  | UseTechnicians => fetch (getTechnicians env)
  | UseAvailableTechnicians => fetch (getAvailableTechnicians env)
  end.

(** The repository read behind each hook, and whether the hook skips it
    for this parameter. *)
Definition read_of (h : DataHook) : ReadOp :=
  match h with
  | UseCustomers => ListAll Customers
  | UseRepairs => ListAll Repairs
  | UseRepairsByStatus s => RepairsByStatus s
  | UseRepairsByCustomerId c => RepairsByCustomerId c
  | UseProducts => ListAll Products
  | UseProductsByCategory c => ProductsByCategory c
  | UseTechnicians => ListAll Technicians
  | UseAvailableTechnicians => AvailableTechnicians
  end.

Definition skips (h : DataHook) : bool :=
  match h with
  | UseRepairsByCustomerId c => negb (truthy (JString c))
  | UseProductsByCategory c => negb (truthy (JString c))
  | _ => false
  end.

Lemma effect_of_fetch env h st w :
  skips h = false -> effect_of env h st w = fetch (run_read env (read_of h)) st w.
Proof.
  destruct h as [| |s|[|a c]| |[|a c]| |]; intros H;
    try discriminate H; reflexivity.
Qed.

Lemma effect_of_skip env h st w :
  skips h = true -> effect_of env h st w = (setLoading false (setData [] st), w).
Proof.
  destruct h as [| |s|[|a c]| |[|a c]| |]; intros H;
    try discriminate H; reflexivity.
Qed.

(** X18: when the effect of a data hook has run, [loading] is false;
    [data] is what the repository read returned (the empty sequence if the
    hook skipped the read); and [error] is never set: it is [null] after a
    read and untouched after a skip.  The [catch] branch of the hooks is
    never taken, because no repository read throws. *)
Theorem hook_effect_settles (env : Env) (h : DataHook)
    (st : HookState) (w : World) :
  loading (effect_of env h st w).1 = false
  /\ (if skips h
      then data (effect_of env h st w).1 = []
           /\ error (effect_of env h st w).1 = error st
           /\ (effect_of env h st w).2 = w
      else (run_read env (read_of h) w).1
           = Returned (data (effect_of env h st w).1)
           /\ error (effect_of env h st w).1 = None
           /\ (effect_of env h st w).2 = (run_read env (read_of h) w).2).
Proof.
  destruct (skips h) eqn:Hs.
  - rewrite effect_of_skip by exact Hs. repeat split.
  - rewrite effect_of_fetch by exact Hs. unfold fetch.
    destruct (run_read_returns env (read_of h) w) as [result Hr].
    destruct (run_read env (read_of h) w) as [[d|err] w'] eqn:E;
      cbn [fst snd] in *; [repeat split|discriminate].
Qed.

(* ===================================================================== *)
(** * 28. The security rules                                               *)
(* ===================================================================== *)

Module Rules.

(** What a rule sees of a request: the authenticated user id
    ([request.auth], [None] for [null]) and the document as it would be
    after the write ([request.resource.data]). *)
Record Access : Type := mkAccess {
  auth_uid : option string;
  resource_data : JsObject
}.

(** The operations a rule names; [write] is create, update and delete. *)
Inductive Method : Type := Read | Create | Update | Delete.

(** [function isAuthenticated()] *)
Definition isAuthenticated (a : Access) : bool :=
  match auth_uid a with Some _ => true | None => false end.

(** [get(/users/$(uid)).data.role == r], with
    [exists(/users/$(uid))] before it: false when the document or the
    field is missing. *)
Definition role_is (users : gmap string JsObject) (uid : string)
    (r : string) : bool :=
  match users !! uid with
  | Some doc =>
      match doc !! "role" with
      | Some (JString s) => bool_decide (s = lit r)
      | _ => false
      end
  | None => false
  end.

(** [function isAdmin()] *)
Definition isAdmin (users : gmap string JsObject) (a : Access) : bool :=
  match auth_uid a with
  | Some uid => role_is users uid "admin"
  | None => false
  end.

(** [function isStaff()] *)
Definition isStaff (users : gmap string JsObject) (a : Access) : bool :=
  match auth_uid a with
  | Some uid => role_is users uid "staff" || role_is users uid "admin"
  | None => false
  end.

(** ['k' in m && m.k is string && m.k.size() > 0] *)
Definition nonempty_string (m : JsObject) (k : string) : bool :=
  match m !! k with
  | Some (JString (_ :: _)) => true
  | _ => false
  end.

(** ['k' in m] *)
Definition has (m : JsObject) (k : string) : bool :=
  match m !! k with Some _ => true | None => false end.

(** [\s] of the rules' regular expressions (RE2): tab, line feed, form
    feed, carriage return, space. *)
Definition is_re2_space (c : N) : bool :=
  ((c =? 0x09) || (c =? 0x0A) || (c =? 0x0C) || (c =? 0x0D) || (c =? 0x20))%N.

Definition not_re2_space_or_at (c : N) : bool :=
  negb (is_re2_space c || (c =? 0x40)%N).

(** ['^[^\\s@]+@[^\\s@]+\\.[^\\s@]+$'] *)
Definition emailPattern : RegExp :=
  Seq (Plus (Class not_re2_space_or_at))
      (Seq (Class (is_char 0x40))
           (Seq (Plus (Class not_re2_space_or_at))
                (Seq (Class (is_char 0x2E))
                     (Plus (Class not_re2_space_or_at))))).

(** [(!('email' in m) || m.email.matches(pattern))]: [matches] is a match
    of the whole string; on a value that is not a string it is an error,
    which denies. *)
Definition email_ok (m : JsObject) : bool :=
  match m !! "email" with
  | None => true
  | Some (JString s) => full_match emailPattern s
  | Some _ => false
  end.

(** [function isValidCustomer(customer)] *)
Definition isValidCustomer (customer : JsObject) : bool :=
  negb (Nat.eqb (size customer) 0)
  && nonempty_string customer "name"
  && nonempty_string customer "phone"
  && email_ok customer
  && has customer "address".

(** ['status' in repair && repair.status is string && (repair.status ==
    'pending' || repair.status == 'in-progress' || repair.status ==
    'completed')] *)
Definition status_ok (repair : JsObject) : bool :=
  match repair !! "status" with
  | Some (JString s) =>
      bool_decide (s = lit "pending")
      || bool_decide (s = lit "in-progress")
      || bool_decide (s = lit "completed")
  | _ => false
  end.

(** ['k' in m && m.k is number && m.k >= 0] *)
Definition nonnegative_number (m : JsObject) (k : string) : bool :=
  match m !! k with
  | Some (JNumber x) => ge_zero x
  | _ => false
  end.

(** ['k' in m && m.k is list && m.k.size() > 0] *)
Definition nonempty_list (m : JsObject) (k : string) : bool :=
  match m !! k with
  | Some (JArray (_ :: _)) => true
  | _ => false
  end.

(** ['k' in m && m.k is bool] *)
Definition is_bool (m : JsObject) (k : string) : bool :=
  match m !! k with
  | Some (JBool _) => true
  | _ => false
  end.

(** [function isValidRepair(repair)] *)
Definition isValidRepair (repair : JsObject) : bool :=
  negb (Nat.eqb (size repair) 0)
  && nonempty_string repair "customer_id"
  && nonempty_string repair "device_type"
  && nonempty_string repair "brand"
  && nonempty_string repair "model"
  && status_ok repair
  && nonnegative_number repair "cost"
  && nonempty_list repair "tasks".

(** [function isValidProduct(product)] *)
Definition isValidProduct (product : JsObject) : bool :=
  negb (Nat.eqb (size product) 0)
  && nonempty_string product "name"
  && nonempty_string product "category"
  && nonnegative_number product "quantity"
  && nonnegative_number product "price"
  && nonempty_string product "supplier".

(** [function isValidTechnician(technician)] *)
Definition isValidTechnician (technician : JsObject) : bool :=
  negb (Nat.eqb (size technician) 0)
  && nonempty_string technician "name"
  && nonempty_list technician "specialization"
  && is_bool technician "availability"
  && nonempty_string technician "phone"
  && email_ok technician.

(** The [match] blocks: whether [method] on document [docId] of
    collection [coll] is allowed.  A path no block matches is denied. *)
Definition allow (users : gmap string JsObject) (coll docId : string)
    (method : Method) (a : Access) : bool :=
  if String.eqb coll "customers" then
    match method with
    | Read => isAuthenticated a
    | Create | Update => isStaff users a && isValidCustomer (resource_data a)
    | Delete => isAdmin users a
    end
  else if String.eqb coll "repairs" then
    match method with
    | Read => isAuthenticated a
    | Create | Update => isStaff users a && isValidRepair (resource_data a)
    | Delete => isAdmin users a
    end
  else if String.eqb coll "products" then
    match method with
    | Read => isAuthenticated a
    | Create | Update => isStaff users a && isValidProduct (resource_data a)
    | Delete => isAdmin users a
    end
  else if String.eqb coll "technicians" then
    match method with
    | Read => isAuthenticated a
    | Create | Update =>
        isAdmin users a && isValidTechnician (resource_data a)
    | Delete => isAdmin users a
    end
  else if String.eqb coll "users" then
    match method with
    | Read => isAuthenticated a && bool_decide (auth_uid a = Some docId)
    | Create | Update | Delete =>
        isAdmin users a
        || (isAuthenticated a && bool_decide (auth_uid a = Some docId))
    end
  else false.

End Rules.

(* ===================================================================== *)
(** * 29. What the security rules allow                                    *)
(* ===================================================================== *)

Import Rules.

Lemma isAdmin_isStaff users a : isAdmin users a = true -> isStaff users a = true.
Proof.
  unfold isAdmin, isStaff. destruct (auth_uid a); [|discriminate].
  intros ->. apply orb_true_r.
Qed.

Lemma isStaff_isAuthenticated users a :
  isStaff users a = true -> isAuthenticated a = true.
Proof.
  unfold isStaff, isAuthenticated. now destruct (auth_uid a).
Qed.

(** X19: a request without an authenticated user is denied every
    operation on every document of every collection. *)
Theorem unauthenticated_is_denied
    (users : gmap string JsObject) (coll docId : string)
    (method : Method) (data : JsObject) :
  allow users coll docId method
        {| auth_uid := None; resource_data := data |} = false.
Proof.
  unfold allow.
  repeat match goal with
         | |- context [String.eqb coll ?s] => destruct (String.eqb coll s)
         end; destruct method; reflexivity.
Qed.

(** X20: an administrator may do whatever the rules allow to anyone
    sending the same request: an operation allowed under any table of
    roles is allowed under every table in which the requester is
    [admin]. *)
Theorem admin_may_do_what_anyone_may
    (users users' : gmap string JsObject) (coll docId : string)
    (method : Method) (a : Access)
    (Hallowed : allow users coll docId method a = true)
    (Hadmin : isAdmin users' a = true) :
  allow users' coll docId method a = true.
Proof.
  pose proof (isAdmin_isStaff _ _ Hadmin) as Hstaff.
  pose proof (isStaff_isAuthenticated _ _ Hstaff) as Hauth.
  unfold allow in *.
  repeat match goal with
         | |- context [String.eqb coll ?s] => destruct (String.eqb coll s)
         end; try discriminate; destruct method;
    rewrite ?Hadmin, ?Hstaff, ?Hauth in *; try reflexivity;
    rewrite ?andb_true_iff in *; tauto.
Qed.

Definition one_admin : gmap string JsObject :=
  {[ "u1" := ({[ "role" := JString (lit "admin") ]} : JsObject) ]}.

Lemma admin_may_do_what_anyone_may_witness :
  allow ∅ "users" "u1" Update
        {| auth_uid := Some "u1"; resource_data := ∅ |} = true
  /\ allow one_admin "users" "u1" Update
           {| auth_uid := Some "u1"; resource_data := ∅ |} = true.
Proof.
  assert (H1 : allow ∅ "users" "u1" Update
                 {| auth_uid := Some "u1"; resource_data := ∅ |} = true)
    by (vm_compute; reflexivity).
  assert (H2 : isAdmin one_admin
                 {| auth_uid := Some "u1"; resource_data := ∅ |} = true)
    by (vm_compute; reflexivity).
  split; [exact H1|].
  exact (admin_may_do_what_anyone_may ∅ one_admin "users" "u1" Update _ H1 H2).
Defined.

(** X21: a requester who is not an administrator can write no technician
    and can delete nothing but the [users] document of their own id. *)
Theorem non_admin_limits
    (users : gmap string JsObject) (coll docId : string)
    (method : Method) (a : Access)
    (Hnot : isAdmin users a = false) :
  (method <> Read -> allow users "technicians" docId method a = false)
  /\ (allow users coll docId Delete a = true ->
      coll = "users" /\ auth_uid a = Some docId).
Proof.
  split.
  - intros Hm. unfold allow. simpl. rewrite Hnot.
    destruct method; try reflexivity. congruence.
  - unfold allow.
    repeat match goal with
           | |- context [String.eqb coll ?s] =>
               destruct (String.eqb_spec coll s)
           end; rewrite ?Hnot; try discriminate.
    simpl. rewrite andb_true_iff, bool_decide_eq_true. tauto.
Qed.

Definition staff_member : gmap string JsObject :=
  {[ "u2" := ({[ "role" := JString (lit "staff") ]} : JsObject) ]}.

Lemma non_admin_limits_witness :
  isAdmin staff_member {| auth_uid := Some "u2"; resource_data := ∅ |} = false
  /\ allow staff_member "technicians" "t1" Update
           {| auth_uid := Some "u2"; resource_data := ∅ |} = false.
Proof.
  assert (H : isAdmin staff_member
                {| auth_uid := Some "u2"; resource_data := ∅ |} = false)
    by (vm_compute; reflexivity).
  split; [exact H|].
  exact (proj1 (non_admin_limits staff_member "technicians" "t1" Update _ H)
               ltac:(discriminate)).
Defined.

(** X22: any authenticated user may write the [users] document of their
    own id with any content; once it holds the role [admin], that user
    is an administrator, who may delete any document of the four data
    collections. *)
Theorem user_may_grant_itself_admin
    (users : gmap string JsObject) (uid : string) (data other : JsObject)
    (coll docId : string)
    (Hrole : data !! "role" = Some (JString (lit "admin")))
    (Hcoll : coll ∈ ["customers"; "repairs"; "products"; "technicians"]) :
  allow users "users" uid Create
        {| auth_uid := Some uid; resource_data := data |} = true
  /\ allow users "users" uid Update
          {| auth_uid := Some uid; resource_data := data |} = true
  /\ isAdmin (<[uid := data]> users)
             {| auth_uid := Some uid; resource_data := other |} = true
  /\ allow (<[uid := data]> users) coll docId Delete
           {| auth_uid := Some uid; resource_data := other |} = true.
Proof.
  assert (Hown : forall m, m <> Read ->
            allow users "users" uid m
                  {| auth_uid := Some uid; resource_data := data |} = true).
  { intros m Hm. unfold allow. simpl.
    rewrite bool_decide_eq_true_2 by reflexivity.
    destruct m; try congruence; apply orb_true_r. }
  assert (Hadmin : isAdmin (<[uid := data]> users)
             {| auth_uid := Some uid; resource_data := other |} = true).
  { unfold isAdmin, role_is. simpl. rewrite lookup_insert_eq, Hrole.
    now apply bool_decide_eq_true_2. }
  repeat split; try (apply Hown; discriminate); [exact Hadmin|].
  unfold allow.
  repeat (apply elem_of_cons in Hcoll as [->|Hcoll]; [simpl; exact Hadmin|]).
  now apply elem_of_nil in Hcoll.
Qed.

Lemma user_may_grant_itself_admin_witness :
  allow staff_member "users" "u2" Update
        {| auth_uid := Some "u2";
           resource_data := {[ "role" := JString (lit "admin") ]} |} = true
  /\ allow (<["u2" := {[ "role" := JString (lit "admin") ]}]> staff_member)
           "customers" "c1" Delete
           {| auth_uid := Some "u2"; resource_data := ∅ |} = true.
Proof.
  destruct (user_may_grant_itself_admin staff_member "u2"
              {[ "role" := JString (lit "admin") ]} ∅ "customers" "c1"
              (lookup_singleton_eq _ _)
              ltac:(apply elem_of_cons; left; reflexivity))
    as (_ & H1 & _ & H2).
  split; [exact H1 | exact H2].
Defined.

(* --------------------------------------------------------------------- *)
(** ** The rule validators against the validators of the program         *)
(* --------------------------------------------------------------------- *)

Lemma get_Some (o : JsObject) k v :
  get o k = v -> v <> JUndefined -> o !! k = Some v.
Proof.
  unfold get. destruct (o !! k); simpl; intros <-; congruence.
Qed.

Lemma size_nonzero (o : JsObject) k v :
  o !! k = Some v -> negb (Nat.eqb (size o) 0) = true.
Proof.
  intros H. destruct (size o) eqn:E; [|reflexivity].
  apply map_size_empty_iff in E. subst. now rewrite lookup_empty in H.
Qed.

Lemma nonempty_string_lookup (o : JsObject) k s :
  o !! k = Some (JString s) ->
  nonempty_string o k = match s with [] => false | _ => true end.
Proof. unfold nonempty_string. now intros ->. Qed.

Lemma not_blank_nonempty s :
  blank s = false -> match s with [] => false | _ :: _ => true end = true.
Proof. now destruct s. Qed.

Lemma listed_not_blank s :
  s ∈ listed_statuses -> blank s = false.
Proof.
  unfold listed_statuses. intros H.
  repeat (apply elem_of_cons in H as [->|H]; [vm_compute; reflexivity|]).
  now apply elem_of_nil in H.
Qed.

Lemma status_ok_lookup (o : JsObject) s :
  o !! "status" = Some (JString s) ->
  status_ok o = bool_decide (s ∈ listed_statuses).
Proof.
  unfold status_ok, listed_statuses. intros ->.
  destruct (decide (s = lit "pending")) as [->|H1]; [reflexivity|].
  destruct (decide (s = lit "in-progress")) as [->|H2]; [reflexivity|].
  destruct (decide (s = lit "completed")) as [->|H3]; [reflexivity|].
  rewrite !bool_decide_eq_false_2; try assumption; [reflexivity|].
  intros H.
  repeat (apply elem_of_cons in H as [H|H]; [congruence|]).
  now apply elem_of_nil in H.
Qed.

(** X23: on a repair record the two validators differ in two points
    only.  A record the program's validator accepts is accepted by the
    rules exactly when its status is one of the three listed values; a
    record the rules accept is accepted by the program exactly when none
    of customer id, device type, brand and model is white space only. *)
Theorem repair_validators_compared (r : Repair.Repair) :
  let o := Repair.to_object r in
  let listed := bool_decide (Repair.status r ∈ listed_statuses) in
  let padded :=
    blank (Repair.customer_id r) || blank (Repair.device_type r)
    || blank (Repair.brand r) || blank (Repair.model r) in
  (valid (validateRepair o) = true -> isValidRepair o = listed)
  /\ (isValidRepair o = true -> valid (validateRepair o) = negb padded).
Proof.
  intros o listed padded. subst o.
  destruct (get_repair r) as (H1 & H2 & H3 & H4 & H5 & H6 & H7).
  pose proof (get_Some _ _ _ H1 ltac:(discriminate)) as L1.
  pose proof (get_Some _ _ _ H2 ltac:(discriminate)) as L2.
  pose proof (get_Some _ _ _ H3 ltac:(discriminate)) as L3.
  pose proof (get_Some _ _ _ H4 ltac:(discriminate)) as L4.
  pose proof (get_Some _ _ _ H5 ltac:(discriminate)) as L5.
  pose proof (get_Some _ _ _ H6 ltac:(discriminate)) as L6.
  pose proof (get_Some _ _ _ H7 ltac:(discriminate)) as L7.
  assert (Hrules : isValidRepair (Repair.to_object r)
    = match Repair.customer_id r with [] => false | _ => true end
      && match Repair.device_type r with [] => false | _ => true end
      && match Repair.brand r with [] => false | _ => true end
      && match Repair.model r with [] => false | _ => true end
      && listed
      && ge_zero (Repair.cost r)
      && match Repair.tasks r with [] => false | _ => true end).
  { unfold isValidRepair.
    rewrite (size_nonzero _ _ _ L1), (nonempty_string_lookup _ _ _ L1),
      (nonempty_string_lookup _ _ _ L2), (nonempty_string_lookup _ _ _ L3),
      (nonempty_string_lookup _ _ _ L4), (status_ok_lookup _ _ L5).
    unfold nonnegative_number, nonempty_list. rewrite L6, L7.
    now destruct (Repair.tasks r). }
  assert (Hclient : valid (validateRepair (Repair.to_object r))
    = negb (blank (Repair.customer_id r))
      && negb (blank (Repair.device_type r))
      && negb (blank (Repair.brand r))
      && negb (blank (Repair.model r))
      && negb (blank (Repair.status r))
      && ge_zero (Repair.cost r)
      && match Repair.tasks r with [] => false | _ => true end).
  { rewrite validateRepair_valid.
    rewrite H1, H2, H3, H4, H5, H6, H7, !validateRequired_string.
    simpl. now destruct (Repair.tasks r). }
  rewrite Hrules, Hclient. split.
  - rewrite !andb_true_iff, !negb_true_iff.
    intros ((((((B1 & B2) & B3) & B4) & B5) & C) & T).
    rewrite (not_blank_nonempty _ B1), (not_blank_nonempty _ B2),
      (not_blank_nonempty _ B3), (not_blank_nonempty _ B4), C, T.
    now rewrite !andb_true_r.
  - rewrite !andb_true_iff.
    intros ((((((B1 & B2) & B3) & B4) & L) & C) & T).
    apply bool_decide_eq_true in L. rewrite (listed_not_blank _ L), C, T.
    unfold padded. rewrite !negb_orb. simpl. now rewrite !andb_true_r.
Qed.

Lemma class_weaker c : not_space_or_at c = true -> not_re2_space_or_at c = true.
Proof.
  unfold not_space_or_at, not_re2_space_or_at, is_white_space, is_re2_space.
  rewrite !negb_true_iff, !orb_false_iff. tauto.
Qed.

Lemma part_weaker s :
  part_ok s -> s <> [] /\ forallb not_re2_space_or_at s = true.
Proof.
  intros [Hne Hall]. split; [exact Hne|].
  apply forallb_forall. intros c Hc. apply class_weaker.
  rewrite forallb_forall in Hall. now apply Hall.
Qed.

(** An address the program accepts matches the pattern of the rules. *)
Lemma program_email_matches_rule s :
  validateEmail s = true -> full_match emailPattern s = true.
Proof.
  intros H. apply validateEmail_spec in H as (u & d & t & -> & Hu & Hd & Ht).
  apply full_match_spec. unfold emailPattern.
  apply part_weaker, lang_plus_class in Hu, Hd, Ht.
  repeat (apply lang_seq; auto); now apply lang_is_char.
Qed.

(** X24: a customer record that the program's validator accepts is
    accepted by the rules except in one case: when its email field is
    the empty string, which the program lets pass and the rules
    refuse. *)
Theorem customer_validators_compared
    (ts : JsValue -> jsstring) (c : Customer.Customer)
    (Haccepted : valid (validateCustomer ts (Customer.to_object c)) = true) :
  isValidCustomer (Customer.to_object c)
  = negb (bool_decide (Customer.email c = Some [])).
Proof.
  pose proof (get_customer_name c) as H1.
  pose proof (get_customer_phone c) as H2.
  pose proof (get_customer_email c) as H3.
  rewrite validateCustomer_valid, H1, H2, H3, !validateRequired_string
    in Haccepted.
  rewrite !andb_true_iff, !negb_true_iff in Haccepted.
  destruct Haccepted as [[B1 B2] E].
  pose proof (get_Some _ _ _ H1 ltac:(discriminate)) as L1.
  pose proof (get_Some _ _ _ H2 ltac:(discriminate)) as L2.
  assert (La : has (Customer.to_object c) "address" = true).
  { unfold has, Customer.to_object, Customer.set_optional.
    destruct c as [n p [e|] a [t1|] [t2|]]; simpl; by simplify_map_eq. }
  unfold isValidCustomer.
  rewrite (size_nonzero _ _ _ L1), (nonempty_string_lookup _ _ _ L1),
    (nonempty_string_lookup _ _ _ L2), La,
    (not_blank_nonempty _ B1), (not_blank_nonempty _ B2).
  simpl. rewrite andb_true_r. unfold email_ok.
  destruct (Customer.email c) as [[|a e]|] eqn:Em; simpl in H3.
  - rewrite (get_Some _ _ _ H3 ltac:(discriminate)). reflexivity.
  - rewrite (get_Some _ _ _ H3 ltac:(discriminate)).
    simpl in E. apply negb_false_iff in E.
    rewrite (program_email_matches_rule _ E).
    now rewrite bool_decide_eq_false_2.
  - assert (Hnone : Customer.to_object c !! "email" = None).
    { unfold Customer.to_object, Customer.set_optional. rewrite Em.
      destruct (Customer.createdAt c), (Customer.updatedAt c); simpl;
        by simplify_map_eq. }
    rewrite Hnone. now rewrite bool_decide_eq_false_2.
Qed.

Definition form_customer : Customer.Customer :=
  {| Customer.name := lit "Mike Wilson";
     Customer.phone := lit "555-789-1234";
     Customer.email := Some [];
     Customer.address := [];
     Customer.createdAt := None;
     Customer.updatedAt := None |}.

Lemma customer_validators_compared_witness :
  valid (validateCustomer (fun _ => []) (Customer.to_object form_customer))
  = true
  /\ isValidCustomer (Customer.to_object form_customer) = false.
Proof.
  assert (H : valid (validateCustomer (fun _ => [])
                       (Customer.to_object form_customer)) = true)
    by (vm_compute; reflexivity).
  split; [exact H|].
  exact (customer_validators_compared (fun _ => []) form_customer H).
Defined.

(* ===================================================================== *)
(** * 30. Shape of the minted identifiers                                  *)
(* ===================================================================== *)

(** X25: every repair id has seven characters: the three lower-case
    letters of the month followed by the four decimal digits of an
    integer between 1000 and 9999, the number being computed in doubles
    as the program computes it. *)
Theorem repair_id_shape (m : Month) (draw : N) :
  length (make_repair_id m draw) = 7
  /\ take 3 (make_repair_id m draw) = toLowerCase (month_short m)
  /\ three_lower_letters (take 3 (make_repair_id m draw)) = true
  /\ four_decimal_digits (drop 3 (make_repair_id m draw)) = true
  /\ exists n, (1000 <= n <= 9999)%N
               /\ drop 3 (make_repair_id m draw) = decimal n.
Proof.
  destruct (make_repair_id_format m draw)
    as (month & number & -> & Hm & H3 & Hn & H4).
  assert (Hlen3 : length month = 3).
  { unfold three_lower_letters in H3. apply andb_true_iff in H3 as [H3 _].
    now apply Nat.eqb_eq in H3. }
  assert (Hlen4 : length (decimal number) = 4).
  { unfold four_decimal_digits in H4. apply andb_true_iff in H4 as [H4 _].
    now apply Nat.eqb_eq in H4. }
  assert (Ht : take 3 (month ++ decimal number) = month)
    by (rewrite <- Hlen3; apply take_app_length).
  assert (Hd : drop 3 (month ++ decimal number) = decimal number)
    by (rewrite <- Hlen3; apply drop_app_length).
  rewrite Ht, Hd, length_app, Hlen3, Hlen4.
  repeat split; try assumption. exists number. split; [lia|reflexivity].
Qed.

(** X26: whatever fraction digits the number drawn is printed with in
    radix 36, the product suffix is the first eight of them in upper case
    and the technician suffix the first six: characters of [0-9A-Z], as
    many as there are digits when fewer than eight (six) are printed. *)
Theorem id_suffix_of_printed_digits (ds : list N)
    (Hds : Forall (fun d => (d < 36)%N) ds) :
  product_suffix (printed36 ds)
  = map (fun d => upper_unit (digit36 d)) (take 8 ds)
  /\ technician_suffix (printed36 ds)
     = map (fun d => upper_unit (digit36 d)) (take 6 ds)
  /\ length (product_suffix (printed36 ds)) = Nat.min 8 (length ds)
  /\ length (technician_suffix (printed36 ds)) = Nat.min 6 (length ds)
  /\ forallb is_base36_upper (product_suffix (printed36 ds)) = true
  /\ forallb is_base36_upper (technician_suffix (printed36 ds)) = true.
Proof.
  unfold product_suffix, technician_suffix.
  rewrite (suffix_of_digits 8), (suffix_of_digits 6).
  rewrite !length_map, !length_take.
  assert (Hupper : forall n,
    forallb is_base36_upper
      (map (fun d => upper_unit (digit36 d)) (take n ds)) = true).
  { intros n. apply forallb_forall. intros c Hc.
    apply in_map_iff in Hc as (d & <- & Hd). apply digit36_upper.
    rewrite List.Forall_forall in Hds. apply Hds.
    apply list_elem_of_In. apply list_elem_of_In in Hd.
    exact (subseteq_take _ _ _ Hd). }
  repeat split; auto.
Qed.

(** A number printed as ["0.g"]. *)
Lemma id_suffix_of_printed_digits_witness :
  Forall (fun d => (d < 36)%N) [16%N]
  /\ product_suffix (printed36 [16%N]) = lit "G".
Proof.
  assert (H : Forall (fun d => (d < 36)%N) [16%N])
    by (repeat constructor).
  split; [exact H|].
  etrans; [exact (proj1 (id_suffix_of_printed_digits [16%N] H))|].
  reflexivity.
Defined.

(* ===================================================================== *)
(** * 31. Seeding the database                                             *)
(* ===================================================================== *)

Module Seed.

(** An object literal, fields in source order. *)
Definition obj (fields : list (string * JsValue)) : JsObject :=
  list_to_map fields.

Definition str (s : string) : JsValue := JString (lit s).
Definition num (m : positive) (e : Z) : JsValue :=
  JNumber (S754_finite false m e).
Definition strings (l : list string) : JsValue := JArray (str <$> l).

(** [const sampleCustomers] *)
Definition sampleCustomers : list JsObject :=
  [ obj [("name", str "John Doe"); ("phone", str "123-456-7890");
         ("email", str "john.doe@example.com");
         ("address", str "123 Main St, Anytown, USA")];
    obj [("name", str "Jane Smith"); ("phone", str "987-654-3210");
         ("email", str "jane.smith@example.com");
         ("address", str "456 Oak Ave, Somewhere, USA")];
    obj [("name", str "Robert Johnson"); ("phone", str "555-123-4567");
         ("email", str "robert.johnson@example.com");
         ("address", str "789 Pine Rd, Nowhere, USA")] ].

(** [const sampleTechnicians] *)
Definition sampleTechnicians : list JsObject :=
  [ obj [("name", str "Mike Wilson");
         ("specialization", strings ["Mobile Phones"; "Tablets"]);
         ("availability", JBool true);
         ("email", str "mike.wilson@techrepair.com");
         ("phone", str "555-789-1234")];
    obj [("name", str "Sarah Lee");
         ("specialization", strings ["Laptops"; "Desktops"]);
         ("availability", JBool true);
         ("email", str "sarah.lee@techrepair.com");
         ("phone", str "555-456-7890")];
    obj [("name", str "David Chen");
         ("specialization", strings ["Game Consoles"; "Smart Watches"]);
         ("availability", JBool false);
         ("email", str "david.chen@techrepair.com");
         ("phone", str "555-234-5678")] ].

(** [const sampleProducts]; the numbers are the doubles the literals
    denote ([49.99] is [7035467042882847 * 2^-47], and so on). *)
Definition sampleProducts : list JsObject :=
  [ obj [("name", str "iPhone Screen Replacement Kit");
         ("category", str "Repair Parts");
         ("quantity", num 7036874417766400 (-48));
         ("price", num 7035467042882847 (-47));
         ("supplier", str "Tech Parts Inc.");
         ("description",
          str "Replacement screen for iPhone models 11, 12, and 13");
         ("sku", str "IP-SCRN-1113")];
    obj [("name", str "Samsung Battery Pack");
         ("category", str "Repair Parts");
         ("quantity", num 8444249301319680 (-49));
         ("price", num 8441434551552573 (-48));
         ("supplier", str "Samsung Parts");
         ("description",
          str "Replacement battery for Samsung Galaxy S10, S20, and S21");
         ("sku", str "SG-BAT-1021")];
    obj [("name", str "Universal Laptop Charger");
         ("category", str "Accessories");
         ("quantity", num 8444249301319680 (-48));
         ("price", num 5628092159329567 (-47));
         ("supplier", str "Power Solutions");
         ("description",
          str "Compatible with most laptop brands, includes multiple tips");
         ("sku", str "ACC-CHRG-UNI")];
    obj [("name", str "Anti-Static Wrist Strap");
         ("category", str "Tools");
         ("quantity", num 7036874417766400 (-47));
         ("price", num 5623870034678907 (-49));
         ("supplier", str "Tech Tools");
         ("description",
          str "Prevents static damage when working on electronic devices");
         ("sku", str "TL-ANTST-01")] ].

(** [ids[i]]: [undefined] past the end. *)
Definition id_at (ids : list string) (i : nat) : JsValue :=
  match ids !! i with
  | Some id => JString (lit id)
  | None => JUndefined
  end.

(** [const sampleRepairs], built from the ids collected so far. *)
Definition sampleRepairs (customerIds technicianIds : list string)
  : list JsObject :=
  [ obj [("customer_id", id_at customerIds 0);
         ("device_type", str "Mobile Phone");
         ("brand", str "Apple");
         ("model", str "iPhone 13");
         ("issue_description",
          str "Cracked screen and battery not holding charge");
         ("status", str "in-progress");
         ("cost", num 5277303969603912 (-45));
         ("technician_id", id_at technicianIds 0);
         ("tasks", strings ["Screen Replacement"; "Battery Replacement"]);
         ("passcode", str "1234")];
    obj [("customer_id", id_at customerIds 1);
         ("device_type", str "Laptop");
         ("brand", str "Dell");
         ("model", str "XPS 15");
         ("issue_description",
          str "Not powering on, possible motherboard issue");
         ("status", str "pending");
         ("cost", num 5277479891464356 (-44));
         ("technician_id", id_at technicianIds 1);
         ("tasks", strings ["Diagnostic"; "Motherboard Repair"])];
    obj [("customer_id", id_at customerIds 2);
         ("device_type", str "Game Console");
         ("brand", str "Sony");
         ("model", str "PlayStation 5");
         ("issue_description",
          str "Overheating and shutting down during gameplay");
         ("status", str "completed");
         ("cost", num 6332483288547983 (-46));
         ("technician_id", id_at technicianIds 2);
         ("tasks", strings ["Cleaning"; "Thermal Paste Replacement"]);
         ("notes", str "Customer requested rush service")] ].

(** [if (id) ids.push(id)]: an id is kept when it is neither [null] nor
    empty. *)
Definition push_if (id : option string) (ids : list string) : list string :=
  match id with
  | Some s => if String.eqb s "" then ids else ids ++ [s]
  | None => ids
  end.

Section Loops.

Variable ToString_other : JsValue -> jsstring.
Variable env : Env.

(** [for (const customer of sampleCustomers) { ... }] and the three
    loops after it.  The [console.log] lines of the loops are not
    recorded: the console of the model holds the [console.error]
    lines. *)
Fixpoint seed_customers (samples : list JsObject) (customerIds : list string)
  : M (list string) :=
  match samples with
  | [] => ret customerIds
  | customer :: rest =>
      let! customerId := addCustomer ToString_other env customer in
      seed_customers rest (push_if customerId customerIds)
  end.

Fixpoint seed_technicians (samples : list JsObject)
    (technicianIds : list string) : M (list string) :=
  match samples with
  | [] => ret technicianIds
  | technician :: rest =>
      let! technicianId := addTechnician ToString_other env technician in
      seed_technicians rest (push_if technicianId technicianIds)
  end.

Fixpoint seed_products (samples : list JsObject) : M unit :=
  match samples with
  | [] => ret tt
  | product :: rest =>
      let! productId := addProduct env product in
      seed_products rest
  end.

Fixpoint seed_repairs (samples : list JsObject) : M unit :=
  match samples with
  | [] => ret tt
  | repair :: rest =>
      let! repairId := addRepair env repair in
      seed_repairs rest
  end.

(** [seedDatabase]: its [console.log] lines are not recorded either; the
    [catch] logs with [console.error] and throws the error again. *)
Definition seedDatabase : M unit :=
  try_catch
    (let! customerIds := seed_customers sampleCustomers [] in
     let! technicianIds := seed_technicians sampleTechnicians [] in
     do! seed_products sampleProducts in
     do! (if Nat.ltb 0 (length customerIds)
             && Nat.ltb 0 (length technicianIds)
          then seed_repairs (sampleRepairs customerIds technicianIds)
          else ret tt) in
     ret tt)
    (fun error =>
       do! console_error "Error seeding database:" in throw error).

End Loops.

End Seed.

Import Seed.

(* --------------------------------------------------------------------- *)
(** ** Computations that return and keep what is stored                   *)
(* --------------------------------------------------------------------- *)

(** Every document of [w] is in [w'], unchanged. *)
Definition extends (w w' : World) : Prop :=
  forall coll id doc,
    collection w coll !! id = Some doc -> collection w' coll !! id = Some doc.

(** [m] returns (it does not throw) and keeps every stored document. *)
Definition safe {A} (m : M A) : Prop :=
  forall w, exists a w', m w = (Returned a, w') /\ extends w w'.

Lemma extends_refl w : extends w w.
Proof. intros coll id doc H. exact H. Qed.

Lemma extends_trans w1 w2 w3 : extends w1 w2 -> extends w2 w3 -> extends w1 w3.
Proof. intros H12 H23 coll id doc H. apply H23, H12, H. Qed.

Lemma extends_db w w' : db w' = db w -> extends w w'.
Proof. intros Hdb coll id doc. unfold collection. now rewrite Hdb. Qed.

Lemma safe_ret {A} (a : A) : safe (ret a).
Proof. intros w. exists a, w. split; [reflexivity|apply extends_refl]. Qed.

Lemma safe_bind {A B} (m : M A) (f : A -> M B) :
  safe m -> (forall a, safe (f a)) -> safe (bind m f).
Proof.
  intros Hm Hf w. destruct (Hm w) as (a & w1 & E1 & X1).
  destruct (Hf a w1) as (b & w2 & E2 & X2).
  exists b, w2. unfold bind. rewrite E1. split; [exact E2|].
  eapply extends_trans; eassumption.
Qed.

Lemma safe_try_catch {A} (m : M A) handler : safe m -> safe (try_catch m handler).
Proof.
  intros Hm w. destruct (Hm w) as (a & w1 & E1 & X1).
  exists a, w1. unfold try_catch. now rewrite E1.
Qed.

(** An add keeps every stored document: it writes under a free id or not
    at all. *)
Lemma add_of_extends ts env e payload w :
  extends w (add_of ts env e payload w).2.
Proof.
  destruct (add_of_cases ts env e payload w)
    as [(id & w0 & -> & Hdb & _ & Hfree & _)|[Hdb _]];
    [|now apply extends_db].
  intros coll i doc Hdoc. cbn [snd]. rewrite collection_stored.
  case_decide as Hc.
  - subst coll. rewrite lookup_insert. case_decide as Hi.
    + subst i. congruence.
    + rewrite collection_sent. unfold collection in *. now rewrite Hdb.
  - rewrite collection_sent. unfold collection in *. now rewrite Hdb.
Qed.

Lemma add_of_safe ts env e payload :
  e <> Customers \/ valid (validateCustomer ts payload) = true ->
  safe (add_of ts env e payload).
Proof.
  intros He w. pose proof (add_of_extends ts env e payload w) as Hx.
  destruct (add_of_cases ts env e payload w)
    as [(id & w0 & E & _)|[_ [Hr|(-> & Hv & _)]]].
  - rewrite E in Hx |- *. eauto.
  - destruct (add_of ts env e payload w) as [r w'] eqn:E.
    cbn [fst snd] in *. subst r. eauto.
  - destruct He; congruence.
Qed.

(** X27: an add never changes or removes a stored document, whatever its
    outcome: a document that is in the store before the call is there,
    unchanged, after it. *)
Theorem add_never_overwrites
    (ts : JsValue -> jsstring) (env : Env) (e : Entity)
    (payload : JsObject) (w : World) (coll id : string) (doc : JsObject)
    (Hstored : collection w coll !! id = Some doc) :
  collection (add_of ts env e payload w).2 coll !! id = Some doc.
Proof. exact (add_of_extends ts env e payload w coll id doc Hstored). Qed.

Lemma add_never_overwrites_witness :
  collection seeded_world "customers" !! "c1" = Some john_doe
  /\ collection
       (addCustomer (fun _ => []) quiet_env contact_without_email
          seeded_world).2 "customers" !! "c1" = Some john_doe.
Proof.
  assert (H : collection seeded_world "customers" !! "c1" = Some john_doe)
    by (vm_compute; reflexivity).
  split; [exact H|].
  exact (add_never_overwrites (fun _ => []) quiet_env Customers
           contact_without_email seeded_world "customers" "c1" john_doe H).
Defined.

(* --------------------------------------------------------------------- *)
(** ** The seeding loops                                                  *)
(* --------------------------------------------------------------------- *)

Lemma sampleCustomers_valid ts :
  Forall (fun c => valid (validateCustomer ts c) = true) sampleCustomers.
Proof. repeat constructor; vm_compute; reflexivity. Qed.

Lemma seed_customers_safe ts env samples :
  Forall (fun c => valid (validateCustomer ts c) = true) samples ->
  forall ids, safe (seed_customers ts env samples ids).
Proof.
  induction 1 as [|c samples Hc _ IH]; intros ids; simpl.
  - apply safe_ret.
  - apply safe_bind; [|intros a; apply IH].
    apply (add_of_safe ts env Customers). now right.
Qed.

Lemma seed_technicians_safe ts env samples :
  forall ids, safe (seed_technicians ts env samples ids).
Proof.
  induction samples as [|t samples IH]; intros ids; simpl.
  - apply safe_ret.
  - apply safe_bind; [|intros a; apply IH].
    apply (add_of_safe ts env Technicians). now left.
Qed.

Lemma seed_products_safe env samples : safe (seed_products env samples).
Proof.
  induction samples as [|p samples IH]; simpl.
  - apply safe_ret.
  - apply safe_bind; [|intros a; apply IH].
    apply (add_of_safe (fun _ => []) env Products). now left.
Qed.

Lemma seed_repairs_safe env samples : safe (seed_repairs env samples).
Proof.
  induction samples as [|r samples IH]; simpl.
  - apply safe_ret.
  - apply safe_bind; [|intros a; apply IH].
    apply (add_of_safe (fun _ => []) env Repairs). now left.
Qed.

(** X28: [seedDatabase] never throws, whatever the service does, and it
    never changes or removes a document that was already stored. *)
Theorem seedDatabase_returns_and_keeps
    (ts : JsValue -> jsstring) (env : Env) (w : World) :
  exists w',
    seedDatabase ts env w = (Returned tt, w')
    /\ forall coll id doc,
         collection w coll !! id = Some doc ->
         collection w' coll !! id = Some doc.
Proof.
  assert (Hsafe : safe (seedDatabase ts env)).
  { unfold seedDatabase. apply safe_try_catch.
    apply safe_bind;
      [apply seed_customers_safe, sampleCustomers_valid|intros cs].
    apply safe_bind; [apply seed_technicians_safe|intros tsx].
    apply safe_bind; [apply seed_products_safe|intros _].
    apply safe_bind; [|intros _; apply safe_ret].
    destruct (_ && _); [apply seed_repairs_safe|apply safe_ret]. }
  destruct (Hsafe w) as ([] & w' & E & X). exists w'. split; [exact E|exact X].
Qed.

(* --------------------------------------------------------------------- *)
(** ** Seeding while the service rejects every request                    *)
(* --------------------------------------------------------------------- *)

(** From [w] to [w']: nothing stored, [n] requests sent, [n] lines on the
    console. *)
Definition failed_requests (n : nat) (w w' : World) : Prop :=
  db w' = db w
  /\ length (requests w') = n + length (requests w)
  /\ length (console w') = n + length (console w).

Lemma failed_requests_trans n m w1 w2 w3 :
  failed_requests n w1 w2 -> failed_requests m w2 w3 ->
  failed_requests (n + m) w1 w3.
Proof.
  intros (D1 & R1 & C1) (D2 & R2 & C2). repeat split; [congruence|lia|lia].
Qed.

Lemma write_new_rejected env coll line data w :
  rejects env (tick w) = true ->
  write_new env coll line data w
  = (Returned None, logged line (sent (ReqAddDoc coll data) w)).
Proof. intros H. unfold write_new. now rewrite H. Qed.

Lemma validateProduct_productData env w product :
  validateProduct (productData env w product) = validateProduct product.
Proof.
  unfold validateProduct, productData, stamp.
  now rewrite !(get_insert_ne _ "updatedAt"), !(get_insert_ne _ "createdAt"),
    !(get_insert_ne _ "product_id") by discriminate.
Qed.

Lemma validateTechnician_technicianData ts env w technician :
  validateTechnician ts (technicianData env w technician)
  = validateTechnician ts technician.
Proof.
  unfold validateTechnician, technicianData, stamp.
  now rewrite !(get_insert_ne _ "updatedAt"), !(get_insert_ne _ "createdAt"),
    !(get_insert_ne _ "tech_id") by discriminate.
Qed.

Section Offline.

Variable ts : JsValue -> jsstring.
Variable env : Env.
Hypothesis Hoffline : forall n, rejects env n = true.

Lemma addCustomer_offline customer w :
  valid (validateCustomer ts customer) = true ->
  exists w', addCustomer ts env customer w = (Returned None, w')
             /\ failed_requests 1 w w'.
Proof.
  intros Hv. rewrite addCustomer_run. cbn zeta. rewrite Hv. cbn [negb].
  rewrite write_new_rejected by apply Hoffline.
  eexists. split; [reflexivity|]. repeat split.
Qed.

Lemma addTechnician_offline technician w :
  valid (validateTechnician ts technician) = true ->
  exists w', addTechnician ts env technician w = (Returned None, w')
             /\ failed_requests 1 w w'.
Proof.
  intros Hv. rewrite addTechnician_run. cbn zeta.
  rewrite validateTechnician_technicianData, Hv. cbn [negb].
  rewrite write_new_rejected by apply Hoffline.
  eexists. split; [reflexivity|]. repeat split.
Qed.

Lemma addProduct_offline product w :
  valid (validateProduct product) = true ->
  exists w', addProduct env product w = (Returned None, w')
             /\ failed_requests 1 w w'.
Proof.
  intros Hv. rewrite addProduct_run. cbn zeta.
  rewrite validateProduct_productData, Hv. cbn [negb].
  rewrite write_new_rejected by apply Hoffline.
  eexists. split; [reflexivity|]. repeat split.
Qed.

Lemma seed_customers_offline samples :
  Forall (fun c => valid (validateCustomer ts c) = true) samples ->
  forall ids w,
  exists w', seed_customers ts env samples ids w = (Returned ids, w')
             /\ failed_requests (length samples) w w'.
Proof.
  induction 1 as [|c samples Hc _ IH]; intros ids w; simpl.
  - exists w. split; [reflexivity|]. repeat split.
  - destruct (addCustomer_offline c w Hc) as (w1 & E1 & F1).
    destruct (IH ids w1) as (w2 & E2 & F2).
    exists w2. unfold bind. rewrite E1. cbn [push_if]. split; [exact E2|].
    exact (failed_requests_trans 1 _ _ _ _ F1 F2).
Qed.

Lemma seed_technicians_offline samples :
  Forall (fun t => valid (validateTechnician ts t) = true) samples ->
  forall ids w,
  exists w', seed_technicians ts env samples ids w = (Returned ids, w')
             /\ failed_requests (length samples) w w'.
Proof.
  induction 1 as [|t samples Ht _ IH]; intros ids w; simpl.
  - exists w. split; [reflexivity|]. repeat split.
  - destruct (addTechnician_offline t w Ht) as (w1 & E1 & F1).
    destruct (IH ids w1) as (w2 & E2 & F2).
    exists w2. unfold bind. rewrite E1. cbn [push_if]. split; [exact E2|].
    exact (failed_requests_trans 1 _ _ _ _ F1 F2).
Qed.

Lemma seed_products_offline samples :
  Forall (fun p => valid (validateProduct p) = true) samples ->
  forall w,
  exists w', seed_products env samples w = (Returned tt, w')
             /\ failed_requests (length samples) w w'.
Proof.
  induction 1 as [|p samples Hp _ IH]; intros w; simpl.
  - exists w. split; [reflexivity|]. repeat split.
  - destruct (addProduct_offline p w Hp) as (w1 & E1 & F1).
    destruct (IH w1) as (w2 & E2 & F2).
    exists w2. unfold bind. rewrite E1. split; [exact E2|].
    exact (failed_requests_trans 1 _ _ _ _ F1 F2).
Qed.

End Offline.

Lemma sampleTechnicians_valid ts :
  Forall (fun t => valid (validateTechnician ts t) = true) sampleTechnicians.
Proof. repeat constructor; vm_compute; reflexivity. Qed.

Lemma sampleProducts_valid :
  Forall (fun p => valid (validateProduct p) = true) sampleProducts.
Proof. repeat constructor; vm_compute; reflexivity. Qed.

(** X29: when the service rejects every request, [seedDatabase] still
    returns normally; nothing is stored, no repair is attempted, and the
    ten requests it sent (three customers, three technicians, four
    products) each left one line on the console. *)
Theorem seedDatabase_offline
    (ts : JsValue -> jsstring) (env : Env) (w : World)
    (Hoffline : forall n, rejects env n = true) :
  exists w',
    seedDatabase ts env w = (Returned tt, w')
    /\ db w' = db w
    /\ length (requests w') = 10 + length (requests w)
    /\ length (console w') = 10 + length (console w).
Proof.
  destruct (seed_customers_offline ts env Hoffline _
              (sampleCustomers_valid ts) [] w) as (w1 & E1 & F1).
  destruct (seed_technicians_offline ts env Hoffline _
              (sampleTechnicians_valid ts) [] w1) as (w2 & E2 & F2).
  destruct (seed_products_offline env Hoffline _ sampleProducts_valid w2)
    as (w3 & E3 & F3).
  exists w3. unfold seedDatabase, try_catch, bind.
  rewrite E1, E2, E3. cbn. split; [reflexivity|].
  pose proof (failed_requests_trans _ _ _ _ _
                (failed_requests_trans _ _ _ _ _ F1 F2) F3) as (D & R & C).
  repeat split; assumption.
Qed.

Definition offline_env : Env :=
  {| rejects := fun _ => true;
     serverTime := serverTime quiet_env;
     idEntropy := idEntropy quiet_env;
     randomDraw := randomDraw quiet_env;
     currentMonth := currentMonth quiet_env |}.

Lemma seedDatabase_offline_witness :
  (forall n, rejects offline_env n = true)
  /\ exists w',
       seedDatabase (fun _ => []) offline_env seeded_world = (Returned tt, w')
       /\ db w' = db seeded_world.
Proof.
  assert (H : forall n, rejects offline_env n = true) by reflexivity.
  split; [exact H|].
  destruct (seedDatabase_offline (fun _ => []) offline_env seeded_world H)
    as (w' & E & D & _).
  exists w'. split; assumption.
Defined.
